(** * Beacon-chain state transition and deposit trie of prysm: a shallow embedding

  The Go sources are embedded as Rocq functions.  [uint64] values are
  integers of [Z] with the wrap-around of Go's unsigned arithmetic written
  out, byte slices and [[32]byte] arrays are lists of bytes, Go maps are
  [gmap]s, and a Go function returning [(value, error)] returns a value of
  the [result] type below. *)

From Stdlib Require Import ZArith List Bool Lia.
From Stdlib.Strings Require Import Byte.
From stdpp Require Import base option list gmap.

Local Open Scope Z_scope.

(** ** Machine integers *)

Definition modulus64 : Z := 2 ^ 64.

Definition wrap64 (z : Z) : Z := z mod modulus64.

Definition add64 (a b : Z) : Z := wrap64 (a + b).
Definition sub64 (a b : Z) : Z := wrap64 (a - b).
Definition mul64 (a b : Z) : Z := wrap64 (a * b).
Definition shl64 (a n : Z) : Z := wrap64 (Z.shiftl a n).

Definition is_uint64 (z : Z) : Prop := 0 <= z < modulus64.

(** ** Bytes *)

#[global] Instance byte_eq_dec : EqDecision byte := Byte.byte_eq_dec.

(** The zero value of a [[32]byte] array, which is what a Go map of arrays
  returns for a key that was never written. *)
Definition zeroHash : list byte := repeat x00 32.

(** ** Results of fallible functions *)

Inductive result (E A : Type) : Type :=
| Ok (a : A)
| Err (e : E).
Arguments Ok {E A} a.
Arguments Err {E A} e.

#[global] Instance result_bind {E} : MBind (result E) := fun A B k r =>
match r with
| Ok a => k a
| Err e => Err e
end.

#[global] Instance result_ret {E} : MRet (result E) := fun A a => Ok a.

(** * shared/trie/deposit_trie.go *)

Module Trie.
Section DepositTrie.

(** [hashutil.Hash] and [params.BeaconConfig().DepositContractTreeDepth]
    live outside the embedded files. *)
Variable Hash : list byte -> list byte.
Variable DepositContractTreeDepth : Z.

Record DepositTrie := {
  depositCount : Z;
  merkleHashes : gmap Z (list byte)
}.

Definition NewDepositTrie : DepositTrie :=
  {| depositCount := 0; merkleHashes := ∅ |}.

(** [d.merkleHashes[k]]: reading an absent key yields the zero array. *)
Definition at_key (m : gmap Z (list byte)) (k : Z) : list byte :=
  default zeroHash (m !! k).

(** [uint64(1 << DepositContractTreeDepth)]. *)
Definition twoToPowerOfTreeDepth : Z := shl64 1 DepositContractTreeDepth.

(** The loop of [UpdateDepositTrie], [n] iterations left. *)
Fixpoint updateLoop (n : nat) (index : Z) (m : gmap Z (list byte))
  : gmap Z (list byte) :=
  match n with
  | O => m
  | S n' =>
      let index := index / 2 in
      let left := at_key m (mul64 index 2) in
      let right := at_key m (add64 (mul64 index 2) 1) in
      updateLoop n' index (<[index := Hash (left ++ right)]> m)
  end.

Definition UpdateDepositTrie (d : DepositTrie) (depositData : list byte)
  : DepositTrie :=
  let index := add64 (depositCount d) twoToPowerOfTreeDepth in
  let m := <[index := Hash depositData]> (merkleHashes d) in
  {| depositCount := add64 (depositCount d) 1;
     merkleHashes := updateLoop (Z.to_nat DepositContractTreeDepth) index m |}.

(** The loop of [GenerateMerkleBranch]; the slice [branch] is filled from
    index 0 upwards, one entry per iteration. *)
Fixpoint branchLoop (n : nat) (idx : Z) (m : gmap Z (list byte))
  : list (list byte) :=
  match n with
  | O => []
  | S n' =>
      (if idx mod 2 =? 1 then at_key m (sub64 idx 1)
       else at_key m (add64 idx 1))
      :: branchLoop n' (idx / 2) m
  end.

Definition GenerateMerkleBranch (d : DepositTrie) (index : Z)
  : list (list byte) :=
  let idx := add64 index twoToPowerOfTreeDepth in
  branchLoop (Z.to_nat DepositContractTreeDepth) idx (merkleHashes d).

Definition Root (d : DepositTrie) : list byte := at_key (merkleHashes d) 1.

(** The loop of [VerifyMerkleBranch] at iteration [i] with [n] iterations
    left.  [idx] is computed once before the loop and is not updated inside
    it.  Reading [branch[i]] past the end of the slice panics: [None]. *)
Fixpoint verifyLoop (n i : nat) (idx : Z) (branch : list (list byte))
  (value : list byte) : option (list byte) :=
  match n with
  | O => Some value
  | S n' =>
      match branch !! i with
      | None => None
      | Some b =>
          verifyLoop n' (S i) idx branch
            (if idx mod 2 =? 1 then Hash (b ++ value) else Hash (value ++ b))
      end
  end.

Definition VerifyMerkleBranch (leaf : list byte) (branch : list (list byte))
  (depth index : Z) (root : list byte) : option bool :=
  let idx := add64 index twoToPowerOfTreeDepth in
  match verifyLoop (Z.to_nat depth) 0 idx branch leaf with
  | None => None
  | Some value => Some (bool_decide (value = root))
  end.

(** The trie after inserting the given deposits in order. *)
Definition insertAll (deposits : list (list byte)) : DepositTrie :=
  fold_left UpdateDepositTrie deposits NewDepositTrie.

End DepositTrie.
End Trie.

(** * proto/beacon/p2p/v1: the messages the embedded functions touch

  Each message is a record in a module of its name, so that fields keep the
  names of the generated Go structs.  Fields that no embedded function
  reads or writes are left out, except for the registry balances and the
  ring buffers, which the passes kept abstract below may use. *)

Module pb.

Module Eth1Data.
Record t := {
    DepositRootHash32 : list byte;
    BlockHash32 : list byte
  }.
End Eth1Data.

Module Eth1DataVote.
Record t := {
    Eth1Data : Eth1Data.t;
    VoteCount : Z
  }.
End Eth1DataVote.

Module Crosslink.
Record t := {
    Epoch : Z;
    CrosslinkDataRootHash32 : list byte
  }.
End Crosslink.

Module AttestationData.
Record t := {
    Slot : Z;
    Shard : Z;
    BeaconBlockRootHash32 : list byte;
    EpochBoundaryRootHash32 : list byte;
    ShardBlockRootHash32 : list byte;
    JustifiedEpoch : Z;
    JustifiedBlockRootHash32 : list byte
  }.
End AttestationData.

Module PendingAttestation.
Record t := {
    Data : AttestationData.t;
    AggregationBitfield : list byte;
    CustodyBitfield : list byte;
    InclusionSlot : Z
  }.
End PendingAttestation.

Module BeaconBlock.
Record t := {
    Slot : Z;
    RandaoReveal : list byte;
    Eth1Data : Eth1Data.t;
    Signature : list byte
  }.
End BeaconBlock.

Module BeaconState.
Record t := {
    Slot : Z;
    ValidatorBalances : list Z;
    ValidatorRegistryUpdateEpoch : Z;
    LatestRandaoMixes : list (list byte);
    CurrentShufflingStartShard : Z;
    PreviousJustifiedEpoch : Z;
    JustifiedEpoch : Z;
    JustificationBitfield : Z;
    FinalizedEpoch : Z;
    LatestCrosslinks : list Crosslink.t;
    LatestBlockRootHash32S : list (list byte);
    LatestAttestations : list PendingAttestation.t;
    LatestEth1Data : Eth1Data.t;
    Eth1DataVotes : list Eth1DataVote.t
  }.

(** Assignments to single fields of the state object. *)
Definition with_Slot (v : Z) (s : t) : t :=
    {| Slot := v;
       ValidatorBalances := ValidatorBalances s;
       ValidatorRegistryUpdateEpoch := ValidatorRegistryUpdateEpoch s;
       LatestRandaoMixes := LatestRandaoMixes s;
       CurrentShufflingStartShard := CurrentShufflingStartShard s;
       PreviousJustifiedEpoch := PreviousJustifiedEpoch s;
       JustifiedEpoch := JustifiedEpoch s;
       JustificationBitfield := JustificationBitfield s;
       FinalizedEpoch := FinalizedEpoch s;
       LatestCrosslinks := LatestCrosslinks s;
       LatestBlockRootHash32S := LatestBlockRootHash32S s;
       LatestAttestations := LatestAttestations s;
       LatestEth1Data := LatestEth1Data s;
       Eth1DataVotes := Eth1DataVotes s |}.

Definition with_PreviousJustifiedEpoch (v : Z) (s : t) : t :=
    {| Slot := Slot s;
       ValidatorBalances := ValidatorBalances s;
       ValidatorRegistryUpdateEpoch := ValidatorRegistryUpdateEpoch s;
       LatestRandaoMixes := LatestRandaoMixes s;
       CurrentShufflingStartShard := CurrentShufflingStartShard s;
       PreviousJustifiedEpoch := v;
       JustifiedEpoch := JustifiedEpoch s;
       JustificationBitfield := JustificationBitfield s;
       FinalizedEpoch := FinalizedEpoch s;
       LatestCrosslinks := LatestCrosslinks s;
       LatestBlockRootHash32S := LatestBlockRootHash32S s;
       LatestAttestations := LatestAttestations s;
       LatestEth1Data := LatestEth1Data s;
       Eth1DataVotes := Eth1DataVotes s |}.

Definition with_JustifiedEpoch (v : Z) (s : t) : t :=
    {| Slot := Slot s;
       ValidatorBalances := ValidatorBalances s;
       ValidatorRegistryUpdateEpoch := ValidatorRegistryUpdateEpoch s;
       LatestRandaoMixes := LatestRandaoMixes s;
       CurrentShufflingStartShard := CurrentShufflingStartShard s;
       PreviousJustifiedEpoch := PreviousJustifiedEpoch s;
       JustifiedEpoch := v;
       JustificationBitfield := JustificationBitfield s;
       FinalizedEpoch := FinalizedEpoch s;
       LatestCrosslinks := LatestCrosslinks s;
       LatestBlockRootHash32S := LatestBlockRootHash32S s;
       LatestAttestations := LatestAttestations s;
       LatestEth1Data := LatestEth1Data s;
       Eth1DataVotes := Eth1DataVotes s |}.

Definition with_JustificationBitfield (v : Z) (s : t) : t :=
    {| Slot := Slot s;
       ValidatorBalances := ValidatorBalances s;
       ValidatorRegistryUpdateEpoch := ValidatorRegistryUpdateEpoch s;
       LatestRandaoMixes := LatestRandaoMixes s;
       CurrentShufflingStartShard := CurrentShufflingStartShard s;
       PreviousJustifiedEpoch := PreviousJustifiedEpoch s;
       JustifiedEpoch := JustifiedEpoch s;
       JustificationBitfield := v;
       FinalizedEpoch := FinalizedEpoch s;
       LatestCrosslinks := LatestCrosslinks s;
       LatestBlockRootHash32S := LatestBlockRootHash32S s;
       LatestAttestations := LatestAttestations s;
       LatestEth1Data := LatestEth1Data s;
       Eth1DataVotes := Eth1DataVotes s |}.

Definition with_FinalizedEpoch (v : Z) (s : t) : t :=
    {| Slot := Slot s;
       ValidatorBalances := ValidatorBalances s;
       ValidatorRegistryUpdateEpoch := ValidatorRegistryUpdateEpoch s;
       LatestRandaoMixes := LatestRandaoMixes s;
       CurrentShufflingStartShard := CurrentShufflingStartShard s;
       PreviousJustifiedEpoch := PreviousJustifiedEpoch s;
       JustifiedEpoch := JustifiedEpoch s;
       JustificationBitfield := JustificationBitfield s;
       FinalizedEpoch := v;
       LatestCrosslinks := LatestCrosslinks s;
       LatestBlockRootHash32S := LatestBlockRootHash32S s;
       LatestAttestations := LatestAttestations s;
       LatestEth1Data := LatestEth1Data s;
       Eth1DataVotes := Eth1DataVotes s |}.

Definition with_LatestEth1Data (v : Eth1Data.t) (s : t) : t :=
    {| Slot := Slot s;
       ValidatorBalances := ValidatorBalances s;
       ValidatorRegistryUpdateEpoch := ValidatorRegistryUpdateEpoch s;
       LatestRandaoMixes := LatestRandaoMixes s;
       CurrentShufflingStartShard := CurrentShufflingStartShard s;
       PreviousJustifiedEpoch := PreviousJustifiedEpoch s;
       JustifiedEpoch := JustifiedEpoch s;
       JustificationBitfield := JustificationBitfield s;
       FinalizedEpoch := FinalizedEpoch s;
       LatestCrosslinks := LatestCrosslinks s;
       LatestBlockRootHash32S := LatestBlockRootHash32S s;
       LatestAttestations := LatestAttestations s;
       LatestEth1Data := v;
       Eth1DataVotes := Eth1DataVotes s |}.

Definition with_Eth1DataVotes (v : list Eth1DataVote.t) (s : t) : t :=
    {| Slot := Slot s;
       ValidatorBalances := ValidatorBalances s;
       ValidatorRegistryUpdateEpoch := ValidatorRegistryUpdateEpoch s;
       LatestRandaoMixes := LatestRandaoMixes s;
       CurrentShufflingStartShard := CurrentShufflingStartShard s;
       PreviousJustifiedEpoch := PreviousJustifiedEpoch s;
       JustifiedEpoch := JustifiedEpoch s;
       JustificationBitfield := JustificationBitfield s;
       FinalizedEpoch := FinalizedEpoch s;
       LatestCrosslinks := LatestCrosslinks s;
       LatestBlockRootHash32S := LatestBlockRootHash32S s;
       LatestAttestations := LatestAttestations s;
       LatestEth1Data := LatestEth1Data s;
       Eth1DataVotes := v |}.
End BeaconState.

End pb.

(** * shared/params: the configuration values the embedded functions read

  [params.BeaconConfig()] is not among the embedded files; its fields are
  kept symbolic.  [EpochLength] and [Eth1DataVotingPeriod] are the names
  the earlier revision of the epoch package uses for [SlotsPerEpoch] and
  [EpochsPerEth1VotingPeriod].  The values are used as divisors; with a
  zero divisor the Go code panics, which the embedding does not render: it
  is meant for configurations whose values are positive. *)

Module params.
Record BeaconChainConfig := {
  ShardCount : Z;
  SlotsPerEpoch : Z;
  EpochsPerEth1VotingPeriod : Z;
  EpochLength : Z;
  Eth1DataVotingPeriod : Z
}.
End params.

(** * shared/bytesutil *)

Module bytesutil.

(** Modelled from the spec: [bytesutil.LowerThan], which [winningRoot]
    calls to break ties, is not among the embedded files.  The spec breaks
    ties "by selecting the lexicographically lower root byte string":
    [LowerThan x y] holds when [x] comes strictly before [y] in the
    lexicographic order of byte strings. *)
Fixpoint LowerThan (x y : list byte) : bool :=
  match x, y with
  | _, [] => false
  | [], _ :: _ => true
  | a :: x', b :: y' =>
      if (Byte.to_N a <? Byte.to_N b)%N then true
      else if (Byte.to_N b <? Byte.to_N a)%N then false
      else LowerThan x' y'
  end.

End bytesutil.

(** * beacon-chain/core/epoch: epoch_processing.go and epoch_operations.go

  The state is a Go pointer that every pass mutates and returns; a pass is
  embedded as a function from the contents of the state object before the
  call to its contents after it. *)

Module Epoch.
Import pb.

Section Epoch.

Variable cfg : params.BeaconChainConfig.

(** Packages [helpers], [blocks] and [validators] are not among the
    embedded files; what the epoch package calls from them is kept
    symbolic.  [E] is the type of their errors. *)
Variable E : Type.
Variable CurrentEpoch PrevEpoch NextEpoch : BeaconState.t -> Z.
Variable SlotToEpoch : Z -> Z.
Variable CurrentEpochCommitteeCount : BeaconState.t -> Z.
Variable BlockRoot : BeaconState.t -> Z -> result E (list byte).
Variable AttestingValidatorIndices :
  BeaconState.t -> Z -> list byte ->
  list PendingAttestation.t -> list PendingAttestation.t -> result E (list Z).
Variable EffectiveBalance : BeaconState.t -> Z -> Z.

(** ** epoch_processing.go *)

Definition CanProcessEpoch (state : BeaconState.t) : bool :=
  add64 (BeaconState.Slot state) 1 mod params.SlotsPerEpoch cfg =? 0.

Definition CanProcessEth1Data (state : BeaconState.t) : bool :=
  NextEpoch state mod params.EpochsPerEth1VotingPeriod cfg =? 0.

(** The loop of [CanProcessValidatorRegistry] with [n] iterations left.
    Indexing [LatestCrosslinks] past its end panics: [None]. *)
Fixpoint registryLoop (n : nat) (i : Z) (state : BeaconState.t) : option bool :=
  match n with
  | O => Some true
  | S n' =>
      match BeaconState.LatestCrosslinks state
            !! Z.to_nat (i mod params.ShardCount cfg) with
      | None => None
      | Some crosslink =>
          if Crosslink.Epoch crosslink
             <=? BeaconState.ValidatorRegistryUpdateEpoch state
          then Some false
          else registryLoop n' (i + 1) state
      end
  end.

Definition CanProcessValidatorRegistry (state : BeaconState.t) : option bool :=
  if BeaconState.FinalizedEpoch state
     <=? BeaconState.ValidatorRegistryUpdateEpoch state
  then Some false
  else
    let shardsProcessed :=
      mul64 (CurrentEpochCommitteeCount state) (params.SlotsPerEpoch cfg) in
    let startShard := BeaconState.CurrentShufflingStartShard state in
    registryLoop (Z.to_nat (shardsProcessed - startShard)) startShard state.

(** The body of the loop of [ProcessEth1Data]: the threshold test on one
    vote. *)
Definition eth1VoteWins (eth1DataVote : Eth1DataVote.t) : bool :=
  mul64 (Eth1DataVote.VoteCount eth1DataVote) 2
  >? mul64 (params.SlotsPerEpoch cfg) (params.EpochsPerEth1VotingPeriod cfg).

Definition ProcessEth1Data (state : BeaconState.t) : BeaconState.t :=
  let state :=
    fold_left
      (fun state eth1DataVote =>
         if eth1VoteWins eth1DataVote
         then BeaconState.with_LatestEth1Data
                (Eth1DataVote.Eth1Data eth1DataVote) state
         else state)
      (BeaconState.Eth1DataVotes state) state in
  BeaconState.with_Eth1DataVotes [] state.

Definition ProcessJustification (state : BeaconState.t)
  (thisEpochBoundaryAttestingBalance prevEpochBoundaryAttestingBalance
     prevTotalBalance totalBalance : Z) : BeaconState.t :=
  let newJustifiedEpoch := BeaconState.JustifiedEpoch state in
  let prevEpoch := PrevEpoch state in
  let currentEpoch := CurrentEpoch state in
  let state :=
    BeaconState.with_JustificationBitfield
      (shl64 (BeaconState.JustificationBitfield state) 1) state in
  let '(state, newJustifiedEpoch) :=
    if mul64 3 prevEpochBoundaryAttestingBalance >=? mul64 2 prevTotalBalance
    then (BeaconState.with_JustificationBitfield
            (Z.lor (BeaconState.JustificationBitfield state) 2) state,
          prevEpoch)
    else (state, newJustifiedEpoch) in
  let '(state, newJustifiedEpoch) :=
    if mul64 3 thisEpochBoundaryAttestingBalance >=? mul64 2 totalBalance
    then (BeaconState.with_JustificationBitfield
            (Z.lor (BeaconState.JustificationBitfield state) 1) state,
          currentEpoch)
    else (state, newJustifiedEpoch) in
  let state :=
    if (BeaconState.PreviousJustifiedEpoch state =? sub64 prevEpoch 2)
       && (Z.shiftr (BeaconState.JustificationBitfield state) 1 mod 8 =? 7)
    then BeaconState.with_FinalizedEpoch
           (BeaconState.PreviousJustifiedEpoch state) state
    else state in
  let state :=
    if (BeaconState.PreviousJustifiedEpoch state =? sub64 prevEpoch 1)
       && (Z.shiftr (BeaconState.JustificationBitfield state) 1 mod 4 =? 3)
    then BeaconState.with_FinalizedEpoch
           (BeaconState.PreviousJustifiedEpoch state) state
    else state in
  let state :=
    if (BeaconState.JustifiedEpoch state =? sub64 prevEpoch 1)
       && (Z.shiftr (BeaconState.JustificationBitfield state) 0 mod 8 =? 7)
    then BeaconState.with_FinalizedEpoch
           (BeaconState.JustifiedEpoch state) state
    else state in
  let state :=
    if (BeaconState.JustifiedEpoch state =? prevEpoch)
       && (Z.shiftr (BeaconState.JustificationBitfield state) 0 mod 4 =? 3)
    then BeaconState.with_FinalizedEpoch
           (BeaconState.JustifiedEpoch state) state
    else state in
  let state :=
    BeaconState.with_PreviousJustifiedEpoch
      (BeaconState.JustifiedEpoch state) state in
  BeaconState.with_JustifiedEpoch newJustifiedEpoch state.

(** ** epoch_operations.go *)

Definition CurrentAttestations (state : BeaconState.t)
  : list PendingAttestation.t :=
  let currentEpoch := CurrentEpoch state in
  List.filter
    (fun attestation =>
       currentEpoch
       =? SlotToEpoch (AttestationData.Slot (PendingAttestation.Data attestation)))
    (BeaconState.LatestAttestations state).

(** The loop of [CurrentBoundaryAttestations]; [boundaryAttestations] is
    the slice built so far. *)
Fixpoint boundaryLoop (state : BeaconState.t) (boundarySlot : Z)
  (attestations boundaryAttestations : list PendingAttestation.t)
  : result E (list PendingAttestation.t) :=
  match attestations with
  | [] => Ok boundaryAttestations
  | attestation :: rest =>
      boundaryBlockRoot ← BlockRoot state boundarySlot;
      let attestationData := PendingAttestation.Data attestation in
      let sameRoot :=
        bool_decide
          (AttestationData.JustifiedBlockRootHash32 attestationData
           = boundaryBlockRoot) in
      let sameEpoch :=
        AttestationData.JustifiedEpoch (PendingAttestation.Data attestation)
        =? BeaconState.JustifiedEpoch state in
      boundaryLoop state boundarySlot rest
        (if sameRoot && sameEpoch
         then boundaryAttestations ++ [attestation]
         else boundaryAttestations)
  end.

(** [var boundarySlot uint64] is declared and never assigned. *)
Definition CurrentBoundaryAttestations (state : BeaconState.t)
  (currentEpochAttestations : list PendingAttestation.t)
  : result E (list PendingAttestation.t) :=
  let boundarySlot := 0 in
  boundaryLoop state boundarySlot currentEpochAttestations [].

Definition TotalBalance (state : BeaconState.t)
  (activeValidatorIndices : list Z) : Z :=
  fold_left
    (fun totalBalance index => add64 totalBalance (EffectiveBalance state index))
    activeValidatorIndices 0.

(** The second loop of [winningRoot]. *)
Fixpoint winnerLoop (state : BeaconState.t) (shard : Z)
  (currentEpochAttestations prevEpochAttestations : list PendingAttestation.t)
  (candidateRoots : list (list byte)) (winnerBalance : Z)
  (winnerRoot : list byte) : result E (list byte) :=
  match candidateRoots with
  | [] => Ok winnerRoot
  | candidateRoot :: rest =>
      indices ← AttestingValidatorIndices state shard candidateRoot
                  currentEpochAttestations prevEpochAttestations;
      let rootBalance :=
        fold_left
          (fun rootBalance index =>
             add64 rootBalance (EffectiveBalance state index))
          indices 0 in
      if (rootBalance >? winnerBalance)
         || ((rootBalance =? winnerBalance)
             && bytesutil.LowerThan candidateRoot winnerRoot)
      then winnerLoop state shard currentEpochAttestations
             prevEpochAttestations rest rootBalance candidateRoot
      else winnerLoop state shard currentEpochAttestations
             prevEpochAttestations rest winnerBalance winnerRoot
  end.

(** The first loop of [winningRoot]. *)
Definition candidateRootsOf (shard : Z)
  (attestations : list PendingAttestation.t) : list (list byte) :=
  map (fun attestation =>
         AttestationData.ShardBlockRootHash32
           (PendingAttestation.Data attestation))
    (List.filter
       (fun attestation =>
          AttestationData.Shard (PendingAttestation.Data attestation)
          =? shard)
       attestations).

Definition winningRoot (state : BeaconState.t) (shard : Z)
  (currentEpochAttestations prevEpochAttestations : list PendingAttestation.t)
  : result E (list byte) :=
  let attestations := currentEpochAttestations ++ prevEpochAttestations in
  let candidateRoots := candidateRootsOf shard attestations in
  winnerLoop state shard currentEpochAttestations prevEpochAttestations
    candidateRoots 0 [].

End Epoch.

Arguments boundaryLoop {E}.
Arguments CurrentBoundaryAttestations {E}.
Arguments winnerLoop {E}.
Arguments winningRoot {E}.

End Epoch.

(** * beacon-chain/core/epoch, earlier revision (src/unnamed/part_005)

  The same package before the move from [EpochLength] to [SlotsPerEpoch]:
  the epoch pass is tried after the slot counter has been advanced, the
  justification and the finalization are two passes, and the state field
  [CurrentShufflingStartShard] is still called [CurrentEpochStartShard]. *)

Module EpochEarly.
Import pb.

Section EpochEarly.

Variable cfg : params.BeaconChainConfig.
Variable CurrentEpoch NextEpoch : BeaconState.t -> Z.
Variable CurrentEpochCommitteeCount : BeaconState.t -> Z.

Local Abbreviation CurrentEpochStartShard := BeaconState.CurrentShufflingStartShard.

Definition CanProcessEpoch (state : BeaconState.t) : bool :=
  BeaconState.Slot state mod params.EpochLength cfg =? 0.

Definition CanProcessEth1Data (state : BeaconState.t) : bool :=
  NextEpoch state mod params.Eth1DataVotingPeriod cfg =? 0.

Fixpoint registryLoop (n : nat) (i : Z) (state : BeaconState.t) : option bool :=
  match n with
  | O => Some true
  | S n' =>
      match BeaconState.LatestCrosslinks state
            !! Z.to_nat (i mod params.ShardCount cfg) with
      | None => None
      | Some crosslink =>
          if Crosslink.Epoch crosslink
             <=? BeaconState.ValidatorRegistryUpdateEpoch state
          then Some false
          else registryLoop n' (i + 1) state
      end
  end.

Definition CanProcessValidatorRegistry (state : BeaconState.t) : option bool :=
  if BeaconState.FinalizedEpoch state
     <=? BeaconState.ValidatorRegistryUpdateEpoch state
  then Some false
  else
    let shardsProcessed :=
      mul64 (CurrentEpochCommitteeCount state) (params.EpochLength cfg) in
    let startShard := CurrentEpochStartShard state in
    registryLoop (Z.to_nat (shardsProcessed - startShard)) startShard state.

Definition ProcessEth1Data (state : BeaconState.t) : BeaconState.t :=
  if NextEpoch state mod params.Eth1DataVotingPeriod cfg =? 0 then
    let state :=
      fold_left
        (fun state eth1DataVote =>
           if mul64 (Eth1DataVote.VoteCount eth1DataVote) 2
              >? params.Eth1DataVotingPeriod cfg
           then
             BeaconState.with_LatestEth1Data
               {| Eth1Data.DepositRootHash32 :=
                    Eth1Data.DepositRootHash32
                      (Eth1DataVote.Eth1Data eth1DataVote);
                  Eth1Data.BlockHash32 :=
                    Eth1Data.BlockHash32
                      (Eth1DataVote.Eth1Data eth1DataVote) |}
               state
           else state)
        (BeaconState.Eth1DataVotes state) state in
    BeaconState.with_Eth1DataVotes [] state
  else state.

Definition ProcessJustification (state : BeaconState.t)
  (thisEpochBoundaryAttestingBalance prevEpochBoundaryAttestingBalance
     totalBalance : Z) : BeaconState.t :=
  let state :=
    BeaconState.with_PreviousJustifiedEpoch
      (BeaconState.JustifiedEpoch state) state in
  let state :=
    BeaconState.with_JustificationBitfield
      (mul64 (BeaconState.JustificationBitfield state) 2) state in
  let state :=
    if mul64 3 prevEpochBoundaryAttestingBalance >=? mul64 2 totalBalance
    then
      let state :=
        BeaconState.with_JustificationBitfield
          (Z.lor (BeaconState.JustificationBitfield state) 2) state in
      BeaconState.with_JustifiedEpoch (sub64 (CurrentEpoch state) 2) state
    else state in
  if mul64 3 thisEpochBoundaryAttestingBalance >=? mul64 2 totalBalance
  then
    let state :=
      BeaconState.with_JustificationBitfield
        (Z.lor (BeaconState.JustificationBitfield state) 1) state in
    BeaconState.with_JustifiedEpoch (sub64 (CurrentEpoch state) 1) state
  else state.

Definition ProcessFinalization (state : BeaconState.t) : BeaconState.t :=
  if (BeaconState.PreviousJustifiedEpoch state =? sub64 (CurrentEpoch state) 2)
     && (BeaconState.JustificationBitfield state mod 4 =? 3)
  then BeaconState.with_FinalizedEpoch (BeaconState.JustifiedEpoch state) state
  else
  if (BeaconState.PreviousJustifiedEpoch state =? sub64 (CurrentEpoch state) 3)
     && (BeaconState.JustificationBitfield state mod 8 =? 7)
  then BeaconState.with_FinalizedEpoch (BeaconState.JustifiedEpoch state) state
  else
  if (BeaconState.PreviousJustifiedEpoch state =? sub64 (CurrentEpoch state) 4)
     && ((BeaconState.JustificationBitfield state mod 16 =? 15)
         || (BeaconState.JustificationBitfield state mod 16 =? 14))
  then BeaconState.with_FinalizedEpoch (BeaconState.JustifiedEpoch state) state
  else state.

End EpochEarly.
End EpochEarly.

(** * beacon-chain/core/state: the state transition (src/unnamed/part_005) *)

Module State.
Import pb.

(** The passes of package [blocks], which is not among the embedded
    files.  Like every pass whose source is embedded, each is taken to work
    on the state object it is handed: it yields the contents of that object
    after the call and, where the Go function returns an error, the error
    if there is one (the returned pointer is then nil). *)
Record BlockOperations (E : Type) := {
  ProcessBlockRoots : BeaconState.t -> list byte -> BeaconState.t;
  VerifyProposerSignature : BeaconBlock.t -> option E;
  ProcessBlockRandao :
    BeaconState.t -> BeaconBlock.t -> BeaconState.t * option E;
  ProcessProposerSlashings :
    BeaconState.t -> BeaconBlock.t -> bool -> BeaconState.t * option E;
  ProcessEth1Data : BeaconState.t -> BeaconBlock.t -> BeaconState.t;
  ProcessAttesterSlashings :
    BeaconState.t -> BeaconBlock.t -> bool -> BeaconState.t * option E;
  ProcessBlockAttestations :
    BeaconState.t -> BeaconBlock.t -> bool -> BeaconState.t * option E;
  ProcessValidatorDeposits :
    BeaconState.t -> BeaconBlock.t -> BeaconState.t * option E;
  ProcessValidatorExits :
    BeaconState.t -> BeaconBlock.t -> bool -> BeaconState.t * option E
}.
Arguments ProcessBlockRoots {E}.
Arguments VerifyProposerSignature {E}.
Arguments ProcessBlockRandao {E}.
Arguments ProcessProposerSlashings {E}.
Arguments ProcessEth1Data {E}.
Arguments ProcessAttesterSlashings {E}.
Arguments ProcessBlockAttestations {E}.
Arguments ProcessValidatorDeposits {E}.
Arguments ProcessValidatorExits {E}.

(** The errors [ProcessBlock] builds with [fmt.Errorf], one constructor
    per message. *)
Inductive BlockError (E : Type) : Type :=
| SlotMismatch (blockSlot stateSlot : Z)
| CouldNotVerifyProposerSignature (err : E)
| CouldNotProcessBlockRandao (err : E)
| CouldNotVerifyProposerSlashings (err : E)
| CouldNotVerifyAttesterSlashings (err : E)
| CouldNotProcessBlockAttestations (err : E)
| CouldNotProcessValidatorDeposits (err : E)
| CouldNotProcessValidatorExits (err : E).
Arguments SlotMismatch {E}.
Arguments CouldNotVerifyProposerSignature {E}.
Arguments CouldNotProcessBlockRandao {E}.
Arguments CouldNotVerifyProposerSlashings {E}.
Arguments CouldNotVerifyAttesterSlashings {E}.
Arguments CouldNotProcessBlockAttestations {E}.
Arguments CouldNotProcessValidatorDeposits {E}.
Arguments CouldNotProcessValidatorExits {E}.

Inductive TransitionError (E : Type) : Type :=
| UnableToProcessBlock (err : BlockError E)
| UnableToProcessEpoch (err : E).
Arguments UnableToProcessBlock {E}.
Arguments UnableToProcessEpoch {E}.

(** The calls of [ExecuteStateTransition] that an outcome records. *)
Inductive Call := CallProcessBlock | CallProcessEpoch.

(** What the caller of a function that takes a pointer to the state and
    returns a pointer to a state and an error holds after the call: the contents of the state object it passed in, the returned
    pointer ([None] for nil, otherwise the contents of the object it points
    to), the returned error ([None] for nil), and the calls made. *)
Record outcome (Err : Type) := {
  object : BeaconState.t;
  returned : option BeaconState.t;
  failure : option Err;
  calls : list Call
}.
Arguments object {Err}.
Arguments returned {Err}.
Arguments failure {Err}.
Arguments calls {Err}.

Definition succeed {Err} (state : BeaconState.t) (cs : list Call)
  : outcome Err :=
  {| object := state; returned := Some state; failure := None; calls := cs |}.

Definition fail {Err} (state : BeaconState.t) (err : Err) (cs : list Call)
  : outcome Err :=
  {| object := state; returned := None; failure := Some err; calls := cs |}.

Section State.

Variable cfg : params.BeaconChainConfig.
Variable E : Type.
Variable ops : BlockOperations E.

(** [ProcessEpoch] chains the passes of packages [epoch], [balances] and
    [validators]; the last two are not among the embedded files, and the
    properties of the transition below only ask whether the pass is run. *)
Variable ProcessEpoch : BeaconState.t -> BeaconState.t * option E.

(** One step [state, err = f(...); if err != nil { return nil, ... }]. *)
Definition step (wrap : E -> BlockError E)
  (r : BeaconState.t * option E)
  (k : BeaconState.t -> outcome (BlockError E)) : outcome (BlockError E) :=
  match r with
  | (state, Some err) => fail state (wrap err) []
  | (state, None) => k state
  end.

Definition ProcessBlock (state : BeaconState.t) (block : BeaconBlock.t)
  (verifySignatures : bool) : outcome (BlockError E) :=
  if negb (BeaconBlock.Slot block =? BeaconState.Slot state) then
    fail state
      (SlotMismatch (BeaconBlock.Slot block) (BeaconState.Slot state)) []
  else
    match (if verifySignatures then VerifyProposerSignature ops block
           else None) with
    | Some err => fail state (CouldNotVerifyProposerSignature err) []
    | None =>
      step CouldNotProcessBlockRandao
        (ProcessBlockRandao ops state block) (fun state =>
      step CouldNotVerifyProposerSlashings
        (ProcessProposerSlashings ops state block verifySignatures) (fun state =>
      let state := ProcessEth1Data ops state block in
      step CouldNotVerifyAttesterSlashings
        (ProcessAttesterSlashings ops state block verifySignatures) (fun state =>
      step CouldNotProcessBlockAttestations
        (ProcessBlockAttestations ops state block verifySignatures) (fun state =>
      step CouldNotProcessValidatorDeposits
        (ProcessValidatorDeposits ops state block) (fun state =>
      step CouldNotProcessValidatorExits
        (ProcessValidatorExits ops state block verifySignatures) (fun state =>
      succeed state []))))))
    end.

(** [block] is a pointer: [None] stands for nil, a slot without a block. *)
Definition ExecuteStateTransition (beaconState : BeaconState.t)
  (block : option BeaconBlock.t) (prevBlockRoot : list byte)
  (verifySignatures : bool) : outcome (TransitionError E) :=
  let currentSlot := BeaconState.Slot beaconState in
  let beaconState := BeaconState.with_Slot (add64 currentSlot 1) beaconState in
  let beaconState := ProcessBlockRoots ops beaconState prevBlockRoot in
  match block with
  | Some block =>
      let r := ProcessBlock beaconState block verifySignatures in
      match failure r with
      | Some err =>
          fail (object r) (UnableToProcessBlock err) [CallProcessBlock]
      | None =>
          let beaconState := object r in
          if EpochEarly.CanProcessEpoch cfg beaconState then
            match ProcessEpoch beaconState with
            | (beaconState, Some err) =>
                fail beaconState (UnableToProcessEpoch err)
                  [CallProcessBlock; CallProcessEpoch]
            | (beaconState, None) =>
                succeed beaconState [CallProcessBlock; CallProcessEpoch]
            end
          else succeed beaconState [CallProcessBlock]
      end
  | None => succeed beaconState []
  end.

End State.

Arguments step {E}.
Arguments ProcessBlock {E}.
Arguments ExecuteStateTransition cfg {E}.

End State.

(** * Collaborators modelled for concrete runs *)

Module helpers.
Import pb.

(** Modelled from the spec: package [helpers] is not among the embedded
    files, only its tests are (src/unnamed/part_004).  An epoch is "a
    fixed-length run of consecutive slots"; the tests fix the slot-to-epoch
    conversion as a division by the epoch length, the previous epoch of
    epoch 0 as 0, and the start slot of an epoch as a multiplication. *)
Definition SlotToEpoch (slotsPerEpoch slot : Z) : Z := slot / slotsPerEpoch.

Definition CurrentEpoch (slotsPerEpoch : Z) (state : BeaconState.t) : Z :=
  SlotToEpoch slotsPerEpoch (BeaconState.Slot state).

Definition PrevEpoch (slotsPerEpoch : Z) (state : BeaconState.t) : Z :=
  if CurrentEpoch slotsPerEpoch state =? 0 then 0
  else sub64 (CurrentEpoch slotsPerEpoch state) 1.

Definition NextEpoch (slotsPerEpoch : Z) (state : BeaconState.t) : Z :=
  add64 (CurrentEpoch slotsPerEpoch state) 1.

Definition StartSlot (slotsPerEpoch epoch : Z) : Z :=
  mul64 epoch slotsPerEpoch.

End helpers.

Module blocks.
Import pb.

(** Modelled from the spec: [blocks.BlockRoot] is not among the embedded
    files.  The spec has it as the "historical root lookup" that "fails
    with NotFound if the slot is outside the retained block-root window";
    the window is rendered by the list [LatestBlockRootHash32S], entry [i]
    holding the root of slot [i]. *)
Inductive Error := NotFound.

Definition BlockRoot (state : BeaconState.t) (slot : Z)
  : result Error (list byte) :=
  match BeaconState.LatestBlockRootHash32S state !! Z.to_nat slot with
  | Some root => Ok root
  | None => Err NotFound
  end.

End blocks.

(** * Notions used to state the properties *)

Module Notions.
Import pb.

(** A configuration with the slot, shard and voting-period counts of the
    protocol's main network. *)
Definition mainnet : params.BeaconChainConfig :=
  {| params.ShardCount := 1024;
     params.SlotsPerEpoch := 64;
     params.EpochsPerEth1VotingPeriod := 16;
     params.EpochLength := 64;
     params.Eth1DataVotingPeriod := 16 |}.

Definition emptyEth1Data : Eth1Data.t :=
  {| Eth1Data.DepositRootHash32 := []; Eth1Data.BlockHash32 := [] |}.

(** The state with every counter at zero and every list empty. *)
Definition emptyState : BeaconState.t :=
  {| BeaconState.Slot := 0;
     BeaconState.ValidatorBalances := [];
     BeaconState.ValidatorRegistryUpdateEpoch := 0;
     BeaconState.LatestRandaoMixes := [];
     BeaconState.CurrentShufflingStartShard := 0;
     BeaconState.PreviousJustifiedEpoch := 0;
     BeaconState.JustifiedEpoch := 0;
     BeaconState.JustificationBitfield := 0;
     BeaconState.FinalizedEpoch := 0;
     BeaconState.LatestCrosslinks := [];
     BeaconState.LatestBlockRootHash32S := [];
     BeaconState.LatestAttestations := [];
     BeaconState.LatestEth1Data := emptyEth1Data;
     BeaconState.Eth1DataVotes := [] |}.

(** A state at the given slot with the given finality bookkeeping. *)
Definition finalityState (slot previousJustified justified bitfield
  finalized : Z) : BeaconState.t :=
  BeaconState.with_Slot slot
    (BeaconState.with_PreviousJustifiedEpoch previousJustified
       (BeaconState.with_JustifiedEpoch justified
          (BeaconState.with_JustificationBitfield bitfield
             (BeaconState.with_FinalizedEpoch finalized emptyState)))).

(** A state with the given registry bookkeeping and crosslinks. *)
Definition registryState (finalized registryUpdate startShard : Z)
  (crosslinks : list Crosslink.t) : BeaconState.t :=
  {| BeaconState.Slot := 0;
     BeaconState.ValidatorBalances := [];
     BeaconState.ValidatorRegistryUpdateEpoch := registryUpdate;
     BeaconState.LatestRandaoMixes := [];
     BeaconState.CurrentShufflingStartShard := startShard;
     BeaconState.PreviousJustifiedEpoch := 0;
     BeaconState.JustifiedEpoch := 0;
     BeaconState.JustificationBitfield := 0;
     BeaconState.FinalizedEpoch := finalized;
     BeaconState.LatestCrosslinks := crosslinks;
     BeaconState.LatestBlockRootHash32S := [];
     BeaconState.LatestAttestations := [];
     BeaconState.LatestEth1Data := emptyEth1Data;
     BeaconState.Eth1DataVotes := [] |}.

(** A crosslink of epoch 0 for every one of 1024 shards. *)
Definition staleCrosslinks : list Crosslink.t :=
  replicate 1024
    {| Crosslink.Epoch := 0; Crosslink.CrosslinkDataRootHash32 := [] |}.

(** A state at the given slot that retains the given block roots, the
    root of slot [i] at position [i]. *)
Definition rootsState (slot : Z) (roots : list (list byte)) : BeaconState.t :=
  {| BeaconState.Slot := slot;
     BeaconState.ValidatorBalances := [];
     BeaconState.ValidatorRegistryUpdateEpoch := 0;
     BeaconState.LatestRandaoMixes := [];
     BeaconState.CurrentShufflingStartShard := 0;
     BeaconState.PreviousJustifiedEpoch := 0;
     BeaconState.JustifiedEpoch := 0;
     BeaconState.JustificationBitfield := 0;
     BeaconState.FinalizedEpoch := 0;
     BeaconState.LatestCrosslinks := [];
     BeaconState.LatestBlockRootHash32S := roots;
     BeaconState.LatestAttestations := [];
     BeaconState.LatestEth1Data := emptyEth1Data;
     BeaconState.Eth1DataVotes := [] |}.

(** An attestation of the given slot and shard with the given roots,
    justified epoch 0. *)
Definition attestation (slot shard : Z)
  (epochBoundaryRoot justifiedBlockRoot shardBlockRoot : list byte)
  : PendingAttestation.t :=
  {| PendingAttestation.Data :=
       {| AttestationData.Slot := slot;
          AttestationData.Shard := shard;
          AttestationData.BeaconBlockRootHash32 := [];
          AttestationData.EpochBoundaryRootHash32 := epochBoundaryRoot;
          AttestationData.ShardBlockRootHash32 := shardBlockRoot;
          AttestationData.JustifiedEpoch := 0;
          AttestationData.JustifiedBlockRootHash32 := justifiedBlockRoot |};
     PendingAttestation.AggregationBitfield := [];
     PendingAttestation.CustodyBitfield := [];
     PendingAttestation.InclusionSlot := slot + 1 |}.

(** The attesting balance [winningRoot] computes for a candidate root:
    the effective balances of its attesting validators, added up on
    [uint64]. *)
Definition attestingBalance {E : Type}
  (AttestingValidatorIndices :
     BeaconState.t -> Z -> list byte ->
     list PendingAttestation.t -> list PendingAttestation.t ->
     result E (list Z))
  (EffectiveBalance : BeaconState.t -> Z -> Z)
  (state : BeaconState.t) (shard : Z)
  (currentEpochAttestations prevEpochAttestations : list PendingAttestation.t)
  (root : list byte) : result E Z :=
  indices ← AttestingValidatorIndices state shard root
              currentEpochAttestations prevEpochAttestations;
  Ok (fold_left
        (fun rootBalance index =>
           add64 rootBalance (EffectiveBalance state index))
        indices 0).

(** One iteration of the second loop of [winningRoot] on the pair
    [(winnerBalance, winnerRoot)], [B] giving the attesting balance of
    every root. *)
Definition pickStep (B : list byte -> Z) (winner : Z * list byte) (candidateRoot : list byte)
  : Z * list byte :=
  if (B candidateRoot >? fst winner)
     || ((B candidateRoot =? fst winner)
         && bytesutil.LowerThan candidateRoot (snd winner))
  then (B candidateRoot, candidateRoot)
  else winner.

(** What the loop has established after the candidates [seen]: either no
    candidate had a positive balance and the winner is still the nil root
    with balance 0, or the winner is the lexicographically lowest of the
    candidates of highest balance. *)
Definition picked (B : list byte -> Z) (seen : list (list byte)) (winner : Z * list byte) : Prop :=
  (fst winner = 0 /\ snd winner = [] /\ forall c, In c seen -> B c = 0)
  \/ (0 < fst winner /\ In (snd winner) seen /\ B (snd winner) = fst winner
      /\ forall c, In c seen ->
           B c <= fst winner
           /\ (B c = fst winner ->
               bytesutil.LowerThan c (snd winner) = false)).

(** The winner among candidates of which one has a positive balance. *)
Definition isWinner (B : list byte -> Z) (candidates : list (list byte)) (r : list byte) : Prop :=
  In r candidates
  /\ (forall c, In c candidates -> B c <= B r)
  /\ (forall c, In c candidates -> B c = B r -> c <> r ->
        bytesutil.LowerThan r c = true).

(** Block operations for concrete runs: the proposer signature is always
    rejected and no pass writes to the state. *)
Definition rejectingOps : State.BlockOperations unit :=
  {| State.ProcessBlockRoots := fun state _ => state;
     State.VerifyProposerSignature := fun _ => Some tt;
     State.ProcessBlockRandao := fun state _ => (state, None);
     State.ProcessProposerSlashings := fun state _ _ => (state, None);
     State.ProcessEth1Data := fun state _ => state;
     State.ProcessAttesterSlashings := fun state _ _ => (state, None);
     State.ProcessBlockAttestations := fun state _ _ => (state, None);
     State.ProcessValidatorDeposits := fun state _ => (state, None);
     State.ProcessValidatorExits := fun state _ _ => (state, None) |}.

(** An epoch pass for concrete runs that leaves the state alone. *)
Definition idleEpoch (state : BeaconState.t) : BeaconState.t * option unit :=
  (state, None).

(** A block for the given slot. *)
Definition blockAt (slot : Z) : BeaconBlock.t :=
  {| BeaconBlock.Slot := slot;
     BeaconBlock.RandaoReveal := [];
     BeaconBlock.Eth1Data := emptyEth1Data;
     BeaconBlock.Signature := [] |}.


(** The last vote of the list, in list order, that meets the threshold of
    [ProcessEth1Data]. *)
Definition lastWinner (cfg : params.BeaconChainConfig)
  (votes : list Eth1DataVote.t) : option Eth1DataVote.t :=
  List.find (Epoch.eth1VoteWins cfg) (rev votes).

(** Hashing upwards [n] times with the zero array as right sibling, and
    with the zero array as left sibling. *)
Definition hashUpLeft (Hash : list byte -> list byte) (n : nat)
  (v : list byte) : list byte :=
  Nat.iter n (fun v => Hash (v ++ zeroHash)) v.


End Notions.
(** * beacon-chain/core/epoch: the rest of epoch_operations.go, and the
  attestation clean-up and the crosslink pass of epoch_processing.go

  [ProcessCrosslinks] and [CleanupAttestations] take a tracing context,
  which no result depends on and which is left out; the functions of
  epoch_operations.go are called as that file has them. *)

Module EpochOperations.
Import pb.

(** [helpers.CrosslinkCommittee], as far as the epoch package reads it. *)
Module CrosslinkCommittee.
Record t := {
    Committee : list Z;
    Shard : Z
  }.
End CrosslinkCommittee.

(** Assignments to two more fields of the state object. *)
Definition with_LatestAttestations (v : list PendingAttestation.t)
  (s : BeaconState.t) : BeaconState.t :=
  {| BeaconState.Slot := BeaconState.Slot s;
     BeaconState.ValidatorBalances := BeaconState.ValidatorBalances s;
     BeaconState.ValidatorRegistryUpdateEpoch :=
       BeaconState.ValidatorRegistryUpdateEpoch s;
     BeaconState.LatestRandaoMixes := BeaconState.LatestRandaoMixes s;
     BeaconState.CurrentShufflingStartShard :=
       BeaconState.CurrentShufflingStartShard s;
     BeaconState.PreviousJustifiedEpoch := BeaconState.PreviousJustifiedEpoch s;
     BeaconState.JustifiedEpoch := BeaconState.JustifiedEpoch s;
     BeaconState.JustificationBitfield := BeaconState.JustificationBitfield s;
     BeaconState.FinalizedEpoch := BeaconState.FinalizedEpoch s;
     BeaconState.LatestCrosslinks := BeaconState.LatestCrosslinks s;
     BeaconState.LatestBlockRootHash32S := BeaconState.LatestBlockRootHash32S s;
     BeaconState.LatestAttestations := v;
     BeaconState.LatestEth1Data := BeaconState.LatestEth1Data s;
     BeaconState.Eth1DataVotes := BeaconState.Eth1DataVotes s |}.

Definition with_LatestCrosslinks (v : list Crosslink.t)
  (s : BeaconState.t) : BeaconState.t :=
  {| BeaconState.Slot := BeaconState.Slot s;
     BeaconState.ValidatorBalances := BeaconState.ValidatorBalances s;
     BeaconState.ValidatorRegistryUpdateEpoch :=
       BeaconState.ValidatorRegistryUpdateEpoch s;
     BeaconState.LatestRandaoMixes := BeaconState.LatestRandaoMixes s;
     BeaconState.CurrentShufflingStartShard :=
       BeaconState.CurrentShufflingStartShard s;
     BeaconState.PreviousJustifiedEpoch := BeaconState.PreviousJustifiedEpoch s;
     BeaconState.JustifiedEpoch := BeaconState.JustifiedEpoch s;
     BeaconState.JustificationBitfield := BeaconState.JustificationBitfield s;
     BeaconState.FinalizedEpoch := BeaconState.FinalizedEpoch s;
     BeaconState.LatestCrosslinks := v;
     BeaconState.LatestBlockRootHash32S := BeaconState.LatestBlockRootHash32S s;
     BeaconState.LatestAttestations := BeaconState.LatestAttestations s;
     BeaconState.LatestEth1Data := BeaconState.LatestEth1Data s;
     BeaconState.Eth1DataVotes := BeaconState.Eth1DataVotes s |}.

(** [math.MaxUint64]. *)
Definition MaxUint64 : Z := modulus64 - 1.

(** The errors these functions build with [fmt.Errorf], one constructor
    per message; [E] is the type of the errors of the packages called.
    (The error for the committees of a slot prints the slot as an offset
    from the genesis slot.) *)
Inductive Error (E : Type) : Type :=
| CouldNotGetAttestationParticipants (err : E)
| CouldNotFindInclusionSlot (validatorIndex : Z)
| CouldNotFindInclusionDistance (validatorIndex : Z)
| CouldNotGetWinningRoot (err : E)
| CouldNotGetAttestingValidatorIndices (err : E)
| CouldNotGetAttestingValidators (err : Error E)
| CouldNotGetCommittees (slot : Z) (err : E)
| CouldNotGetAttestingBalance (shard : Z) (err : Error E).
Arguments CouldNotGetAttestationParticipants {E}.
Arguments CouldNotFindInclusionSlot {E}.
Arguments CouldNotFindInclusionDistance {E}.
Arguments CouldNotGetWinningRoot {E}.
Arguments CouldNotGetAttestingValidatorIndices {E}.
Arguments CouldNotGetAttestingValidators {E}.
Arguments CouldNotGetCommittees {E}.
Arguments CouldNotGetAttestingBalance {E}.

Section EpochOperations.

Variable E : Type.
Variable CurrentEpoch PrevEpoch NextEpoch : BeaconState.t -> Z.
Variable SlotToEpoch StartSlot : Z -> Z.
Variable BlockRoot : BeaconState.t -> Z -> result E (list byte).
Variable AttestationParticipants :
  BeaconState.t -> AttestationData.t -> list byte -> result E (list Z).
Variable CrosslinkCommitteesAtSlot :
  BeaconState.t -> Z -> bool -> result E (list CrosslinkCommittee.t).
Variable AttestingValidatorIndices :
  BeaconState.t -> Z -> list byte ->
  list PendingAttestation.t -> list PendingAttestation.t -> result E (list Z).
Variable EffectiveBalance : BeaconState.t -> Z -> Z.

(** ** epoch_operations.go *)

Definition PrevAttestations (state : BeaconState.t)
  : list PendingAttestation.t :=
  let prevEpoch := PrevEpoch state in
  List.filter
    (fun attestation =>
       prevEpoch
       =? SlotToEpoch (AttestationData.Slot (PendingAttestation.Data attestation)))
    (BeaconState.LatestAttestations state).

Definition PrevJustifiedAttestations (state : BeaconState.t)
  (currentEpochAttestations prevEpochAttestations : list PendingAttestation.t)
  : list PendingAttestation.t :=
  let epochAttestations := currentEpochAttestations ++ prevEpochAttestations in
  List.filter
    (fun attestation =>
       AttestationData.JustifiedEpoch (PendingAttestation.Data attestation)
       =? BeaconState.PreviousJustifiedEpoch state)
    epochAttestations.

Definition PrevBoundaryAttestations (state : BeaconState.t)
  (prevEpochJustifiedAttestations : list PendingAttestation.t)
  : result E (list PendingAttestation.t) :=
  prevBoundaryBlockRoot ← BlockRoot state (StartSlot (PrevEpoch state));
  Ok (List.filter
        (fun attestation =>
           bool_decide
             (AttestationData.EpochBoundaryRootHash32
                (PendingAttestation.Data attestation)
              = prevBoundaryBlockRoot))
        prevEpochJustifiedAttestations).

(** The loop of [PrevHeadAttestations]; [headAttestations] is the slice
    built so far. *)
Fixpoint headLoop (state : BeaconState.t)
  (attestations headAttestations : list PendingAttestation.t)
  : result E (list PendingAttestation.t) :=
  match attestations with
  | [] => Ok headAttestations
  | attestation :: rest =>
      canonicalBlockRoot ←
        BlockRoot state
          (AttestationData.Slot (PendingAttestation.Data attestation));
      let attestationData := PendingAttestation.Data attestation in
      headLoop state rest
        (if bool_decide
              (AttestationData.BeaconBlockRootHash32 attestationData
               = canonicalBlockRoot)
         then headAttestations ++ [attestation]
         else headAttestations)
  end.

Definition PrevHeadAttestations (state : BeaconState.t)
  (prevEpochAttestations : list PendingAttestation.t)
  : result E (list PendingAttestation.t) :=
  headLoop state prevEpochAttestations [].

(** The inner loop of [InclusionSlot], over the participants of one
    attestation. *)
Definition lowestAmong (validatorIndex : Z)
  (attestation : PendingAttestation.t) (participatedValidators : list Z)
  (lowestSlotIncluded : Z) : Z :=
  fold_left
    (fun lowestSlotIncluded index =>
       if index =? validatorIndex then
         if PendingAttestation.InclusionSlot attestation <? lowestSlotIncluded
         then PendingAttestation.InclusionSlot attestation
         else lowestSlotIncluded
       else lowestSlotIncluded)
    participatedValidators lowestSlotIncluded.

(** The outer loop of [InclusionSlot]. *)
Fixpoint inclusionSlotLoop (state : BeaconState.t) (validatorIndex : Z)
  (attestations : list PendingAttestation.t) (lowestSlotIncluded : Z)
  : result (Error E) Z :=
  match attestations with
  | [] => Ok lowestSlotIncluded
  | attestation :: rest =>
      match AttestationParticipants state
              (PendingAttestation.Data attestation)
              (PendingAttestation.AggregationBitfield attestation) with
      | Err err => Err (CouldNotGetAttestationParticipants err)
      | Ok participatedValidators =>
          inclusionSlotLoop state validatorIndex rest
            (lowestAmong validatorIndex attestation participatedValidators
               lowestSlotIncluded)
      end
  end.

Definition InclusionSlot (state : BeaconState.t) (validatorIndex : Z)
  : result (Error E) Z :=
  lowestSlotIncluded ←
    inclusionSlotLoop state validatorIndex
      (BeaconState.LatestAttestations state) MaxUint64;
  if lowestSlotIncluded =? MaxUint64
  then Err (CouldNotFindInclusionSlot validatorIndex)
  else Ok lowestSlotIncluded.

(** The loops of [InclusionDistance]: the inner loop returns at the first
    participant that is the validator. *)
Fixpoint inclusionDistanceLoop (state : BeaconState.t) (validatorIndex : Z)
  (attestations : list PendingAttestation.t) : result (Error E) Z :=
  match attestations with
  | [] => Err (CouldNotFindInclusionDistance validatorIndex)
  | attestation :: rest =>
      match AttestationParticipants state
              (PendingAttestation.Data attestation)
              (PendingAttestation.AggregationBitfield attestation) with
      | Err err => Err (CouldNotGetAttestationParticipants err)
      | Ok participatedValidators =>
          if existsb (fun index => index =? validatorIndex)
               participatedValidators
          then Ok (sub64 (PendingAttestation.InclusionSlot attestation)
                         (AttestationData.Slot
                            (PendingAttestation.Data attestation)))
          else inclusionDistanceLoop state validatorIndex rest
      end
  end.

Definition InclusionDistance (state : BeaconState.t) (validatorIndex : Z)
  : result (Error E) Z :=
  inclusionDistanceLoop state validatorIndex
    (BeaconState.LatestAttestations state).

Definition AttestingValidators (state : BeaconState.t) (shard : Z)
  (currentEpochAttestations prevEpochAttestations : list PendingAttestation.t)
  : result (Error E) (list Z) :=
  match Epoch.winningRoot AttestingValidatorIndices EffectiveBalance state
          shard currentEpochAttestations prevEpochAttestations with
  | Err err => Err (CouldNotGetWinningRoot err)
  | Ok root =>
      match AttestingValidatorIndices state shard root
              currentEpochAttestations prevEpochAttestations with
      | Err err => Err (CouldNotGetAttestingValidatorIndices err)
      | Ok indices => Ok indices
      end
  end.

Definition TotalAttestingBalance (state : BeaconState.t) (shard : Z)
  (currentEpochAttestations prevEpochAttestations : list PendingAttestation.t)
  : result (Error E) Z :=
  match AttestingValidators state shard currentEpochAttestations
          prevEpochAttestations with
  | Err err => Err (CouldNotGetAttestingValidators err)
  | Ok attestedValidatorIndices =>
      Ok (fold_left
            (fun totalBalance index =>
               add64 totalBalance (EffectiveBalance state index))
            attestedValidatorIndices 0)
  end.

Definition SinceFinality (state : BeaconState.t) : Z :=
  sub64 (CurrentEpoch state) (BeaconState.FinalizedEpoch state).

(** ** epoch_processing.go *)


(** The inner loop of [ProcessCrosslinks], over the committees of one
    slot.  The state object is written in place, so every call sees the
    crosslinks written before it.  The result is [None] when the
    assignment to [LatestCrosslinks[shard]] panics, the shard being past
    the end of the slice; otherwise the contents of the state object and
    the error, if there is one (the returned pointer is then nil). *)
Fixpoint committeesLoop (currentEpoch : Z)
  (thisEpochAttestations prevEpochAttestations : list PendingAttestation.t)
  (crosslinkCommittees : list CrosslinkCommittee.t) (state : BeaconState.t)
  : option (BeaconState.t * option (Error E)) :=
  match crosslinkCommittees with
  | [] => Some (state, None)
  | crosslinkCommittee :: rest =>
      let shard := CrosslinkCommittee.Shard crosslinkCommittee in
      let committee := CrosslinkCommittee.Committee crosslinkCommittee in
      match TotalAttestingBalance state shard thisEpochAttestations
              prevEpochAttestations with
      | Err err => Some (state, Some (CouldNotGetAttestingBalance shard err))
      | Ok attestingBalance =>
          let totalBalance :=
            Epoch.TotalBalance EffectiveBalance state committee in
          if mul64 attestingBalance 3 >=? mul64 totalBalance 2 then
            match Epoch.winningRoot AttestingValidatorIndices
                    EffectiveBalance state shard thisEpochAttestations
                    prevEpochAttestations with
            | Err err => Some (state, Some (CouldNotGetWinningRoot err))
            | Ok winningRoot =>
                match BeaconState.LatestCrosslinks state
                      !! Z.to_nat shard with
                | None => None
                | Some _ =>
                    committeesLoop currentEpoch thisEpochAttestations
                      prevEpochAttestations rest
                      (with_LatestCrosslinks
                         (<[Z.to_nat shard :=
                              {| Crosslink.Epoch := currentEpoch;
                                 Crosslink.CrosslinkDataRootHash32 :=
                                   winningRoot |}]>
                            (BeaconState.LatestCrosslinks state))
                         state)
                end
            end
          else
            committeesLoop currentEpoch thisEpochAttestations
              prevEpochAttestations rest state
      end
  end.

(** The outer loop of [ProcessCrosslinks] at slot [i], [n] slots left. *)
Fixpoint slotsLoop (n : nat) (i : Z) (currentEpoch : Z)
  (thisEpochAttestations prevEpochAttestations : list PendingAttestation.t)
  (state : BeaconState.t) : option (BeaconState.t * option (Error E)) :=
  match n with
  | O => Some (state, None)
  | S n' =>
      match CrosslinkCommitteesAtSlot state i false with
      | Err err => Some (state, Some (CouldNotGetCommittees i err))
      | Ok crosslinkCommittees =>
          match committeesLoop currentEpoch thisEpochAttestations
                  prevEpochAttestations crosslinkCommittees state with
          | Some (state, None) =>
              slotsLoop n' (i + 1) currentEpoch thisEpochAttestations
                prevEpochAttestations state
          | stopped => stopped
          end
      end
  end.

Definition ProcessCrosslinks (state : BeaconState.t)
  (thisEpochAttestations prevEpochAttestations : list PendingAttestation.t)
  : option (BeaconState.t * option (Error E)) :=
  let prevEpoch := PrevEpoch state in
  let currentEpoch := CurrentEpoch state in
  let nextEpoch := NextEpoch state in
  let startSlot := StartSlot prevEpoch in
  let endSlot := StartSlot nextEpoch in
  slotsLoop (Z.to_nat (endSlot - startSlot)) startSlot currentEpoch
    thisEpochAttestations prevEpochAttestations state.

End EpochOperations.

Arguments PrevBoundaryAttestations {E}.
Arguments headLoop {E}.
Arguments PrevHeadAttestations {E}.
Arguments inclusionSlotLoop {E}.
Arguments InclusionSlot {E}.
Arguments inclusionDistanceLoop {E}.
Arguments InclusionDistance {E}.
Arguments AttestingValidators {E}.
Arguments TotalAttestingBalance {E}.
Arguments committeesLoop {E}.
Arguments slotsLoop {E}.
Arguments ProcessCrosslinks {E}.

End EpochOperations.

(** * beacon-chain/powchain/service.go: the deposit logs

  What the service does to its deposit trie and to its record of the
  deposits when a log of the deposit contract comes in.  Of the service
  object the fields these functions touch are kept; the calls to the
  beacon database are kept as the list of the deposits handed to it;
  logging and metrics are left out. *)

Module Powchain.

(** [gethTypes.Log], as far as [ProcessDepositLog] reads it. *)
Module Log.
Record t := {
    Data : list byte;
    BlockNumber : Z
  }.
End Log.

(** [pb.Deposit], of which only the deposit data is set. *)
Module Deposit.
Record t := {
    DepositData : list byte
  }.
End Deposit.

(** [depositTrie] is a pointer, nil until [initDataFromContract] has
    run: [None]. *)
Record Web3Service := {
  depositTrie : option Trie.DepositTrie;
  chainStartDeposits : list Deposit.t;
  chainStarted : bool;
  pendingDeposits : list (Deposit.t * Z);
  lastReceivedMerkleIndex : Z
}.

Definition with_depositTrie (v : option Trie.DepositTrie) (w : Web3Service)
  : Web3Service :=
  {| depositTrie := v;
     chainStartDeposits := chainStartDeposits w;
     chainStarted := chainStarted w;
     pendingDeposits := pendingDeposits w;
     lastReceivedMerkleIndex := lastReceivedMerkleIndex w |}.

Definition with_chainStartDeposits (v : list Deposit.t) (w : Web3Service)
  : Web3Service :=
  {| depositTrie := depositTrie w;
     chainStartDeposits := v;
     chainStarted := chainStarted w;
     pendingDeposits := pendingDeposits w;
     lastReceivedMerkleIndex := lastReceivedMerkleIndex w |}.

Definition with_pendingDeposits (v : list (Deposit.t * Z)) (w : Web3Service)
  : Web3Service :=
  {| depositTrie := depositTrie w;
     chainStartDeposits := chainStartDeposits w;
     chainStarted := chainStarted w;
     pendingDeposits := v;
     lastReceivedMerkleIndex := lastReceivedMerkleIndex w |}.

Definition with_lastReceivedMerkleIndex (v : Z) (w : Web3Service)
  : Web3Service :=
  {| depositTrie := depositTrie w;
     chainStartDeposits := chainStartDeposits w;
     chainStarted := chainStarted w;
     pendingDeposits := pendingDeposits w;
     lastReceivedMerkleIndex := v |}.

(** The conversion [int64(x)] of a [uint64]. *)
Definition int64 (x : Z) : Z :=
  if x <? 2 ^ 63 then x else x - modulus64.

(** [errors.New("saved root in trie is unequal to root received from log")]. *)
Inductive Error := SavedRootUnequal.

Section Powchain.

Variable Hash : list byte -> list byte.
Variable DepositContractTreeDepth : Z.

(** [contracts.UnpackDepositLogData], [binary.LittleEndian.Uint64] (which
    panics on fewer than eight bytes: [None]) and
    [blocks.DecodeDepositInput] live outside the embedded files.  Of the
    values the first returns, the Merkle root, the deposit data and the
    Merkle tree index are used. *)
Variable E : Type.
Variable DepositInput : Type.
Variable UnpackDepositLogData :
  list byte -> result E (list byte * list byte * list byte).
Variable Uint64 : list byte -> option Z.
Variable DecodeDepositInput : list byte -> result E DepositInput.

(** The trie is updated in place before the roots are compared.  [None]:
    the nil-pointer panic of a service without a trie. *)
Definition saveInTrie (w : Web3Service) (depositData merkleRoot : list byte)
  : option (Web3Service * option Error) :=
  match depositTrie w with
  | None => None
  | Some trie =>
      let trie :=
        Trie.UpdateDepositTrie Hash DepositContractTreeDepth trie depositData in
      let w := with_depositTrie (Some trie) w in
      if bool_decide (Trie.Root trie <> merkleRoot)
      then Some (w, Some SavedRootUnequal)
      else Some (w, None)
  end.

Definition ProcessDepositLog (w : Web3Service) (VRClog : Log.t)
  : option Web3Service :=
  match UnpackDepositLogData (Log.Data VRClog) with
  | Err _ => Some w
  | Ok (merkleRoot, depositData, merkleTreeIndex) =>
      match Uint64 merkleTreeIndex with
      | None => None
      | Some index =>
          if int64 index <=? lastReceivedMerkleIndex w then Some w
          else
            match saveInTrie w depositData merkleRoot with
            | None => None
            | Some (w, Some _) => Some w
            | Some (w, None) =>
                let w := with_lastReceivedMerkleIndex (int64 index) w in
                match DecodeDepositInput depositData with
                | Err _ => Some w
                | Ok depositInput =>
                    let deposit := {| Deposit.DepositData := depositData |} in
                    if negb (chainStarted w) then
                      Some (with_chainStartDeposits
                              (chainStartDeposits w ++ [deposit]) w)
                    else
                      Some (with_pendingDeposits
                              (pendingDeposits w
                               ++ [(deposit, int64 (Log.BlockNumber VRClog))])
                              w)
                end
            end
      end
  end.

End Powchain.

Arguments ProcessDepositLog Hash DepositContractTreeDepth {E DepositInput}.

End Powchain.

(** * Notions used to state the properties of the deposit trie *)

Module TrieNotions.

(** Node [j] holds the hash of its two children, an unwritten child
    reading as the zero array. *)
Definition hashOfChildren (Hash : list byte -> list byte)
  (m : gmap Z (list byte)) (j : Z) : Prop :=
  m !! j = Some (Hash (Trie.at_key m (2 * j) ++ Trie.at_key m (2 * j + 1))).

(** [j] is the parent of node [x], or the parent of its parent, and so
    on. *)
Definition above (x j : Z) : Prop :=
  exists i : nat, (1 <= i)%nat /\ j = x / 2 ^ Z.of_nat i.

(** In a trie of depth [d], the nodes whose subtree has height [k]. *)
Definition atHeight (d k : nat) (j : Z) : Prop :=
  2 ^ Z.of_nat (d - k) <= j < 2 * 2 ^ Z.of_nat (d - k).

(** The Merkle tree of the given deposits in a trie of depth [D], a
    subtree without a deposit counting as the zero array: the value of
    node [j], the root of a subtree of height [k].  The leaves are the
    nodes [2 ^ D], [2 ^ D + 1], ... *)
Fixpoint merkleNode (Hash : list byte -> list byte) (D : Z)
  (deposits : list (list byte)) (k : nat) (j : Z) : list byte :=
  match k with
  | O =>
      match deposits !! Z.to_nat (j - 2 ^ D) with
      | Some depositData => Hash depositData
      | None => zeroHash
      end
  | S k' =>
      if j * 2 ^ Z.of_nat k <? 2 ^ D + Z.of_nat (length deposits)
      then Hash (merkleNode Hash D deposits k' (2 * j)
                 ++ merkleNode Hash D deposits k' (2 * j + 1))
      else zeroHash
  end.

End TrieNotions.

(** * Notions used to state the properties of the epoch package *)

Module EpochNotions.
Import pb.

(** The validator is among the participants of the attestation. *)
Definition participates {E : Type}
  (AttestationParticipants :
     BeaconState.t -> AttestationData.t -> list byte -> result E (list Z))
  (state : BeaconState.t) (validatorIndex : Z)
  (attestation : PendingAttestation.t) : Prop :=
  exists participatedValidators,
    AttestationParticipants state (PendingAttestation.Data attestation)
      (PendingAttestation.AggregationBitfield attestation)
    = Ok participatedValidators
    /\ In validatorIndex participatedValidators.

(** The state [after] differs from the state [before] at most in the
    crosslinks: there are as many as before, and each is the one that
    was there before or carries the epoch [currentEpoch]. *)
Definition crosslinksOnly (currentEpoch : Z) (before after : BeaconState.t)
  : Prop :=
  after
  = EpochOperations.with_LatestCrosslinks
      (BeaconState.LatestCrosslinks after) before
  /\ length (BeaconState.LatestCrosslinks after)
     = length (BeaconState.LatestCrosslinks before)
  /\ forall (shard : nat) crosslink,
       BeaconState.LatestCrosslinks after !! shard = Some crosslink ->
       BeaconState.LatestCrosslinks before !! shard = Some crosslink
       \/ Crosslink.Epoch crosslink = currentEpoch.

End EpochNotions.

(** * Notions used to state the properties of the state transition *)

Module StateNotions.
Import pb.

(** No pass of the block package writes the slot of the state. *)
Definition keepsSlot {E : Type} (ops : State.BlockOperations E) : Prop :=
  (forall state root,
     BeaconState.Slot (State.ProcessBlockRoots ops state root)
     = BeaconState.Slot state)
  /\ (forall state block,
        BeaconState.Slot (fst (State.ProcessBlockRandao ops state block))
        = BeaconState.Slot state)
  /\ (forall state block verifySignatures,
        BeaconState.Slot
          (fst (State.ProcessProposerSlashings ops state block
                  verifySignatures))
        = BeaconState.Slot state)
  /\ (forall state block,
        BeaconState.Slot (State.ProcessEth1Data ops state block)
        = BeaconState.Slot state)
  /\ (forall state block verifySignatures,
        BeaconState.Slot
          (fst (State.ProcessAttesterSlashings ops state block
                  verifySignatures))
        = BeaconState.Slot state)
  /\ (forall state block verifySignatures,
        BeaconState.Slot
          (fst (State.ProcessBlockAttestations ops state block
                  verifySignatures))
        = BeaconState.Slot state)
  /\ (forall state block,
        BeaconState.Slot (fst (State.ProcessValidatorDeposits ops state block))
        = BeaconState.Slot state)
  /\ (forall state block verifySignatures,
        BeaconState.Slot
          (fst (State.ProcessValidatorExits ops state block verifySignatures))
        = BeaconState.Slot state).

End StateNotions.

(** * Properties *)

(** ** Machine arithmetic *)

Lemma wrap64_small z : is_uint64 z -> wrap64 z = z.
Proof. unfold is_uint64, wrap64. intros H. now apply Z.mod_small. Qed.

Lemma wrap64_range z : is_uint64 (wrap64 z).
Proof. unfold is_uint64, wrap64, modulus64. apply Z.mod_pos_bound. lia. Qed.

Lemma mul64_small a b : is_uint64 (a * b) -> mul64 a b = a * b.
Proof. apply wrap64_small. Qed.

Lemma add64_small a b : is_uint64 (a + b) -> add64 a b = a + b.
Proof. apply wrap64_small. Qed.

(** ** The eth1-data pass of the epoch transition *)

Module Eth1Props.
Import pb Notions.

Section Eth1.

Variable cfg : params.BeaconChainConfig.

(** The body of the loop of [ProcessEth1Data]. *)
Let adopt (state : BeaconState.t) (eth1DataVote : Eth1DataVote.t) :=
  if Epoch.eth1VoteWins cfg eth1DataVote
  then BeaconState.with_LatestEth1Data
         (Eth1DataVote.Eth1Data eth1DataVote) state
  else state.

Lemma adopt_fold_LatestEth1Data votes state :
  BeaconState.LatestEth1Data (fold_left adopt votes state)
  = match lastWinner cfg votes with
    | Some v => Eth1DataVote.Eth1Data v
    | None => BeaconState.LatestEth1Data state
    end.
Proof.
  unfold lastWinner.
  induction votes as [|v votes IH] using rev_ind; [reflexivity|].
  rewrite fold_left_app, rev_app_distr. simpl.
  unfold adopt at 1.
  destruct (Epoch.eth1VoteWins cfg v); [reflexivity|exact IH].
Qed.

Lemma ProcessEth1Data_LatestEth1Data state :
  BeaconState.LatestEth1Data (Epoch.ProcessEth1Data cfg state)
  = match lastWinner cfg (BeaconState.Eth1DataVotes state) with
    | Some v => Eth1DataVote.Eth1Data v
    | None => BeaconState.LatestEth1Data state
    end.
Proof.
  unfold Epoch.ProcessEth1Data.
  cbn [BeaconState.LatestEth1Data BeaconState.with_Eth1DataVotes].
  exact (adopt_fold_LatestEth1Data _ _).
Qed.

Lemma lastWinner_Some votes v :
  lastWinner cfg votes = Some v ->
  In v votes /\ Epoch.eth1VoteWins cfg v = true.
Proof.
  unfold lastWinner. intros H. apply find_some in H as [H1 H2].
  split; [now apply in_rev|exact H2].
Qed.

Lemma lastWinner_None votes :
  lastWinner cfg votes = None <->
  forall v, In v votes -> Epoch.eth1VoteWins cfg v = false.
Proof.
  unfold lastWinner. split.
  - intros H v Hv. apply (find_none _ _ H). now apply in_rev in Hv.
  - intros H. destruct (List.find _ _) eqn:Hf; [|reflexivity].
    apply find_some in Hf as [H1 H2]. apply in_rev in H1.
    rewrite (H _ H1) in H2. discriminate.
Qed.

Lemma lastWinner_split l1 v l2 :
  Epoch.eth1VoteWins cfg v = true ->
  (forall w, In w l2 -> Epoch.eth1VoteWins cfg w = false) ->
  lastWinner cfg (l1 ++ v :: l2) = Some v.
Proof.
  intros Hv Hl2. unfold lastWinner.
  rewrite rev_app_distr. simpl. rewrite <- app_assoc. simpl.
  induction l2 as [|w l2 IH] using rev_ind.
  - simpl. now rewrite Hv.
  - rewrite rev_app_distr. simpl.
    rewrite (Hl2 w) by (apply in_or_app; right; now left).
    apply IH. intros u Hu. apply Hl2. apply in_or_app. now left.
Qed.


(** Where no product overflows, the threshold is the one of the
    integers: twice the count against slots per epoch times epochs per
    voting period. *)
Lemma ProcessEth1Data_adopts_winning_vote_exact (state : BeaconState.t) :
  is_uint64 (params.SlotsPerEpoch cfg * params.EpochsPerEth1VotingPeriod cfg) ->
  (forall v, In v (BeaconState.Eth1DataVotes state) ->
             is_uint64 (Eth1DataVote.VoteCount v * 2)) ->
  (exists v, In v (BeaconState.Eth1DataVotes state)
             /\ Eth1DataVote.VoteCount v * 2
                > params.SlotsPerEpoch cfg * params.EpochsPerEth1VotingPeriod cfg) ->
  (exists v, In v (BeaconState.Eth1DataVotes state)
             /\ Eth1DataVote.VoteCount v * 2
                > params.SlotsPerEpoch cfg * params.EpochsPerEth1VotingPeriod cfg
             /\ BeaconState.LatestEth1Data (Epoch.ProcessEth1Data cfg state)
                = Eth1DataVote.Eth1Data v)
  /\ BeaconState.Eth1DataVotes (Epoch.ProcessEth1Data cfg state) = [].
Proof.
  intros Hcfg Hvotes [v [Hin Hv]]. split; [|reflexivity].
  rewrite ProcessEth1Data_LatestEth1Data.
  destruct (lastWinner cfg _) as [w|] eqn:Hw.
  - apply lastWinner_Some in Hw as [H1 H2]. exists w.
    unfold Epoch.eth1VoteWins in H2. apply Z.gtb_gt in H2.
    rewrite !mul64_small in H2 by auto. auto.
  - rewrite lastWinner_None in Hw. specialize (Hw _ Hin).
    unfold Epoch.eth1VoteWins in Hw.
    rewrite Z.gtb_ltb in Hw. apply Z.ltb_ge in Hw.
    rewrite !mul64_small in Hw by auto. lia.
Qed.

(** C10.  After [ProcessEth1Data] the vote list is empty whatever the
    votes were; if no vote meets the threshold [LatestEth1Data] is left as
    it was; and if several do, [LatestEth1Data] is the [Eth1Data] of the
    last of them in list order. *)
Theorem ProcessEth1Data_clears_votes_last_winner (state : BeaconState.t) :
  BeaconState.Eth1DataVotes (Epoch.ProcessEth1Data cfg state) = []
  /\ ((forall v, In v (BeaconState.Eth1DataVotes state) ->
                 Epoch.eth1VoteWins cfg v = false) ->
      BeaconState.LatestEth1Data (Epoch.ProcessEth1Data cfg state)
      = BeaconState.LatestEth1Data state)
  /\ (forall l1 v l2,
        BeaconState.Eth1DataVotes state = l1 ++ v :: l2 ->
        Epoch.eth1VoteWins cfg v = true ->
        (forall w, In w l2 -> Epoch.eth1VoteWins cfg w = false) ->
        BeaconState.LatestEth1Data (Epoch.ProcessEth1Data cfg state)
        = Eth1DataVote.Eth1Data v).
Proof.
  split; [reflexivity|]. split.
  - intros Hnone. rewrite ProcessEth1Data_LatestEth1Data.
    apply lastWinner_None in Hnone. now rewrite Hnone.
  - intros l1 v l2 Hsplit Hv Hl2. rewrite ProcessEth1Data_LatestEth1Data.
    rewrite Hsplit, (lastWinner_split l1 v l2 Hv Hl2). reflexivity.
Qed.

End Eth1.

End Eth1Props.

(** ** The deposit trie *)

Module TrieProps.
Import Notions.

Section Verify.

Variable Hash : list byte -> list byte.
Variable DepositContractTreeDepth : Z.

(** The loop of [VerifyMerkleBranch] reads [idx] only through its parity,
    and the parity it reads is the same at every level. *)
Lemma verifyLoop_parity n i idx branch value :
  Trie.verifyLoop Hash n i idx branch value
  = Trie.verifyLoop Hash n i (idx mod 2) branch value.
Proof.
  revert i value. induction n as [|n IH]; intros i value; [reflexivity|].
  simpl. destruct (branch !! i) as [b|]; [|reflexivity].
  rewrite Z.mod_mod by lia. apply IH.
Qed.

End Verify.

Section TwoDeposits.
Variable Hash : list byte -> list byte.

Lemma pow2_lt_modulus (k : nat) : (k <= 63)%nat -> 0 < 2 ^ Z.of_nat k < modulus64.
Proof.
  intros Hk. unfold modulus64. split; [apply Z.pow_pos_nonneg; lia|].
  apply Z.pow_lt_mono_r; lia.
Qed.

Lemma pow2_succ (k : nat) : 2 ^ Z.of_nat (S k) = 2 * 2 ^ Z.of_nat k.
Proof. rewrite Nat2Z.inj_succ, Z.pow_succ_r by lia. reflexivity. Qed.

Lemma pow2_succ_div (k : nat) : 2 ^ Z.of_nat (S k) / 2 = 2 ^ Z.of_nat k.
Proof. rewrite pow2_succ, Z.mul_comm. apply Z.div_mul. lia. Qed.




Lemma pow2_inj_lt (j k : nat) : (j < k)%nat -> 2 ^ Z.of_nat j < 2 ^ Z.of_nat k.
Proof. intros. apply Z.pow_lt_mono_r; lia. Qed.


Lemma pow2_even (k : nat) : (1 <= k)%nat -> 2 ^ Z.of_nat k mod 2 = 0.
Proof.
  intros Hk. destruct k as [|k]; [lia|].
  rewrite pow2_succ, Z.mul_comm. apply Z.mod_mul. lia.
Qed.




(** Two deposits in a trie of depth [d]. *)
Variables d0 d1 : list byte.
Variable d : nat.
Hypothesis d_range : (2 <= d <= 63)%nat.

Let D : Z := Z.of_nat d.





(** The map after the first deposit. *)
Let m1 := Trie.merkleHashes (Trie.insertAll Hash D [d0]).








Hypothesis Hash_length : forall x, length (Hash x) = 32%nat.

End TwoDeposits.

Section Depth32.

Variable Hash : list byte -> list byte.
Variables d0 d1 : list byte.

Lemma depth32_branch_0 :
  Trie.GenerateMerkleBranch 32 (Trie.insertAll Hash 32 [d0; d1]) 0
  = Hash d1 :: repeat zeroHash 31.
Proof. vm_compute. reflexivity. Qed.

Lemma depth32_root :
  Trie.Root (Trie.insertAll Hash 32 [d0; d1])
  = hashUpLeft Hash 31 (Hash (Hash d0 ++ Hash d1)).
Proof. vm_compute. reflexivity. Qed.

(** With an even index the value is the left operand at every level. *)
Lemma depth32_verifyLoop_index_0 sibling leaf :
  Trie.verifyLoop Hash 32 0 (add64 0 (Trie.twoToPowerOfTreeDepth 32))
    (sibling :: repeat zeroHash 31) leaf
  = Some (hashUpLeft Hash 31 (Hash (leaf ++ sibling))).
Proof. vm_compute. reflexivity. Qed.

(** The first deposit is accepted: its path goes to the left at every
    level. *)
Lemma VerifyMerkleBranch_first_deposit :
  Trie.VerifyMerkleBranch Hash 32 (Hash d0)
    (Trie.GenerateMerkleBranch 32 (Trie.insertAll Hash 32 [d0; d1]) 0)
    32 0 (Trie.Root (Trie.insertAll Hash 32 [d0; d1])) = Some true.
Proof.
  unfold Trie.VerifyMerkleBranch.
  rewrite depth32_branch_0, depth32_root, depth32_verifyLoop_index_0.
  now rewrite bool_decide_eq_true_2.
Qed.

End Depth32.


End TrieProps.

(** ** The state transition *)

Module StateProps.
Import pb Notions.

Section Transition.

Variable cfg : params.BeaconChainConfig.
Variable E : Type.
Variable ops : State.BlockOperations E.
Variable ProcessEpoch : BeaconState.t -> BeaconState.t * option E.

(** The state object as [ExecuteStateTransition] hands it to
    [ProcessBlock]: slot advanced, block roots processed. *)
Let advanced (state : BeaconState.t) (prevBlockRoot : list byte) :=
  State.ProcessBlockRoots ops
    (BeaconState.with_Slot (add64 (BeaconState.Slot state) 1) state)
    prevBlockRoot.

Lemma step_returned (wrap : E -> State.BlockError E) r k :
  (forall state,
      match State.failure (k state) with
      | Some _ => State.returned (k state) = None
      | None => State.returned (k state) = Some (State.object (k state))
      end) ->
  match State.failure (State.step wrap r k) with
  | Some _ => State.returned (State.step wrap r k) = None
  | None =>
      State.returned (State.step wrap r k)
      = Some (State.object (State.step wrap r k))
  end.
Proof.
  intros Hk. destruct r as [state [err|]]; simpl; [reflexivity|apply Hk].
Qed.

(** [ProcessBlock] returns either the state object and no error, or an
    error and nil. *)
Lemma ProcessBlock_returned state block verifySignatures :
  match State.failure (State.ProcessBlock ops state block verifySignatures) with
  | Some _ =>
      State.returned (State.ProcessBlock ops state block verifySignatures)
      = None
  | None =>
      State.returned (State.ProcessBlock ops state block verifySignatures)
      = Some (State.object
                (State.ProcessBlock ops state block verifySignatures))
  end.
Proof.
  unfold State.ProcessBlock.
  destruct (negb _); [reflexivity|].
  destruct (if verifySignatures then _ else _); [reflexivity|].
  repeat (apply step_returned; intros ?).
  reflexivity.
Qed.

(** A block for another slot is refused before anything is written. *)
Lemma ProcessBlock_slot_mismatch state block verifySignatures :
  BeaconBlock.Slot block <> BeaconState.Slot state ->
  State.ProcessBlock ops state block verifySignatures
  = State.fail state
      (State.SlotMismatch (BeaconBlock.Slot block) (BeaconState.Slot state)) [].
Proof.
  intros Hne. unfold State.ProcessBlock.
  apply Z.eqb_neq in Hne. now rewrite Hne.
Qed.

(** A block whose proposer signature is refused is dropped before anything
    is written. *)
Lemma ProcessBlock_bad_signature state block err :
  BeaconBlock.Slot block = BeaconState.Slot state ->
  State.VerifyProposerSignature ops block = Some err ->
  State.ProcessBlock ops state block true
  = State.fail state (State.CouldNotVerifyProposerSignature err) [].
Proof.
  intros Hslot Hsig. unfold State.ProcessBlock.
  apply Z.eqb_eq in Hslot. now rewrite Hslot, Hsig.
Qed.

(** A failure of the first writing pass keeps what that pass wrote, and no
    later pass runs. *)
Lemma ProcessBlock_randao_failure state block err :
  BeaconBlock.Slot block = BeaconState.Slot state ->
  snd (State.ProcessBlockRandao ops state block) = Some err ->
  State.ProcessBlock ops state block false
  = State.fail (fst (State.ProcessBlockRandao ops state block))
      (State.CouldNotProcessBlockRandao err) [].
Proof.
  intros Hslot Hr. unfold State.ProcessBlock.
  apply Z.eqb_eq in Hslot. rewrite Hslot. simpl.
  destruct (State.ProcessBlockRandao ops state block) as [state' o].
  simpl in Hr. subst o. reflexivity.
Qed.

(** [ExecuteStateTransition] passes a failure of [ProcessBlock] on. *)
Lemma ExecuteStateTransition_block_failure state block root verifySignatures err :
  State.failure
    (State.ProcessBlock ops (advanced state root) block verifySignatures)
  = Some err ->
  State.ExecuteStateTransition cfg ops ProcessEpoch state (Some block) root
    verifySignatures
  = State.fail
      (State.object
         (State.ProcessBlock ops (advanced state root) block verifySignatures))
      (State.UnableToProcessBlock err) [State.CallProcessBlock].
Proof.
  intros Hf. unfold State.ExecuteStateTransition.
  fold (advanced state root). now rewrite Hf.
Qed.

(** When the epoch pass is run. *)
Lemma ExecuteStateTransition_runs_epoch_iff state block root verifySignatures :
  In State.CallProcessEpoch
    (State.calls
       (State.ExecuteStateTransition cfg ops ProcessEpoch state block root
          verifySignatures))
  <-> exists b,
      block = Some b
      /\ State.failure
           (State.ProcessBlock ops (advanced state root) b verifySignatures)
         = None
      /\ EpochEarly.CanProcessEpoch cfg
           (State.object
              (State.ProcessBlock ops (advanced state root) b verifySignatures))
         = true.
Proof.
  unfold State.ExecuteStateTransition. fold (advanced state root).
  destruct block as [b|].
  - destruct (State.failure _) eqn:Hf.
    + simpl. split.
      * intros [H|[]]. discriminate.
      * intros [b' [Hb [Hf' _]]]. injection Hb as <-. congruence.
    + destruct (EpochEarly.CanProcessEpoch cfg _) eqn:Hc.
      * split.
        -- intros _. exists b. auto.
        -- intros _. destruct (ProcessEpoch _) as [s' [e|]]; simpl; auto.
      * simpl. split.
        -- intros [H|[]]. discriminate.
        -- intros [b' [Hb [_ Hc']]]. injection Hb as <-. congruence.
  - simpl. split; [intros []|]. intros [b [Hb _]]. discriminate.
Qed.

(** C2, as amended.  [ProcessBlock] returns either the state object and no
    error or an error and a nil state, never the state it was handed
    together with an error; a block refused by the slot check or by the
    proposer-signature check leaves the state object as it was handed in;
    a failure of a later pass keeps what that pass wrote to the object and
    ends the call; and [ExecuteStateTransition] passes the failure on with
    a nil state, the object being the one [ProcessBlock] left, slot
    advanced. *)
Theorem ProcessBlock_failure_returns_nil (state : BeaconState.t)
  (block : BeaconBlock.t) (root : list byte) (verifySignatures : bool) :
  let out := State.ProcessBlock ops state block verifySignatures in
  match State.failure out with
  | Some _ => State.returned out = None
  | None => State.returned out = Some (State.object out)
  end
  /\ (BeaconBlock.Slot block <> BeaconState.Slot state ->
      State.failure out <> None /\ State.object out = state)
  /\ (BeaconBlock.Slot block = BeaconState.Slot state ->
      verifySignatures = true ->
      State.VerifyProposerSignature ops block <> None ->
      State.failure out <> None /\ State.object out = state)
  /\ (BeaconBlock.Slot block = BeaconState.Slot state ->
      verifySignatures = false ->
      snd (State.ProcessBlockRandao ops state block) <> None ->
      State.failure out <> None
      /\ State.object out = fst (State.ProcessBlockRandao ops state block))
  /\ (forall err,
        State.failure
          (State.ProcessBlock ops (advanced state root) block verifySignatures)
        = Some err ->
        let out' :=
          State.ExecuteStateTransition cfg ops ProcessEpoch state (Some block)
            root verifySignatures in
        State.failure out' = Some (State.UnableToProcessBlock err)
        /\ State.returned out' = None
        /\ State.object out'
           = State.object
               (State.ProcessBlock ops (advanced state root) block
                  verifySignatures)).
Proof.
  intros out. split; [apply ProcessBlock_returned|]. split; [|split; [|split]].
  - intros Hne. subst out. rewrite ProcessBlock_slot_mismatch by exact Hne.
    split; [discriminate|reflexivity].
  - intros Hslot -> Hsig. subst out.
    destruct (State.VerifyProposerSignature ops block) as [err|] eqn:He;
      [|congruence].
    rewrite (ProcessBlock_bad_signature _ _ err Hslot He).
    split; [discriminate|reflexivity].
  - intros Hslot -> Hr. subst out.
    destruct (snd (State.ProcessBlockRandao ops state block)) as [err|] eqn:He;
      [|congruence].
    rewrite (ProcessBlock_randao_failure _ _ err Hslot He).
    split; [discriminate|reflexivity].
  - intros err Hf out'. subst out'.
    rewrite (ExecuteStateTransition_block_failure _ _ _ _ err Hf).
    auto.
Qed.

End Transition.

(** C1, at the failing input.  From slot 63 with an epoch length of 64 the
    slot counter reaches the epoch boundary, [(63 + 1) mod 64 = 0], and
    [CanProcessEpoch] holds of the advanced state; yet with no block
    [ExecuteStateTransition] returns without running [ProcessEpoch],
    whatever the block operations and the epoch pass are. *)
Theorem ExecuteStateTransition_without_block_skips_epoch
  (E : Type) (ops : State.BlockOperations E)
  (ProcessEpoch : BeaconState.t -> BeaconState.t * option E)
  (state : BeaconState.t) (root : list byte) (verifySignatures : bool) :
  let out :=
    State.ExecuteStateTransition mainnet ops ProcessEpoch
      (BeaconState.with_Slot 63 state) None root verifySignatures in
  add64 63 1 mod params.EpochLength mainnet = 0
  /\ EpochEarly.CanProcessEpoch mainnet
       (BeaconState.with_Slot
          (add64 (BeaconState.Slot (BeaconState.with_Slot 63 state)) 1)
          (BeaconState.with_Slot 63 state))
     = true
  /\ ~ In State.CallProcessEpoch (State.calls out)
  /\ State.failure out = None.
Proof.
  intros out. split; [reflexivity|]. split; [reflexivity|].
  split; [|reflexivity].
  subst out. rewrite ExecuteStateTransition_runs_epoch_iff.
  intros [b [Hb _]]. discriminate.
Qed.


(** C2, counterexample.  A block for the right slot whose proposer signature
  is refused: [ProcessBlock] answers with an error and a nil state, not with
  the state it was handed; through [ExecuteStateTransition] the answer is
  again an error and nil, and the state object the caller passed in has had
  its slot advanced from 0 to 1. *)
Lemma ProcessBlock_failure_not_original_state :
State.failure (State.ProcessBlock rejectingOps emptyState (blockAt 0) true)
= Some (State.CouldNotVerifyProposerSignature tt)
/\ State.returned (State.ProcessBlock rejectingOps emptyState (blockAt 0) true)
   <> Some emptyState
/\ State.failure
     (State.ExecuteStateTransition mainnet rejectingOps idleEpoch emptyState
        (Some (blockAt 1)) [] true)
   = Some (State.UnableToProcessBlock (State.CouldNotVerifyProposerSignature tt))
/\ State.returned
     (State.ExecuteStateTransition mainnet rejectingOps idleEpoch emptyState
        (Some (blockAt 1)) [] true)
   = None
/\ State.object
     (State.ExecuteStateTransition mainnet rejectingOps idleEpoch emptyState
        (Some (blockAt 1)) [] true)
   <> emptyState.
Proof.
repeat split; try reflexivity; intros H; discriminate H.
Qed.

End StateProps.

(** ** Justification and finalization *)

Module JustificationProps.
Import pb Notions.

Section Fields.

(** The finalization tests of [ProcessJustification] write
    [FinalizedEpoch] only. *)
Lemma bitfield_if_finalized (c : bool) v state :
  BeaconState.JustificationBitfield
    (if c then BeaconState.with_FinalizedEpoch v state else state)
  = BeaconState.JustificationBitfield state.
Proof. now destruct c. Qed.

Lemma justified_if_finalized (c : bool) v state :
  BeaconState.JustifiedEpoch
    (if c then BeaconState.with_FinalizedEpoch v state else state)
  = BeaconState.JustifiedEpoch state.
Proof. now destruct c. Qed.

Lemma previous_justified_if_finalized (c : bool) v state :
  BeaconState.PreviousJustifiedEpoch
    (if c then BeaconState.with_FinalizedEpoch v state else state)
  = BeaconState.PreviousJustifiedEpoch state.
Proof. now destruct c. Qed.

Lemma finalized_if_finalized (c : bool) v state :
  BeaconState.FinalizedEpoch
    (if c then BeaconState.with_FinalizedEpoch v state else state)
  = if c then v else BeaconState.FinalizedEpoch state.
Proof. now destruct c. Qed.

End Fields.

Create Rewrite HintDb fields.

#[local] Hint Rewrite bitfield_if_finalized justified_if_finalized
previous_justified_if_finalized finalized_if_finalized : fields.

Section Justification.

Variable CurrentEpoch PrevEpoch : BeaconState.t -> Z.
Variable state : BeaconState.t.
Variables thisEpochBoundaryAttestingBalance prevEpochBoundaryAttestingBalance
  prevTotalBalance totalBalance : Z.

Let state' : BeaconState.t :=
  Epoch.ProcessJustification CurrentEpoch PrevEpoch state
    thisEpochBoundaryAttestingBalance prevEpochBoundaryAttestingBalance
    prevTotalBalance totalBalance.

(** The two supermajority tests as the code evaluates them. *)
Let prevJustified64 : bool :=
  mul64 3 prevEpochBoundaryAttestingBalance >=? mul64 2 prevTotalBalance.
Let thisJustified64 : bool :=
  mul64 3 thisEpochBoundaryAttestingBalance >=? mul64 2 totalBalance.

Lemma ProcessJustification_bitfield :
  BeaconState.JustificationBitfield state'
  = Z.lor
      (Z.lor (shl64 (BeaconState.JustificationBitfield state) 1)
         (if prevJustified64 then 2 else 0))
      (if thisJustified64 then 1 else 0).
Proof.
  subst state' prevJustified64 thisJustified64.
  unfold Epoch.ProcessJustification.
  destruct (mul64 3 prevEpochBoundaryAttestingBalance >=? _);
    destruct (mul64 3 thisEpochBoundaryAttestingBalance >=? _);
    cbn [BeaconState.JustificationBitfield BeaconState.with_JustifiedEpoch
           BeaconState.with_PreviousJustifiedEpoch];
    autorewrite with fields;
    cbn [BeaconState.JustificationBitfield
           BeaconState.with_JustificationBitfield];
    now rewrite ?Z.lor_0_r.
Qed.

Lemma ProcessJustification_justified :
  BeaconState.JustifiedEpoch state'
  = if thisJustified64 then CurrentEpoch state
    else if prevJustified64 then PrevEpoch state
         else BeaconState.JustifiedEpoch state.
Proof.
  subst state' prevJustified64 thisJustified64.
  unfold Epoch.ProcessJustification.
  destruct (mul64 3 prevEpochBoundaryAttestingBalance >=? _);
    destruct (mul64 3 thisEpochBoundaryAttestingBalance >=? _);
    reflexivity.
Qed.

Lemma ProcessJustification_previous_justified :
  BeaconState.PreviousJustifiedEpoch state'
  = BeaconState.JustifiedEpoch state.
Proof.
  subst state'. unfold Epoch.ProcessJustification.
  destruct (mul64 3 prevEpochBoundaryAttestingBalance >=? _);
    destruct (mul64 3 thisEpochBoundaryAttestingBalance >=? _);
    cbn [BeaconState.PreviousJustifiedEpoch BeaconState.with_JustifiedEpoch
           BeaconState.with_PreviousJustifiedEpoch];
    autorewrite with fields; reflexivity.
Qed.

(** After the pass the finalized epoch is the one before, or the previous
    justified epoch or the justified epoch of the state before. *)
Lemma ProcessJustification_finalized :
  BeaconState.FinalizedEpoch state' = BeaconState.FinalizedEpoch state
  \/ BeaconState.FinalizedEpoch state'
     = BeaconState.PreviousJustifiedEpoch state
  \/ BeaconState.FinalizedEpoch state' = BeaconState.JustifiedEpoch state.
Proof.
  subst state'. unfold Epoch.ProcessJustification.
  destruct (mul64 3 prevEpochBoundaryAttestingBalance >=? _);
    destruct (mul64 3 thisEpochBoundaryAttestingBalance >=? _);
    cbn [BeaconState.FinalizedEpoch BeaconState.with_JustifiedEpoch
           BeaconState.with_PreviousJustifiedEpoch];
    autorewrite with fields;
    repeat match goal with
           | |- context [if ?c then _ else _] => destruct c
           end;
    cbn; auto.
Qed.


(** The ordering of the three epochs is kept by the pass when the justified
    epoch has not run ahead of the previous epoch, so a state reached
    through passes taken one epoch apart satisfies the hypotheses of the
    theorem above. *)
Lemma ProcessJustification_keeps_order :
  PrevEpoch state <= CurrentEpoch state ->
  BeaconState.FinalizedEpoch state <= BeaconState.PreviousJustifiedEpoch state ->
  BeaconState.PreviousJustifiedEpoch state <= BeaconState.JustifiedEpoch state ->
  BeaconState.JustifiedEpoch state <= PrevEpoch state ->
  BeaconState.FinalizedEpoch state'
  <= BeaconState.PreviousJustifiedEpoch state'
  /\ BeaconState.PreviousJustifiedEpoch state'
     <= BeaconState.JustifiedEpoch state'
  /\ BeaconState.JustifiedEpoch state' <= CurrentEpoch state.
Proof.
  intros Hpc Hfp Hpj Hjp.
  rewrite ProcessJustification_previous_justified,
    ProcessJustification_justified.
  destruct ProcessJustification_finalized as [H|[H|H]]; rewrite H;
    destruct thisJustified64, prevJustified64; lia.
Qed.

(** C6, as amended.  [ProcessJustification] shifts the bitfield left by one
    bit, the new low bit being 0 and bit [i + 1] the former bit [i]; when no
    product overflows 64 bits it sets bit 1 (value 2) and takes the
    previous epoch as justified exactly when three times the previous
    epoch's boundary attesting balance reaches twice the previous total
    balance, sets bit 0 (value 1) and takes the current epoch exactly when
    three times the current epoch's boundary attesting balance reaches
    twice the current total balance, and the current epoch wins when both
    tests hold. *)
Theorem ProcessJustification_bitfield_and_justified_epoch :
  is_uint64 (3 * prevEpochBoundaryAttestingBalance) ->
  is_uint64 (2 * prevTotalBalance) ->
  is_uint64 (3 * thisEpochBoundaryAttestingBalance) ->
  is_uint64 (2 * totalBalance) ->
  let after :=
    Epoch.ProcessJustification CurrentEpoch PrevEpoch state
      thisEpochBoundaryAttestingBalance prevEpochBoundaryAttestingBalance
      prevTotalBalance totalBalance in
  let prevJustified :=
    2 * prevTotalBalance <=? 3 * prevEpochBoundaryAttestingBalance in
  let thisJustified :=
    2 * totalBalance <=? 3 * thisEpochBoundaryAttestingBalance in
  Z.testbit (shl64 (BeaconState.JustificationBitfield state) 1) 0 = false
  /\ (forall i, 0 <= i < 63 ->
        Z.testbit (shl64 (BeaconState.JustificationBitfield state) 1) (i + 1)
        = Z.testbit (BeaconState.JustificationBitfield state) i)
  /\ BeaconState.JustificationBitfield after
     = Z.lor
         (Z.lor (shl64 (BeaconState.JustificationBitfield state) 1)
            (if prevJustified then 2 else 0))
         (if thisJustified then 1 else 0)
  /\ BeaconState.JustifiedEpoch after
     = if thisJustified then CurrentEpoch state
       else if prevJustified then PrevEpoch state
            else BeaconState.JustifiedEpoch state.
Proof.
  intros Hp Htp Hc Htc after prevJustified thisJustified.
  assert (Hprev : prevJustified64 = prevJustified).
  { subst prevJustified64 prevJustified.
    rewrite !mul64_small by assumption. apply Z.geb_leb. }
  assert (Hthis : thisJustified64 = thisJustified).
  { subst thisJustified64 thisJustified.
    rewrite !mul64_small by assumption. apply Z.geb_leb. }
  split; [|split; [|split]].
  - unfold shl64, wrap64, modulus64.
    rewrite Z.mod_pow2_bits_low by lia.
    rewrite Z.shiftl_spec by lia. now rewrite Z.testbit_neg_r by lia.
  - intros i Hi. unfold shl64, wrap64, modulus64.
    rewrite Z.mod_pow2_bits_low by lia.
    rewrite Z.shiftl_spec by lia. f_equal. lia.
  - subst after. fold state'.
    rewrite ProcessJustification_bitfield. now rewrite Hprev, Hthis.
  - subst after. fold state'.
    rewrite ProcessJustification_justified. now rewrite Hprev, Hthis.
Qed.

End Justification.



(** Balances of 32 units attesting out of 48: no product overflows, both
  epochs are justified. *)
Lemma ProcessJustification_bitfield_and_justified_epoch_witness :
let state := finalityState 767 9 10 3 9 in
is_uint64 (3 * 32) /\ is_uint64 (2 * 48)
/\ is_uint64 (3 * 32) /\ is_uint64 (2 * 48)
/\ Z.testbit (shl64 (BeaconState.JustificationBitfield state) 1) 0 = false
/\ (forall i, 0 <= i < 63 ->
      Z.testbit (shl64 (BeaconState.JustificationBitfield state) 1) (i + 1)
      = Z.testbit (BeaconState.JustificationBitfield state) i)
/\ BeaconState.JustificationBitfield
     (Epoch.ProcessJustification (helpers.CurrentEpoch 64)
        (helpers.PrevEpoch 64) state 32 32 48 48)
   = Z.lor
       (Z.lor (shl64 (BeaconState.JustificationBitfield state) 1)
          (if 2 * 48 <=? 3 * 32 then 2 else 0))
       (if 2 * 48 <=? 3 * 32 then 1 else 0)
/\ BeaconState.JustifiedEpoch
     (Epoch.ProcessJustification (helpers.CurrentEpoch 64)
        (helpers.PrevEpoch 64) state 32 32 48 48)
   = if 2 * 48 <=? 3 * 32 then helpers.CurrentEpoch 64 state
     else if 2 * 48 <=? 3 * 32 then helpers.PrevEpoch 64 state
          else BeaconState.JustifiedEpoch state.
Proof.
assert (H3 : is_uint64 (3 * 32)) by (unfold is_uint64, modulus64; lia).
assert (H2 : is_uint64 (2 * 48)) by (unfold is_uint64, modulus64; lia).
split; [exact H3|]. split; [exact H2|]. split; [exact H3|]. split; [exact H2|].
exact (ProcessJustification_bitfield_and_justified_epoch
         (helpers.CurrentEpoch 64) (helpers.PrevEpoch 64)
         (finalityState 767 9 10 3 9) 32 32 48 48 H3 H2 H3 H2).
Defined.

(** C6, counterexample.  With a current boundary attesting balance of
  6148914691236517206 and a current total balance of 2, three times the
  former is far above twice the latter, but the product wraps around to 2
  in 64 bits: bit 0 is not set and the current epoch is not taken as
  justified. *)
Lemma ProcessJustification_overflow_misses_justification :
let state := finalityState 767 9 10 3 9 in
let after :=
  Epoch.ProcessJustification (helpers.CurrentEpoch 64)
    (helpers.PrevEpoch 64) state 6148914691236517206 0 1 2 in
2 * 2 <= 3 * 6148914691236517206
/\ is_uint64 6148914691236517206
/\ Z.testbit (BeaconState.JustificationBitfield after) 0 = false
/\ BeaconState.JustifiedEpoch after = 10
/\ helpers.CurrentEpoch 64 state = 11.
Proof.
repeat split; try reflexivity; try (unfold modulus64; lia).
Qed.

End JustificationProps.

(** ** Eligibility of the validator registry update *)

Module RegistryProps.
Import pb Notions.

Section Registry.

Variable cfg : params.BeaconChainConfig.
Variable CurrentEpochCommitteeCount : BeaconState.t -> Z.

(** The loop started at [i] looks at the crosslinks of the shards
    [i mod ShardCount], ..., [(i + n - 1) mod ShardCount], and at no
    other. *)
Lemma registryLoop_true n i state :
  Epoch.registryLoop cfg n i state = Some true
  <-> forall k, 0 <= k < Z.of_nat n ->
        exists crosslink,
          BeaconState.LatestCrosslinks state
          !! Z.to_nat ((i + k) mod params.ShardCount cfg)
          = Some crosslink
          /\ BeaconState.ValidatorRegistryUpdateEpoch state
             < Crosslink.Epoch crosslink.
Proof.
  revert i. induction n as [|n IH]; intros i.
  - simpl. split; [intros _ k Hk; lia|reflexivity].
  - cbn [Epoch.registryLoop].
    destruct (BeaconState.LatestCrosslinks state !! _) as [c|] eqn:Hc.
    + destruct (Crosslink.Epoch c <=? _) eqn:Hle.
      * split; [discriminate|]. intros H.
        destruct (H 0 ltac:(lia)) as [c' [Hc' Hlt]].
        rewrite Z.add_0_r, Hc in Hc'. injection Hc' as <-.
        apply Z.leb_le in Hle. lia.
      * rewrite IH. apply Z.leb_gt in Hle. split.
        -- intros H k Hk. destruct (decide (k = 0)) as [->|Hk0].
           ++ rewrite Z.add_0_r. eauto.
           ++ destruct (H (k - 1) ltac:(lia)) as [c' Hc'].
              replace (i + 1 + (k - 1)) with (i + k) in Hc' by lia. eauto.
        -- intros H k Hk. destruct (H (k + 1) ltac:(lia)) as [c' Hc'].
           replace (i + (k + 1)) with (i + 1 + k) in Hc' by lia. eauto.
    + split; [discriminate|]. intros H.
      destruct (H 0 ltac:(lia)) as [c' [Hc' _]].
      rewrite Z.add_0_r, Hc in Hc'. discriminate.
Qed.

(** When the start shard is not below the number of shards to process,
    no crosslink is looked at. *)
Lemma CanProcessValidatorRegistry_start_beyond state :
  BeaconState.ValidatorRegistryUpdateEpoch state
  < BeaconState.FinalizedEpoch state ->
  mul64 (CurrentEpochCommitteeCount state) (params.SlotsPerEpoch cfg)
  <= BeaconState.CurrentShufflingStartShard state ->
  Epoch.CanProcessValidatorRegistry cfg CurrentEpochCommitteeCount state
  = Some true.
Proof.
  intros Hfin Hstart. unfold Epoch.CanProcessValidatorRegistry.
  apply Z.leb_gt in Hfin. rewrite Hfin.
  replace (Z.to_nat _) with O by lia. reflexivity.
Qed.

End Registry.

(** C8, at the failing input.  One committee per slot and 64 slots per
  epoch: 64 shards are to be looked at, those from the start shard 64 on.
  The finalized epoch 2 is past the last registry update of epoch 1, and
  every crosslink is of epoch 0, so none of the shards 64, ..., 127 has a
  crosslink newer than the registry update; yet
  [CanProcessValidatorRegistry] answers true, its loop running from the
  start shard up to the number of shards, an empty range. *)
Theorem CanProcessValidatorRegistry_start_shard_skips_check :
let state := registryState 2 1 64 staleCrosslinks in
Epoch.CanProcessValidatorRegistry mainnet (fun _ => 1) state = Some true
/\ BeaconState.ValidatorRegistryUpdateEpoch state
   < BeaconState.FinalizedEpoch state
/\ (forall i, 0 <= i < 1 * params.SlotsPerEpoch mainnet ->
      exists crosslink,
        BeaconState.LatestCrosslinks state
        !! Z.to_nat ((BeaconState.CurrentShufflingStartShard state + i)
                     mod params.ShardCount mainnet)
        = Some crosslink
        /\ Crosslink.Epoch crosslink
           <= BeaconState.ValidatorRegistryUpdateEpoch state).
Proof.
intros state. split; [reflexivity|]. split; [reflexivity|].
intros i Hi. exists {| Crosslink.Epoch := 0;
                       Crosslink.CrosslinkDataRootHash32 := [] |}.
split; [|simpl; lia].
subst state. cbn [BeaconState.LatestCrosslinks registryState
                    BeaconState.CurrentShufflingStartShard].
unfold staleCrosslinks. apply lookup_replicate_2.
change (params.ShardCount mainnet) with 1024.
change (params.SlotsPerEpoch mainnet) with 64 in Hi.
pose proof (Z.mod_pos_bound (64 + i) 1024 ltac:(lia)). lia.
Qed.

End RegistryProps.

(** ** Boundary attestations of the current epoch *)

Module BoundaryProps.
Import pb Notions.

Section Boundary.

Variable E : Type.
Variable BlockRoot : BeaconState.t -> Z -> result E (list byte).
Variable state : BeaconState.t.

(** The test an attestation has to pass once the block root of
    [boundarySlot] is known. *)
Let kept (root : list byte) (attestation : PendingAttestation.t) : bool :=
  bool_decide
    (AttestationData.JustifiedBlockRootHash32
       (PendingAttestation.Data attestation) = root)
  && (AttestationData.JustifiedEpoch (PendingAttestation.Data attestation)
      =? BeaconState.JustifiedEpoch state).

Lemma boundaryLoop_found boundarySlot root attestations acc :
  BlockRoot state boundarySlot = Ok root ->
  Epoch.boundaryLoop BlockRoot state boundarySlot attestations acc
  = Ok (acc ++ List.filter (kept root) attestations).
Proof.
  intros Hroot. revert acc.
  induction attestations as [|a rest IH]; intros acc; simpl.
  - now rewrite app_nil_r.
  - rewrite Hroot. simpl. rewrite IH. fold (kept root a).
    destruct (kept root a); [|reflexivity].
    now rewrite <- app_assoc.
Qed.

(** [CurrentBoundaryAttestations] keeps the attestations whose
    [JustifiedBlockRootHash32] is the block root of slot 0 and whose
    justified epoch is the state's; it reads neither
    [EpochBoundaryRootHash32] nor the slot of the state. *)
Lemma CurrentBoundaryAttestations_found root attestations :
  BlockRoot state 0 = Ok root ->
  Epoch.CurrentBoundaryAttestations BlockRoot state attestations
  = Ok (List.filter (kept root) attestations).
Proof.
  intros Hroot. unfold Epoch.CurrentBoundaryAttestations.
  now rewrite (boundaryLoop_found 0 root attestations [] Hroot).
Qed.

End Boundary.

(** C7, at the failing input.  The state is at slot 100, in epoch 1, whose
  first slot is 64; the block roots of slots 0 to 63 are "a", those of
  slots 64 to 99 are "b".  The first attestation, of slot 70, names "b" as
  its epoch boundary root and the state's justified epoch: it belongs to
  the boundary set of the specification, and [CurrentBoundaryAttestations]
  drops it.  The second names another epoch boundary root, "x": it does
  not belong to that set, and [CurrentBoundaryAttestations] keeps it,
  because its justified block root is the block root of slot 0. *)
Theorem CurrentBoundaryAttestations_misses_epoch_boundary_root :
let state :=
  rootsState 100 (replicate 64 ["a"%byte] ++ replicate 36 ["b"%byte]) in
let first := attestation 70 0 ["b"%byte] ["j"%byte] [] in
let second := attestation 70 0 ["x"%byte] ["a"%byte] [] in
helpers.SlotToEpoch 64 (AttestationData.Slot (PendingAttestation.Data first))
= helpers.CurrentEpoch 64 state
/\ blocks.BlockRoot state
     (helpers.StartSlot 64 (helpers.CurrentEpoch 64 state))
   = Ok ["b"%byte]
/\ AttestationData.EpochBoundaryRootHash32 (PendingAttestation.Data first)
   = ["b"%byte]
/\ AttestationData.JustifiedEpoch (PendingAttestation.Data first)
   = BeaconState.JustifiedEpoch state
/\ AttestationData.EpochBoundaryRootHash32 (PendingAttestation.Data second)
   <> ["b"%byte]
/\ Epoch.CurrentBoundaryAttestations blocks.BlockRoot state [first; second]
   = Ok [second].
Proof.
intros state first second.
split; [reflexivity|]. split; [reflexivity|]. split; [reflexivity|].
split; [reflexivity|]. split; [discriminate|].
rewrite (CurrentBoundaryAttestations_found _ _ _ ["a"%byte]) by reflexivity.
reflexivity.
Qed.

End BoundaryProps.

(** ** The winning root of a shard *)

Module WinningProps.
Import pb Notions.

Section Order.

Lemma to_N_inj a b : Byte.to_N a = Byte.to_N b -> a = b.
Proof.
  intros H. pose proof (Byte.of_to_N a) as Ha.
  rewrite H, Byte.of_to_N in Ha. congruence.
Qed.

Lemma LowerThan_nil_r x : bytesutil.LowerThan x [] = false.
Proof. now destruct x. Qed.

Lemma LowerThan_irrefl x : bytesutil.LowerThan x x = false.
Proof.
  induction x as [|a x IH]; [reflexivity|]. simpl.
  now rewrite N.ltb_irrefl.
Qed.

Lemma LowerThan_trans x y z :
  bytesutil.LowerThan x y = true ->
  bytesutil.LowerThan y z = true ->
  bytesutil.LowerThan x z = true.
Proof.
  revert y z. induction x as [|a x IH]; intros [|b y] [|c z]; simpl;
    try discriminate; try reflexivity.
  destruct (N.ltb_spec (Byte.to_N a) (Byte.to_N b)) as [Hab|Hab];
    destruct (N.ltb_spec (Byte.to_N b) (Byte.to_N c)) as [Hbc|Hbc];
    destruct (N.ltb_spec (Byte.to_N a) (Byte.to_N c)) as [Hac|Hac];
    try reflexivity; try lia;
    destruct (N.ltb_spec (Byte.to_N b) (Byte.to_N a)) as [Hba|Hba];
    destruct (N.ltb_spec (Byte.to_N c) (Byte.to_N b)) as [Hcb|Hcb];
    destruct (N.ltb_spec (Byte.to_N c) (Byte.to_N a)) as [Hca|Hca];
    try discriminate; try lia.
  apply IH.
Qed.

Lemma LowerThan_total x y :
  bytesutil.LowerThan x y = false ->
  bytesutil.LowerThan y x = false ->
  x = y.
Proof.
  revert y. induction x as [|a x IH]; intros [|b y]; simpl;
    try discriminate; try reflexivity.
  destruct (N.ltb_spec (Byte.to_N a) (Byte.to_N b)) as [Hab|Hab];
    [discriminate|].
  destruct (N.ltb_spec (Byte.to_N b) (Byte.to_N a)) as [Hba|Hba];
    [discriminate|].
  intros H1 H2. f_equal; [apply to_N_inj; lia|now apply IH].
Qed.

End Order.

Section Pick.

(** The attesting balance of every root. *)
Variable B : list byte -> Z.

Lemma pickStep_picked seen winner c :
  0 <= B c ->
  picked B seen winner ->
  picked B (seen ++ [c]) (pickStep B winner c).
Proof.
  intros Hc [[Hb [Hr Hzero]]|[Hpos [Hin [Hbal Hmax]]]];
    destruct winner as [wb wr]; simpl in *; subst; unfold pickStep; simpl.
  - rewrite LowerThan_nil_r, andb_false_r, orb_false_r.
    destruct (Z.gtb_spec (B c) 0) as [Hgt|Hle].
    + right. simpl. split; [lia|]. split; [apply in_or_app; right; now left|].
      split; [reflexivity|]. intros c' Hc'. apply in_app_or in Hc' as [Hc'|[<-|[]]].
      * rewrite (Hzero _ Hc'). split; [lia|]. intros; lia.
      * split; [lia|]. intros _. apply LowerThan_irrefl.
    + left. simpl. split; [reflexivity|]. split; [reflexivity|].
      intros c' Hc'. apply in_app_or in Hc' as [Hc'|[<-|[]]]; [auto|lia].
  - destruct (Z.gtb_spec (B c) (B wr)) as [Hgt|Hle]; simpl.
    + right. simpl. split; [lia|]. split; [apply in_or_app; right; now left|].
      split; [reflexivity|]. intros c' Hc'. apply in_app_or in Hc' as [Hc'|[<-|[]]].
      * destruct (Hmax _ Hc') as [Hle' _]. split; [lia|]. intros; lia.
      * split; [lia|]. intros _. apply LowerThan_irrefl.
    + destruct (Z.eqb_spec (B c) (B wr)) as [Heq|Hne]; simpl.
      * destruct (bytesutil.LowerThan c wr) eqn:Hlow.
        -- right. simpl. split; [lia|].
           split; [apply in_or_app; right; now left|].
           split; [reflexivity|]. intros c' Hc'.
           apply in_app_or in Hc' as [Hc'|[<-|[]]].
           ++ destruct (Hmax _ Hc') as [Hle' Htie]. split; [lia|].
              intros Heq'. destruct (bytesutil.LowerThan c' c) eqn:Hlow';
                [|reflexivity].
              rewrite (LowerThan_trans _ _ _ Hlow' Hlow) in Htie.
              assert (false = true) by (symmetry; apply Htie; lia).
              discriminate.
           ++ split; [lia|]. intros _. apply LowerThan_irrefl.
        -- right. simpl. split; [lia|].
           split; [apply in_or_app; now left|].
           split; [reflexivity|]. intros c' Hc'.
           apply in_app_or in Hc' as [Hc'|[<-|[]]]; [auto|].
           split; [lia|]. intros _. exact Hlow.
      * right. simpl. split; [lia|].
        split; [apply in_or_app; now left|].
        split; [reflexivity|]. intros c' Hc'.
        apply in_app_or in Hc' as [Hc'|[<-|[]]]; [auto|].
        split; [lia|]. intros; lia.
Qed.

Lemma pick_picked candidates seen winner :
  (forall c, In c candidates -> 0 <= B c) ->
  picked B seen winner ->
  picked B (seen ++ candidates) (fold_left (pickStep B) candidates winner).
Proof.
  revert seen winner.
  induction candidates as [|c rest IH]; intros seen winner Hnn Hp.
  - simpl. now rewrite app_nil_r.
  - simpl. replace (seen ++ c :: rest) with ((seen ++ [c]) ++ rest)
      by now rewrite <- app_assoc.
    apply IH.
    + intros c' Hc'. apply Hnn. now right.
    + apply pickStep_picked; [apply Hnn; now left|exact Hp].
Qed.

Lemma pick_isWinner candidates :
  (forall c, In c candidates -> 0 <= B c) ->
  (exists c, In c candidates /\ 0 < B c) ->
  isWinner B candidates (snd (fold_left (pickStep B) candidates (0, []))).
Proof.
  intros Hnn [c0 [Hin0 Hpos0]].
  assert (Hstart : picked B [] (0, [])) by (left; simpl; tauto).
  destruct (pick_picked candidates [] (0, []) Hnn Hstart) as
    [[Hb [_ Hzero]]|[Hpos [Hin [Hbal Hmax]]]].
  - simpl in Hzero. rewrite (Hzero _ Hin0) in Hpos0. lia.
  - simpl in Hin, Hmax. set (w := fold_left (pickStep B) candidates (0, [])) in *.
    split; [exact Hin|]. split.
    + intros c Hc. rewrite Hbal. apply Hmax, Hc.
    + intros c Hc Heq Hne.
      destruct (bytesutil.LowerThan (snd w) c) eqn:Hlow; [reflexivity|].
      exfalso. apply Hne. apply LowerThan_total; [|exact Hlow].
      apply Hmax; [exact Hc|]. now rewrite Heq.
Qed.

Lemma isWinner_unique candidates candidates' r r' :
  (forall c, In c candidates <-> In c candidates') ->
  isWinner B candidates r -> isWinner B candidates' r' -> r = r'.
Proof.
  intros Hsame [Hin [Hmax Hlow]] [Hin' [Hmax' Hlow']].
  apply Hsame in Hin as Hin2. apply Hsame in Hin' as Hin2'.
  pose proof (Hmax _ Hin2'). pose proof (Hmax' _ Hin2).
  destruct (decide (r = r')) as [|Hne]; [assumption|].
  assert (H1 : bytesutil.LowerThan r r' = true)
    by (apply Hlow; [assumption|lia|congruence]).
  assert (H2 : bytesutil.LowerThan r' r = true)
    by (apply Hlow'; [assumption|lia|congruence]).
  pose proof (LowerThan_trans _ _ _ H1 H2) as H3.
  rewrite LowerThan_irrefl in H3. discriminate.
Qed.

End Pick.


Section WinningRoot.

Variable E : Type.
Variable AttestingValidatorIndices :
  BeaconState.t -> Z -> list byte ->
  list PendingAttestation.t -> list PendingAttestation.t -> result E (list Z).
Variable EffectiveBalance : BeaconState.t -> Z -> Z.
Variable state : BeaconState.t.
Variable shard : Z.

Lemma balance_sum_nonneg (indices : list Z) :
  0 <= fold_left
         (fun rootBalance index =>
            add64 rootBalance (EffectiveBalance state index))
         indices 0.
Proof.
  assert (H : forall acc, 0 <= acc ->
              0 <= fold_left
                     (fun rootBalance index =>
                        add64 rootBalance (EffectiveBalance state index))
                     indices acc).
  { induction indices as [|i rest IH]; intros acc Hacc; simpl; [exact Hacc|].
    apply IH. apply wrap64_range. }
  apply H. lia.
Qed.

Lemma attestingBalance_nonneg current prev root b :
  attestingBalance AttestingValidatorIndices EffectiveBalance state shard
    current prev root = Ok b ->
  0 <= b.
Proof.
  unfold attestingBalance.
  destruct (AttestingValidatorIndices state shard root current prev)
    as [indices|e]; simpl; [|discriminate].
  intros H. injection H as <-. apply balance_sum_nonneg.
Qed.

(** While every candidate has an attesting balance, the loop of
    [winningRoot] is the fold of [pickStep]. *)
Lemma winnerLoop_pick B current prev candidates winnerBalance winnerRoot :
  (forall c, In c candidates ->
     attestingBalance AttestingValidatorIndices EffectiveBalance state shard
       current prev c = Ok (B c)) ->
  Epoch.winnerLoop AttestingValidatorIndices EffectiveBalance state shard
    current prev candidates winnerBalance winnerRoot
  = Ok (snd (fold_left (pickStep B) candidates (winnerBalance, winnerRoot))).
Proof.
  revert winnerBalance winnerRoot.
  induction candidates as [|c rest IH]; intros wb wr Hbal; [reflexivity|].
  assert (Hc := Hbal c (or_introl eq_refl)).
  unfold attestingBalance in Hc. cbn [Epoch.winnerLoop fold_left].
  destruct (AttestingValidatorIndices state shard c current prev)
    as [indices|e]; simpl in Hc |- *; [|discriminate].
  injection Hc as Hc. rewrite Hc. unfold pickStep at 2. simpl.
  destruct ((B c >? wb) || (B c =? wb) && bytesutil.LowerThan c wr);
    apply IH; intros c' Hc'; apply Hbal; now right.
Qed.

Lemma winningRoot_isWinner B current prev :
  (forall c, In c (Epoch.candidateRootsOf shard (current ++ prev)) ->
     attestingBalance AttestingValidatorIndices EffectiveBalance state shard
       current prev c = Ok (B c)) ->
  (exists c, In c (Epoch.candidateRootsOf shard (current ++ prev))
             /\ 0 < B c) ->
  exists r,
    Epoch.winningRoot AttestingValidatorIndices EffectiveBalance state shard
      current prev = Ok r
    /\ isWinner B (Epoch.candidateRootsOf shard (current ++ prev)) r.
Proof.
  intros Hbal Hpos. unfold Epoch.winningRoot.
  rewrite (winnerLoop_pick B) by exact Hbal.
  eexists. split; [reflexivity|].
  apply pick_isWinner; [|exact Hpos].
  intros c Hc. eapply attestingBalance_nonneg. apply Hbal, Hc.
Qed.

(** C5, as amended.  When one of the candidate roots of the shard has a
    positive attesting balance, [winningRoot] returns a candidate root of
    highest attesting balance (the balance being the sum on [uint64] the
    function computes), among the candidates of that balance the
    lexicographically lowest; and it returns the same root for any other
    pair of attestation lists that gives the same set of candidates with
    the same balances, whatever their order. *)
Theorem winningRoot_highest_balance_lowest_root
  (B : list byte -> Z) (current prev : list PendingAttestation.t) :
  (forall c, In c (Epoch.candidateRootsOf shard (current ++ prev)) ->
     attestingBalance AttestingValidatorIndices EffectiveBalance state shard
       current prev c = Ok (B c)) ->
  (exists c, In c (Epoch.candidateRootsOf shard (current ++ prev))
             /\ 0 < B c) ->
  exists r,
    Epoch.winningRoot AttestingValidatorIndices EffectiveBalance state shard
      current prev = Ok r
    /\ In r (Epoch.candidateRootsOf shard (current ++ prev))
    /\ (forall c, In c (Epoch.candidateRootsOf shard (current ++ prev)) ->
          B c <= B r)
    /\ (forall c, In c (Epoch.candidateRootsOf shard (current ++ prev)) ->
          B c = B r -> c <> r -> bytesutil.LowerThan r c = true)
    /\ (forall current' prev',
          (forall c,
             In c (Epoch.candidateRootsOf shard (current' ++ prev'))
             <-> In c (Epoch.candidateRootsOf shard (current ++ prev))) ->
          (forall c,
             In c (Epoch.candidateRootsOf shard (current' ++ prev')) ->
             attestingBalance AttestingValidatorIndices EffectiveBalance
               state shard current' prev' c = Ok (B c)) ->
          Epoch.winningRoot AttestingValidatorIndices EffectiveBalance state
            shard current' prev' = Ok r).
Proof.
  intros Hbal Hpos.
  destruct (winningRoot_isWinner B current prev Hbal Hpos) as [r [Hr Hw]].
  exists r. split; [exact Hr|].
  destruct Hw as [Hin [Hmax Hlow]].
  split; [exact Hin|]. split; [exact Hmax|]. split; [exact Hlow|].
  intros current' prev' Hsame Hbal'.
  destruct (winningRoot_isWinner B current' prev' Hbal') as [r' [Hr' Hw']].
  - destruct Hpos as [c [Hc Hcpos]]. exists c. split; [|exact Hcpos].
    now apply Hsame.
  - rewrite Hr'. f_equal.
    apply (isWinner_unique B _ _ r' r Hsame Hw').
    split; [exact Hin|]. split; [exact Hmax|exact Hlow].
Qed.

End WinningRoot.

(** Two roots, 01 and 02, attested on shard 3 with the same balance of 32:
  the hypotheses of the theorem hold, and the root 01 wins although the
  root 02 comes first in the lists. *)
Lemma winningRoot_highest_balance_lowest_root_witness :
let indices := fun (_ : BeaconState.t) (_ : Z) (_ : list byte)
                   (_ _ : list PendingAttestation.t) =>
                 Ok (E := unit) [0] in
let balance := fun (_ : BeaconState.t) (_ : Z) => 32 in
let B := fun _ : list byte => 32 in
let current := [attestation 70 3 [] [] [x02]; attestation 70 3 [] [] [x01]] in
let prev := [attestation 6 3 [] [] [x02]] in
(forall c, In c (Epoch.candidateRootsOf 3 (current ++ prev)) ->
   attestingBalance indices balance emptyState 3 current prev c = Ok (B c))
/\ (exists c, In c (Epoch.candidateRootsOf 3 (current ++ prev)) /\ 0 < B c)
/\ Epoch.winningRoot indices balance emptyState 3 current prev = Ok [x01]
/\ exists r,
    Epoch.winningRoot indices balance emptyState 3 current prev = Ok r
    /\ In r (Epoch.candidateRootsOf 3 (current ++ prev))
    /\ (forall c, In c (Epoch.candidateRootsOf 3 (current ++ prev)) ->
          B c <= B r)
    /\ (forall c, In c (Epoch.candidateRootsOf 3 (current ++ prev)) ->
          B c = B r -> c <> r -> bytesutil.LowerThan r c = true)
    /\ (forall current' prev',
          (forall c,
             In c (Epoch.candidateRootsOf 3 (current' ++ prev'))
             <-> In c (Epoch.candidateRootsOf 3 (current ++ prev))) ->
          (forall c,
             In c (Epoch.candidateRootsOf 3 (current' ++ prev')) ->
             attestingBalance indices balance emptyState 3 current' prev' c
             = Ok (B c)) ->
          Epoch.winningRoot indices balance emptyState 3 current' prev'
          = Ok r).
Proof.
intros indices balance B current prev.
assert (H1 : forall c, In c (Epoch.candidateRootsOf 3 (current ++ prev)) ->
               attestingBalance indices balance emptyState 3 current prev c
               = Ok (B c)) by (intros c _; reflexivity).
assert (H2 : exists c, In c (Epoch.candidateRootsOf 3 (current ++ prev))
                       /\ 0 < B c)
  by (exists [x02]; split; [left; reflexivity|reflexivity]).
split; [exact H1|]. split; [exact H2|]. split; [reflexivity|].
exact (winningRoot_highest_balance_lowest_root unit indices balance
         emptyState 3 B current prev H1 H2).
Defined.

(** C5, counterexample.  One attestation on shard 3, for the root 01, whose
  single attester has an effective balance of 0: the root 01 is the only
  candidate, hence the one of highest attesting balance, and [winningRoot]
  returns the nil root, which is no candidate. *)
Lemma winningRoot_zero_balance_returns_nil :
let indices := fun (_ : BeaconState.t) (_ : Z) (_ : list byte)
                   (_ _ : list PendingAttestation.t) =>
                 Ok (E := unit) [0] in
let balance := fun (_ : BeaconState.t) (_ : Z) => 0 in
let current := [attestation 70 3 [] [] [x01]] in
Epoch.candidateRootsOf 3 (current ++ []) = [[x01]]
/\ attestingBalance indices balance emptyState 3 current [] [x01] = Ok 0
/\ Epoch.winningRoot indices balance emptyState 3 current [] = Ok []
/\ ~ In [] (Epoch.candidateRootsOf 3 (current ++ [])).
Proof.
repeat split; try reflexivity.
intros [H|[]]. discriminate H.
Qed.

End WinningProps.

(** ** The earlier revision of the epoch package *)

Module EarlyProps.
Import pb Notions.

Section Early.

Variable cfg : params.BeaconChainConfig.
Variable CurrentEpoch NextEpoch : BeaconState.t -> Z.
Variable CurrentEpochCommitteeCount : BeaconState.t -> Z.

(** [ProcessFinalization] leaves the finalized epoch or moves it to the
    justified epoch. *)
Lemma early_ProcessFinalization_finalized state :
  BeaconState.FinalizedEpoch (EpochEarly.ProcessFinalization CurrentEpoch state)
  = BeaconState.FinalizedEpoch state
  \/ BeaconState.FinalizedEpoch
       (EpochEarly.ProcessFinalization CurrentEpoch state)
     = BeaconState.JustifiedEpoch state.
Proof.
  unfold EpochEarly.ProcessFinalization.
  repeat match goal with
         | |- context [if ?c then _ else _] => destruct c
         end; cbn; auto.
Qed.

Lemma early_ProcessFinalization_monotone state :
  BeaconState.FinalizedEpoch state <= BeaconState.JustifiedEpoch state ->
  BeaconState.FinalizedEpoch state
  <= BeaconState.FinalizedEpoch
       (EpochEarly.ProcessFinalization CurrentEpoch state).
Proof.
  intros H. destruct (early_ProcessFinalization_finalized state) as [->| ->];
    lia.
Qed.

(** The justification pass of the earlier revision tests both boundary
    balances against the one total balance and leaves the finalized epoch
    alone. *)
Lemma early_ProcessJustification_finalized state this prev total :
  BeaconState.FinalizedEpoch
    (EpochEarly.ProcessJustification CurrentEpoch state this prev total)
  = BeaconState.FinalizedEpoch state.
Proof.
  unfold EpochEarly.ProcessJustification.
  destruct (mul64 3 prev >=? mul64 2 total);
    destruct (mul64 3 this >=? mul64 2 total); reflexivity.
Qed.

Lemma early_ProcessJustification_bitfield state this prev total :
  BeaconState.JustificationBitfield
    (EpochEarly.ProcessJustification CurrentEpoch state this prev total)
  = Z.lor
      (Z.lor (mul64 (BeaconState.JustificationBitfield state) 2)
         (if mul64 3 prev >=? mul64 2 total then 2 else 0))
      (if mul64 3 this >=? mul64 2 total then 1 else 0).
Proof.
  unfold EpochEarly.ProcessJustification.
  destruct (mul64 3 prev >=? mul64 2 total);
    destruct (mul64 3 this >=? mul64 2 total); cbn;
    now rewrite ?Z.lor_0_r.
Qed.

(** The registry test of the earlier revision runs the same loop, from the
    start shard up to the number of shards. *)
Lemma early_CanProcessValidatorRegistry_start_beyond state :
  BeaconState.ValidatorRegistryUpdateEpoch state
  < BeaconState.FinalizedEpoch state ->
  mul64 (CurrentEpochCommitteeCount state) (params.EpochLength cfg)
  <= BeaconState.CurrentShufflingStartShard state ->
  EpochEarly.CanProcessValidatorRegistry cfg CurrentEpochCommitteeCount state
  = Some true.
Proof.
  intros Hfin Hstart. unfold EpochEarly.CanProcessValidatorRegistry.
  apply Z.leb_gt in Hfin. rewrite Hfin.
  replace (Z.to_nat _) with O by lia. reflexivity.
Qed.

(** The eth1-data pass of the earlier revision clears the votes at the end
    of a voting period and does nothing in between. *)
Lemma early_ProcessEth1Data_votes state :
  BeaconState.Eth1DataVotes (EpochEarly.ProcessEth1Data cfg NextEpoch state)
  = if EpochEarly.CanProcessEth1Data cfg NextEpoch state then []
    else BeaconState.Eth1DataVotes state.
Proof.
  unfold EpochEarly.ProcessEth1Data, EpochEarly.CanProcessEth1Data.
  destruct (NextEpoch state mod _ =? 0); reflexivity.
Qed.

End Early.

End EarlyProps.
(** ** The deposit trie after any number of deposits *)

Module TrieInvariant.
Import Notions TrieNotions.

Section Trie.

Variable Hash : list byte -> list byte.

Lemma above_step x j : 0 <= x -> above x j <-> j = x / 2 \/ above (x / 2) j.
Proof.
  intros Hx. split.
  - intros [i [Hi ->]]. destruct i as [|i]; [lia|].
    destruct i as [|i].
    + left. reflexivity.
    + right. exists (S i). split; [lia|].
      rewrite (TrieProps.pow2_succ (S i)), Z.div_div by
        (try lia; apply Z.pow_pos_nonneg; lia).
      reflexivity.
  - intros [->|[i [Hi ->]]].
    + exists 1%nat. split; [lia|]. reflexivity.
    + exists (S i). split; [lia|].
      rewrite (TrieProps.pow2_succ i), Z.div_div by
        (try lia; apply Z.pow_pos_nonneg; lia).
      reflexivity.
Qed.

Lemma updateLoop_lookup_above (n : nat) : forall idx m key,
  0 <= idx -> idx / 2 < key ->
  Trie.updateLoop Hash n idx m !! key = m !! key.
Proof.
  induction n as [|n IH]; intros idx m key Hidx Hkey; [reflexivity|].
  cbn [Trie.updateLoop]. rewrite IH.
  - apply lookup_insert_ne. lia.
  - apply Z.div_pos; lia.
  - assert (idx / 2 / 2 <= idx / 2) by (apply Z.div_le_upper_bound; lia || (pose proof (Z.div_pos idx 2); lia)).
    lia.
Qed.

Lemma updateLoop_is_Some (n : nat) : forall idx m key,
  is_Some (m !! key) -> is_Some (Trie.updateLoop Hash n idx m !! key).
Proof.
  induction n as [|n IH]; intros idx m key Hkey; [exact Hkey|].
  cbn [Trie.updateLoop]. apply IH.
  destruct (decide (idx / 2 = key)) as [->|Hne].
  - rewrite lookup_insert_eq. eauto.
  - now rewrite lookup_insert_ne.
Qed.

Lemma children_small idx :
  0 <= idx < modulus64 ->
  mul64 (idx / 2) 2 = 2 * (idx / 2)
  /\ add64 (mul64 (idx / 2) 2) 1 = 2 * (idx / 2) + 1.
Proof.
  intros Hidx.
  pose proof (Z.div_mod idx 2 ltac:(lia)) as Hdm.
  pose proof (Z.mod_pos_bound idx 2 ltac:(lia)) as Hm.
  assert (Heven : Z.even modulus64 = true) by reflexivity.
  assert (Hmod2 : modulus64 = 2 * (modulus64 / 2)) by reflexivity.
  assert (H1 : mul64 (idx / 2) 2 = 2 * (idx / 2)).
  { unfold mul64. rewrite wrap64_small; [lia|]. unfold is_uint64. lia. }
  split; [exact H1|]. rewrite H1. unfold add64.
  apply wrap64_small. unfold is_uint64. lia.
Qed.

(** The loop of [UpdateDepositTrie] rewrites the nodes above [idx] from
    the bottom up; once it has reached a node, every written node below
    the bound [L] that is not above that node holds the hash of its
    children, if this was so before for the nodes not above [idx]. *)
Lemma updateLoop_hashOfChildren (L : Z) (n : nat) : forall idx m,
  2 ^ Z.of_nat n <= idx < modulus64 ->
  (forall j, 1 <= j < L -> ~ above idx j -> is_Some (m !! j) ->
             hashOfChildren Hash m j) ->
  forall j, 1 <= j < L -> ~ above (idx / 2 ^ Z.of_nat n) j ->
    is_Some (Trie.updateLoop Hash n idx m !! j) ->
    hashOfChildren Hash (Trie.updateLoop Hash n idx m) j.
Proof.
  induction n as [|n IH]; intros idx m Hidx Hm j Hj Habove Hsome.
  - cbn [Trie.updateLoop] in *. change (2 ^ Z.of_nat 0) with 1 in Habove.
    rewrite Z.div_1_r in Habove. now apply Hm.
  - cbn [Trie.updateLoop] in *.
    assert (Hpos : 0 < 2 ^ Z.of_nat n) by (apply Z.pow_pos_nonneg; lia).
    rewrite TrieProps.pow2_succ in Hidx.
    destruct (children_small idx ltac:(lia)) as [Hl Hr].
    rewrite Hl, Hr in *.
    assert (Hhalf : 2 ^ Z.of_nat n <= idx / 2 < modulus64).
    { split; [apply Z.div_le_lower_bound; lia|].
      apply Z.div_lt_upper_bound; lia. }
    set (m1 := <[idx / 2 := Hash (Trie.at_key m (2 * (idx / 2))
                                 ++ Trie.at_key m (2 * (idx / 2) + 1))]> m) in *.
    apply (IH (idx / 2) m1); try assumption.
    + clear j Hj Habove Hsome. intros j Hj Habove Hsome.
      assert (Hch : 2 * j <> idx / 2 /\ 2 * j + 1 <> idx / 2).
      { split; intros Heq; apply Habove; exists 1%nat; (split; [lia|]);
          change (2 ^ Z.of_nat 1) with 2; rewrite <- Heq.
        - now rewrite Z.mul_comm, Z.div_mul by lia.
        - rewrite Z.mul_comm, Z.div_add_l by lia. change (1 / 2) with 0. lia. }
      destruct Hch as [Hc1 Hc2].
      unfold hashOfChildren, Trie.at_key. subst m1.
      rewrite !(lookup_insert_ne _ _ (2 * j)), !(lookup_insert_ne _ _ (2 * j + 1))
        by congruence.
      destruct (decide (idx / 2 = j)) as [<-|Hne].
      * now rewrite lookup_insert_eq.
      * rewrite lookup_insert_ne in * by exact Hne.
        apply Hm; [exact Hj| |exact Hsome].
        intros Hab. apply above_step in Hab; [|lia].
        destruct Hab as [->|Hab]; [now apply Hne|now apply Habove].
    + rewrite TrieProps.pow2_succ in Habove.
      rewrite <- Z.div_div in Habove by lia. exact Habove.
Qed.


Lemma updateLoop_written (n : nat) : forall idx m (i : nat),
  (1 <= i <= n)%nat ->
  is_Some (Trie.updateLoop Hash n idx m !! (idx / 2 ^ Z.of_nat i)).
Proof.
  induction n as [|n IH]; intros idx m i Hi; [lia|].
  cbn [Trie.updateLoop]. destruct i as [|i]; [lia|].
  destruct i as [|i].
  - apply updateLoop_is_Some. change (2 ^ Z.of_nat 1) with 2.
    rewrite lookup_insert_eq. eauto.
  - rewrite (TrieProps.pow2_succ (S i)).
    rewrite <- Z.div_div by (try lia; apply Z.pow_pos_nonneg; lia).
    apply IH. lia.
Qed.

(** A trie of depth [d]. *)
Variable d : nat.
Hypothesis d_range : (d <= 63)%nat.

Let D : Z := Z.of_nat d.

Lemma twoToPower_depth : Trie.twoToPowerOfTreeDepth D = 2 ^ D.
Proof.
  unfold Trie.twoToPowerOfTreeDepth, shl64.
  rewrite Z.shiftl_1_l. apply wrap64_small.
  pose proof (TrieProps.pow2_lt_modulus d ltac:(lia)). unfold is_uint64, D. lia.
Qed.

Lemma pow2_depth_bounds : 1 <= 2 ^ D /\ 2 * 2 ^ D <= modulus64.
Proof.
  unfold D. split.
  - pose proof (TrieProps.pow2_lt_modulus d ltac:(lia)). lia.
  - assert (2 ^ Z.of_nat d <= 2 ^ 63) by (apply Z.pow_le_mono_r; lia).
    unfold modulus64. lia.
Qed.

Lemma insertAll_snoc deposits depositData :
  Trie.insertAll Hash D (deposits ++ [depositData])
  = Trie.UpdateDepositTrie Hash D (Trie.insertAll Hash D deposits) depositData.
Proof. unfold Trie.insertAll. now rewrite fold_left_app. Qed.

Lemma depositCount_insertAll deposits :
  Trie.depositCount (Trie.insertAll Hash D deposits)
  = wrap64 (Z.of_nat (length deposits)).
Proof.
  induction deposits as [|x l IH] using rev_ind; [reflexivity|].
  rewrite insertAll_snoc. cbn [Trie.UpdateDepositTrie Trie.depositCount].
  rewrite IH, length_app. cbn [length]. unfold add64, wrap64.
  rewrite Zplus_mod_idemp_l. f_equal. lia.
Qed.

(** The node the next deposit is written to. *)
Lemma next_index deposits :
  Z.of_nat (length deposits) < 2 ^ D ->
  add64 (Trie.depositCount (Trie.insertAll Hash D deposits))
        (Trie.twoToPowerOfTreeDepth D)
  = 2 ^ D + Z.of_nat (length deposits).
Proof.
  intros Hlen. destruct pow2_depth_bounds as [Hlo Hhi].
  rewrite depositCount_insertAll, twoToPower_depth.
  rewrite wrap64_small by (unfold is_uint64; lia).
  unfold add64. rewrite wrap64_small by (unfold is_uint64; lia). lia.
Qed.

Lemma insertAll_snoc_map deposits depositData :
  Z.of_nat (length deposits) < 2 ^ D ->
  Trie.merkleHashes (Trie.insertAll Hash D (deposits ++ [depositData]))
  = Trie.updateLoop Hash d (2 ^ D + Z.of_nat (length deposits))
      (<[2 ^ D + Z.of_nat (length deposits) := Hash depositData]>
         (Trie.merkleHashes (Trie.insertAll Hash D deposits))).
Proof.
  intros Hlen. rewrite insertAll_snoc.
  cbn [Trie.UpdateDepositTrie Trie.merkleHashes].
  rewrite !next_index by exact Hlen. unfold D. now rewrite Nat2Z.id.
Qed.

Lemma leaf_above_update (n : Z) key :
  0 <= n < 2 ^ D -> 2 ^ D <= key -> (2 ^ D + n) / 2 < key.
Proof.
  intros Hn Hkey. apply Z.div_lt_upper_bound; lia.
Qed.

(** The leaves after any number of deposits that fit the trie: deposit
    [i] is found, hashed, at node [2 ^ D + i]; no leaf beyond the last
    deposit is written. *)
Lemma insertAll_leaves deposits :
  Z.of_nat (length deposits) <= 2 ^ D ->
  (forall (i : nat) depositData, deposits !! i = Some depositData ->
     Trie.merkleHashes (Trie.insertAll Hash D deposits)
       !! (2 ^ D + Z.of_nat i) = Some (Hash depositData))
  /\ (forall key, 2 ^ D + Z.of_nat (length deposits) <= key ->
        Trie.merkleHashes (Trie.insertAll Hash D deposits) !! key = None).
Proof.
  induction deposits as [|x l IH] using rev_ind; intros Hlen.
  - split; [intros i y Hi; discriminate|]. intros key _. apply lookup_empty.
  - rewrite length_app in Hlen. cbn [length] in Hlen.
    destruct IH as [IH1 IH2]; [lia|].
    rewrite insertAll_snoc_map by lia. split.
    + intros i y Hi.
      rewrite updateLoop_lookup_above by (try apply leaf_above_update; lia).
      apply lookup_app_Some in Hi as [Hi|[Hge Hi]].
      * pose proof (lookup_lt_Some _ _ _ Hi).
        rewrite lookup_insert_ne by lia. now apply IH1.
      * destruct (i - length l)%nat as [|k] eqn:Hk; [|now destruct k].
        injection Hi as <-. replace i with (length l) by lia.
        apply lookup_insert_eq.
    + intros key Hkey. rewrite length_app in Hkey. cbn [length] in Hkey.
      rewrite updateLoop_lookup_above by (try apply leaf_above_update; lia).
      rewrite lookup_insert_ne by lia. apply IH2. lia.
Qed.

(** Every written node below the leaves holds the hash of its children. *)
Lemma insertAll_hashOfChildren deposits :
  Z.of_nat (length deposits) <= 2 ^ D ->
  forall j, 1 <= j < 2 ^ D ->
    is_Some (Trie.merkleHashes (Trie.insertAll Hash D deposits) !! j) ->
    hashOfChildren Hash (Trie.merkleHashes (Trie.insertAll Hash D deposits)) j.
Proof.
  induction deposits as [|x l IH] using rev_ind; intros Hlen.
  - intros j _ [v Hv]. cbn in Hv. now rewrite lookup_empty in Hv.
  - rewrite length_app in Hlen. cbn [length] in Hlen.
    specialize (IH ltac:(lia)).
    destruct pow2_depth_bounds as [Hlo Hhi].
    rewrite insertAll_snoc_map by lia.
    set (idx := 2 ^ D + Z.of_nat (length l)).
    set (m := Trie.merkleHashes (Trie.insertAll Hash D l)) in *.
    intros j Hj.
    assert (Hroot : idx / 2 ^ Z.of_nat d = 1).
    { fold D. subst idx. rewrite Z.add_comm.
      replace (Z.of_nat (length l) + 2 ^ D)
        with (Z.of_nat (length l) + 1 * 2 ^ D) by lia.
      rewrite Z.div_add by lia. rewrite Z.div_small by lia. reflexivity. }
    apply (updateLoop_hashOfChildren (2 ^ D) d idx); [fold D; lia| |lia|].
    + clear j Hj. intros j Hj Habove Hsome.
      rewrite lookup_insert_ne in Hsome by lia.
      assert (Hch : 2 * j <> idx /\ 2 * j + 1 <> idx).
      { split; intros Heq; apply Habove; exists 1%nat; (split; [lia|]);
          change (2 ^ Z.of_nat 1) with 2; rewrite <- Heq.
        - now rewrite Z.mul_comm, Z.div_mul by lia.
        - rewrite Z.mul_comm, Z.div_add_l by lia. change (1 / 2) with 0. lia. }
      destruct Hch as [Hc1 Hc2].
      unfold hashOfChildren, Trie.at_key.
      rewrite !lookup_insert_ne by lia. now apply IH.
    + rewrite Hroot. intros [i [Hi Habs]].
      rewrite Z.div_small in Habs; [lia|].
      split; [lia|]. change 1 with (2 ^ 0).
      apply Z.pow_lt_mono_r; lia.
Qed.

(** Once a deposit is in, every node on the leftmost path is written. *)
Lemma insertAll_spine deposits (k : nat) :
  deposits <> [] -> Z.of_nat (length deposits) <= 2 ^ D -> (k < d)%nat ->
  is_Some (Trie.merkleHashes (Trie.insertAll Hash D deposits)
             !! (2 ^ Z.of_nat k)).
Proof.
  induction deposits as [|x l IH] using rev_ind; intros Hne Hlen Hk;
    [congruence|].
  rewrite length_app in Hlen. cbn [length] in Hlen.
  rewrite insertAll_snoc_map by lia.
  destruct l as [|y l'].
  - cbn [length]. change (Z.of_nat 0) with 0. rewrite Z.add_0_r.
    replace (2 ^ Z.of_nat k) with (2 ^ D / 2 ^ Z.of_nat (d - k)).
    + apply updateLoop_written. lia.
    + unfold D. rewrite <- Z.pow_sub_r by lia. f_equal. lia.
  - apply updateLoop_is_Some.
    rewrite lookup_insert_ne.
    + apply IH; [discriminate|lia|exact Hk].
    + pose proof (TrieProps.pow2_inj_lt k d Hk). fold D in H. lia.
Qed.


(** The branch of the leftmost leaf holds the right-hand neighbours of
    the leftmost path. *)
Lemma branchLoop_leftmost (m : gmap Z (list byte)) (n : nat) :
  forall (a k : nat), (k < n <= a)%nat -> (a <= 63)%nat ->
  Trie.branchLoop n (2 ^ Z.of_nat a) m !! k
  = Some (Trie.at_key m (2 ^ Z.of_nat (a - k) + 1)).
Proof.
  induction n as [|n IH]; intros a k Hk Ha; [lia|].
  cbn [Trie.branchLoop]. destruct a as [|a]; [lia|].
  rewrite TrieProps.pow2_even by lia. change (0 =? 1) with false. cbn iota.
  destruct k as [|k].
  - cbn [lookup list_lookup]. rewrite Nat.sub_0_r. f_equal. f_equal.
    unfold add64. apply wrap64_small.
    pose proof (TrieProps.pow2_lt_modulus (S a) Ha) as Hp.
    rewrite TrieProps.pow2_succ in *. unfold is_uint64, modulus64 in *. lia.
  - cbn [lookup list_lookup]. rewrite TrieProps.pow2_succ_div.
    rewrite IH by lia. reflexivity.
Qed.

(** With an even [idx] the loop of [VerifyMerkleBranch] hashes the value
    with the branch entry on its right at every level; along the leftmost
    path of a trie whose written nodes hold the hash of their children
    this climbs from node [2 ^ r] to the root. *)
Lemma verifyLoop_leftmost (m : gmap Z (list byte)) (branch : list (list byte))
  (idx : Z) (r : nat) :
  idx mod 2 = 0 ->
  (r <= d)%nat ->
  (forall k : nat, (k < d)%nat ->
     branch !! k = Some (Trie.at_key m (2 ^ Z.of_nat (d - k) + 1))) ->
  (forall k : nat, (k < d)%nat -> hashOfChildren Hash m (2 ^ Z.of_nat k)) ->
  Trie.verifyLoop Hash r (d - r) idx branch (Trie.at_key m (2 ^ Z.of_nat r))
  = Some (Trie.at_key m 1).
Proof.
  intros Heven Hr Hbranch Hspine.
  induction r as [|r IH]; [reflexivity|].
  cbn [Trie.verifyLoop]. rewrite Hbranch by lia.
  rewrite Heven. change (0 =? 1) with false. cbn iota.
  replace (d - (d - S r))%nat with (S r) by lia.
  replace (S (d - S r)) with (d - r)%nat by lia.
  rewrite <- IH by lia. f_equal.
  pose proof (Hspine r ltac:(lia)) as Hnode. unfold hashOfChildren in Hnode.
  rewrite <- TrieProps.pow2_succ in Hnode.
  unfold Trie.at_key at 3. rewrite Hnode. reflexivity.
Qed.

(** X1.  In a trie of depth 1 to 63 that holds at most [2 ^ depth]
    deposits, [VerifyMerkleBranch] accepts the first deposit (index 0) with
    the branch [GenerateMerkleBranch] produces for it against the current
    root, whatever was inserted after it: the index is even and the path
    of the first leaf goes to the left at every level, which is the one
    path the loop of [VerifyMerkleBranch] follows for an even index. *)
Theorem VerifyMerkleBranch_first_deposit_accepted depositData deposits :
  (1 <= d)%nat ->
  Z.of_nat (length (depositData :: deposits)) <= 2 ^ D ->
  Trie.VerifyMerkleBranch Hash D (Hash depositData)
    (Trie.GenerateMerkleBranch D
       (Trie.insertAll Hash D (depositData :: deposits)) 0)
    D 0 (Trie.Root (Trie.insertAll Hash D (depositData :: deposits)))
  = Some true.
Proof.
  intros Hd Hlen.
  set (t := Trie.insertAll Hash D (depositData :: deposits)).
  destruct pow2_depth_bounds as [Hlo Hhi].
  unfold Trie.VerifyMerkleBranch, Trie.GenerateMerkleBranch, Trie.Root.
  rewrite twoToPower_depth.
  assert (Hidx : add64 0 (2 ^ D) = 2 ^ D).
  { unfold add64. rewrite Z.add_0_l. apply wrap64_small.
    unfold is_uint64. lia. }
  rewrite Hidx.
  replace (Z.to_nat D) with d by (unfold D; now rewrite Nat2Z.id).
  destruct (insertAll_leaves (depositData :: deposits) Hlen) as [Hleaf _].
  specialize (Hleaf 0%nat depositData eq_refl).
  change (Z.of_nat 0) with 0 in Hleaf. rewrite Z.add_0_r in Hleaf.
  fold t in Hleaf.
  assert (Hvalue : Hash depositData
                   = Trie.at_key (Trie.merkleHashes t) (2 ^ Z.of_nat d)).
  { unfold Trie.at_key. fold D. now rewrite Hleaf. }
  rewrite Hvalue.
  replace 0%nat with (d - d)%nat at 1 by lia.
  unfold D at 1.
  rewrite (verifyLoop_leftmost (Trie.merkleHashes t)).
  - now rewrite bool_decide_eq_true_2.
  - unfold D. apply TrieProps.pow2_even. lia.
  - lia.
  - intros k Hk. unfold D. apply branchLoop_leftmost; lia.
  - intros k Hk. apply insertAll_hashOfChildren.
    + exact Hlen.
    + pose proof (TrieProps.pow2_lt_modulus k ltac:(lia)).
      pose proof (TrieProps.pow2_inj_lt k d Hk). unfold D. lia.
    + apply insertAll_spine; [discriminate|exact Hlen|exact Hk].
Qed.


(** X2.  The Merkle invariant of [UpdateDepositTrie]: after any sequence
    of at most [2 ^ depth] deposits, every node below the leaves that has
    been written holds the hash of the concatenation of its two children,
    a child that was never written reading as the zero array. *)
Theorem insertAll_merkle_invariant deposits (j : Z) (v : list byte) :
  Z.of_nat (length deposits) <= 2 ^ D ->
  1 <= j < 2 ^ D ->
  Trie.merkleHashes (Trie.insertAll Hash D deposits) !! j = Some v ->
  v = Hash (Trie.at_key (Trie.merkleHashes (Trie.insertAll Hash D deposits))
              (2 * j)
            ++ Trie.at_key (Trie.merkleHashes (Trie.insertAll Hash D deposits))
                 (2 * j + 1)).
Proof.
  intros Hlen Hj Hv.
  pose proof (insertAll_hashOfChildren deposits Hlen j Hj) as Hnode.
  unfold hashOfChildren in Hnode. rewrite Hv in Hnode.
  specialize (Hnode ltac:(eauto)). now injection Hnode.
Qed.

(** X3.  Insertion and lookup: after any sequence of at most [2 ^ depth]
    deposits the counter holds their number, deposit [i] is found,
    hashed, at node [2 ^ depth + i], whatever was inserted after it, and
    no node from [2 ^ depth + count] on is written. *)
Theorem insertAll_count_and_leaves deposits :
  Z.of_nat (length deposits) <= 2 ^ D ->
  Trie.depositCount (Trie.insertAll Hash D deposits)
  = Z.of_nat (length deposits)
  /\ (forall (i : nat) depositData, deposits !! i = Some depositData ->
        Trie.merkleHashes (Trie.insertAll Hash D deposits)
          !! (2 ^ D + Z.of_nat i) = Some (Hash depositData))
  /\ (forall key, 2 ^ D + Z.of_nat (length deposits) <= key ->
        Trie.merkleHashes (Trie.insertAll Hash D deposits) !! key = None).
Proof.
  intros Hlen. destruct pow2_depth_bounds as [Hlo Hhi]. split.
  - rewrite depositCount_insertAll. apply wrap64_small.
    unfold is_uint64. lia.
  - now apply insertAll_leaves.
Qed.

End Trie.

Section Bounds.

Variable Hash : list byte -> list byte.
Variable DepositContractTreeDepth : Z.

Lemma branchLoop_length (m : gmap Z (list byte)) (n : nat) : forall idx,
  length (Trie.branchLoop n idx m) = n.
Proof.
  induction n as [|n IH]; intros idx; [reflexivity|].
  cbn [Trie.branchLoop length]. now rewrite IH.
Qed.

(** The loop of [VerifyMerkleBranch] reads the entries [i], ..., [i + n - 1]
    of the branch. *)
Lemma verifyLoop_None (n : nat) : forall i idx branch value,
  Trie.verifyLoop Hash n i idx branch value = None
  <-> (0 < n /\ length branch < i + n)%nat.
Proof.
  induction n as [|n IH]; intros i idx branch value.
  - cbn. split; [discriminate|lia].
  - cbn [Trie.verifyLoop].
    destruct (branch !! i) as [b|] eqn:Hb.
    + apply lookup_lt_Some in Hb. rewrite IH. lia.
    + apply lookup_ge_None in Hb. split; [lia|reflexivity].
Qed.

(** X4.  [VerifyMerkleBranch] indexes the branch at [0], ..., [depth - 1]:
    it panics exactly when the branch has fewer than [depth] entries,
    whatever the leaf, the index and the root. *)
Theorem VerifyMerkleBranch_panics_iff leaf branch depth index root :
  Trie.VerifyMerkleBranch Hash DepositContractTreeDepth leaf branch depth
    index root = None
  <-> (length branch < Z.to_nat depth)%nat.
Proof.
  unfold Trie.VerifyMerkleBranch.
  destruct (Trie.verifyLoop Hash (Z.to_nat depth) 0 _ branch leaf)
    as [value|] eqn:Hloop.
  - split; [discriminate|]. intros Hlen.
    assert (Hnone : Trie.verifyLoop Hash (Z.to_nat depth) 0
                      (add64 index
                         (Trie.twoToPowerOfTreeDepth DepositContractTreeDepth))
                      branch leaf = None) by (apply verifyLoop_None; lia).
    congruence.
  - apply verifyLoop_None in Hloop. split; [lia|reflexivity].
Qed.

(** X5.  [GenerateMerkleBranch] returns one entry per level of the trie,
    for any index, in range or not; so [VerifyMerkleBranch], asked for
    the depth of the trie, never panics on a branch it produced. *)
Theorem GenerateMerkleBranch_length_fits_verification
  (d : Trie.DepositTrie) (index : Z) :
  length (Trie.GenerateMerkleBranch DepositContractTreeDepth d index)
  = Z.to_nat DepositContractTreeDepth
  /\ forall leaf index' root,
       is_Some (Trie.VerifyMerkleBranch Hash DepositContractTreeDepth leaf
                  (Trie.GenerateMerkleBranch DepositContractTreeDepth d index)
                  DepositContractTreeDepth index' root).
Proof.
  assert (Hlen : length (Trie.GenerateMerkleBranch
                           DepositContractTreeDepth d index)
                 = Z.to_nat DepositContractTreeDepth)
    by apply branchLoop_length.
  split; [exact Hlen|]. intros leaf index' root.
  unfold Trie.VerifyMerkleBranch.
  destruct (Trie.verifyLoop Hash _ 0 _ _ leaf) as [value|] eqn:Hloop;
    [eauto|].
  apply verifyLoop_None in Hloop. lia.
Qed.

End Bounds.

(** The hypotheses of X1 hold for three deposits in a trie of depth 3, the
  hash being the function that reverses its input. *)
Lemma VerifyMerkleBranch_first_deposit_accepted_witness :
(3 <= 63)%nat /\ (1 <= 3)%nat
/\ Z.of_nat (length [[x01]; [x02]; [x03]]) <= 2 ^ Z.of_nat 3
/\ Trie.VerifyMerkleBranch (@rev byte) (Z.of_nat 3) (rev [x01])
     (Trie.GenerateMerkleBranch (Z.of_nat 3)
        (Trie.insertAll (@rev byte) (Z.of_nat 3) [[x01]; [x02]; [x03]]) 0)
     (Z.of_nat 3) 0
     (Trie.Root (Trie.insertAll (@rev byte) (Z.of_nat 3) [[x01]; [x02]; [x03]]))
   = Some true.
Proof.
assert (H63 : (3 <= 63)%nat) by lia.
assert (H1 : (1 <= 3)%nat) by lia.
assert (Hlen : Z.of_nat (length [[x01]; [x02]; [x03]]) <= 2 ^ Z.of_nat 3)
  by (vm_compute; discriminate).
split; [exact H63|]. split; [exact H1|]. split; [exact Hlen|].
exact (VerifyMerkleBranch_first_deposit_accepted (@rev byte) 3 H63
         [x01] [[x02]; [x03]] H1 Hlen).
Defined.

(** The hypotheses of X2 hold at the root of the same trie. *)
Lemma insertAll_merkle_invariant_witness :
let m := Trie.merkleHashes
           (Trie.insertAll (@rev byte) (Z.of_nat 3) [[x01]; [x02]; [x03]]) in
(3 <= 63)%nat
/\ Z.of_nat (length [[x01]; [x02]; [x03]]) <= 2 ^ Z.of_nat 3
/\ 1 <= 1 < 2 ^ Z.of_nat 3
/\ m !! 1 = Some (Trie.at_key m 1)
/\ Trie.at_key m 1 = rev (Trie.at_key m (2 * 1) ++ Trie.at_key m (2 * 1 + 1)).
Proof.
intros m.
assert (H63 : (3 <= 63)%nat) by lia.
assert (Hlen : Z.of_nat (length [[x01]; [x02]; [x03]]) <= 2 ^ Z.of_nat 3)
  by (vm_compute; discriminate).
assert (Hj : 1 <= 1 < 2 ^ Z.of_nat 3) by (split; [lia|reflexivity]).
assert (Hv : m !! 1 = Some (Trie.at_key m 1)) by (vm_compute; reflexivity).
split; [exact H63|]. split; [exact Hlen|]. split; [exact Hj|].
split; [exact Hv|].
exact (insertAll_merkle_invariant (@rev byte) 3 H63
         [[x01]; [x02]; [x03]] 1 (Trie.at_key m 1) Hlen Hj Hv).
Defined.

(** The hypotheses of X3 hold for the same deposits. *)
Lemma insertAll_count_and_leaves_witness :
(3 <= 63)%nat
/\ Z.of_nat (length [[x01]; [x02]; [x03]]) <= 2 ^ Z.of_nat 3
/\ Trie.depositCount
     (Trie.insertAll (@rev byte) (Z.of_nat 3) [[x01]; [x02]; [x03]]) = 3.
Proof.
assert (H63 : (3 <= 63)%nat) by lia.
assert (Hlen : Z.of_nat (length [[x01]; [x02]; [x03]]) <= 2 ^ Z.of_nat 3)
  by (vm_compute; discriminate).
split; [exact H63|]. split; [exact Hlen|].
exact (proj1 (insertAll_count_and_leaves (@rev byte) 3 H63
                [[x01]; [x02]; [x03]] Hlen)).
Defined.

End TrieInvariant.

(** ** The root of the deposit trie *)

Module TrieRoot.
Import Notions TrieNotions.

Section Root.

Variable Hash : list byte -> list byte.

Lemma updateLoop_lookup_other (n : nat) : forall idx m key,
  0 <= idx ->
  (forall i : nat, (1 <= i <= n)%nat -> key <> idx / 2 ^ Z.of_nat i) ->
  Trie.updateLoop Hash n idx m !! key = m !! key.
Proof.
  induction n as [|n IH]; intros idx m key Hidx Hkey; [reflexivity|].
  cbn [Trie.updateLoop]. rewrite IH.
  - apply lookup_insert_ne. intros Heq. apply (Hkey 1%nat); [lia|].
    change (2 ^ Z.of_nat 1) with 2. congruence.
  - apply Z.div_pos; lia.
  - intros i Hi Heq. apply (Hkey (S i)); [lia|].
    rewrite TrieProps.pow2_succ, <- Z.div_div
      by (try lia; apply Z.pow_pos_nonneg; lia).
    exact Heq.
Qed.

Variable d : nat.
Hypothesis d_range : (d <= 63)%nat.

Let D : Z := Z.of_nat d.

Local Abbreviation atHeight := (TrieNotions.atHeight d).

Lemma pow2_split (k : nat) :
  (k <= d)%nat -> 2 ^ D = 2 ^ Z.of_nat (d - k) * 2 ^ Z.of_nat k.
Proof.
  intros Hk. unfold D. rewrite <- Z.pow_add_r by lia. f_equal. lia.
Qed.

Lemma ancestor_atHeight (idx : Z) (k : nat) :
  (k <= d)%nat -> 2 ^ D <= idx < 2 * 2 ^ D ->
  atHeight k (idx / 2 ^ Z.of_nat k).
Proof.
  intros Hk Hidx. unfold TrieNotions.atHeight.
  assert (Hpos : 0 < 2 ^ Z.of_nat k) by (apply Z.pow_pos_nonneg; lia).
  rewrite (pow2_split k Hk) in Hidx. split.
  - apply Z.div_le_lower_bound; lia.
  - apply Z.div_lt_upper_bound; lia.
Qed.

Lemma atHeight_unique (k k' : nat) (j : Z) :
  (k <= d)%nat -> (k' <= d)%nat ->
  atHeight k j -> atHeight k' j -> k = k'.
Proof.
  unfold TrieNotions.atHeight. intros Hk Hk' H1 H2.
  destruct (Nat.lt_trichotomy k k') as [Hlt|[Heq|Hgt]]; [|exact Heq|].
  - exfalso.
    assert (2 * 2 ^ Z.of_nat (d - k') <= 2 ^ Z.of_nat (d - k)).
    { rewrite <- TrieProps.pow2_succ. apply Z.pow_le_mono_r; lia. }
    lia.
  - exfalso.
    assert (2 * 2 ^ Z.of_nat (d - k) <= 2 ^ Z.of_nat (d - k')).
    { rewrite <- TrieProps.pow2_succ. apply Z.pow_le_mono_r; lia. }
    lia.
Qed.

(** A node below the leaves is written exactly when a deposit lies in
    its subtree. *)
Lemma insertAll_written (deposits : list (list byte)) :
  Z.of_nat (length deposits) <= 2 ^ D ->
  forall (k : nat) (j : Z), (1 <= k <= d)%nat -> atHeight k j ->
    is_Some (Trie.merkleHashes (Trie.insertAll Hash D deposits) !! j)
    <-> j * 2 ^ Z.of_nat k < 2 ^ D + Z.of_nat (length deposits).
Proof.
  induction deposits as [|x l IH] using rev_ind; intros Hlen k j Hk Hj.
  - cbn. rewrite lookup_empty. split; [intros [v Hv]; discriminate|].
    intros Hlt. exfalso. unfold TrieNotions.atHeight in Hj.
    rewrite (pow2_split k) in Hlt by lia.
    assert (0 < 2 ^ Z.of_nat k) by (apply Z.pow_pos_nonneg; lia). nia.
  - rewrite length_app in *. cbn [length] in *.
    specialize (IH ltac:(lia) k j Hk Hj).
    destruct (TrieInvariant.pow2_depth_bounds d d_range) as [Hlo Hhi].
    fold D in Hlo, Hhi.
    rewrite (TrieInvariant.insertAll_snoc_map Hash d d_range) by (fold D; lia).
    fold D.
    set (idx := 2 ^ D + Z.of_nat (length l)) in *.
    set (m := Trie.merkleHashes (Trie.insertAll Hash D l)) in *.
    assert (Hpos : 0 < 2 ^ Z.of_nat k) by (apply Z.pow_pos_nonneg; lia).
    assert (Hjlt : j < 2 ^ D).
    { unfold TrieNotions.atHeight in Hj.
      assert (2 * 2 ^ Z.of_nat (d - k) <= 2 ^ D).
      { unfold D. rewrite <- TrieProps.pow2_succ.
        apply Z.pow_le_mono_r; lia. }
      lia. }
    destruct (decide (j = idx / 2 ^ Z.of_nat k)) as [Heq|Hne].
    + split.
      * intros _. subst j.
        pose proof (Z.mul_div_le idx (2 ^ Z.of_nat k) Hpos). lia.
      * intros _. rewrite Heq. apply TrieInvariant.updateLoop_written. lia.
    + rewrite updateLoop_lookup_other.
      * rewrite lookup_insert_ne by lia. rewrite IH.
        split; [lia|]. intros Hlt.
        assert (Hle : j * 2 ^ Z.of_nat k <= idx) by lia.
        destruct (Z.eq_dec (j * 2 ^ Z.of_nat k) idx) as [Hex|Hnex]; [|lia].
        exfalso. apply Hne. rewrite <- Hex. now rewrite Z.div_mul by lia.
      * lia.
      * intros i Hi Heq.
        assert (Hi' : atHeight i j).
        { rewrite Heq. apply ancestor_atHeight; [lia|]. fold idx. lia. }
        assert (k = i) by (apply (atHeight_unique k i j); (lia || assumption)).
        subst i. contradiction.
Qed.

(** Every node of the trie holds the value of the Merkle tree of the
    deposits. *)
Lemma insertAll_merkleNode (deposits : list (list byte)) :
  Z.of_nat (length deposits) <= 2 ^ D ->
  forall (k : nat) (j : Z), (k <= d)%nat -> atHeight k j ->
    Trie.at_key (Trie.merkleHashes (Trie.insertAll Hash D deposits)) j
    = merkleNode Hash D deposits k j.
Proof.
  intros Hlen. set (m := Trie.merkleHashes (Trie.insertAll Hash D deposits)).
  destruct (TrieInvariant.insertAll_leaves Hash d d_range deposits Hlen)
    as [Hleaf Hnone]. fold D in Hleaf, Hnone. fold m in Hleaf, Hnone.
  induction k as [|k IH]; intros j Hk Hj.
  - unfold TrieNotions.atHeight in Hj. rewrite Nat.sub_0_r in Hj. fold D in Hj.
    cbn [merkleNode]. unfold Trie.at_key.
    destruct (deposits !! Z.to_nat (j - 2 ^ D)) as [x|] eqn:Hx.
    + apply Hleaf in Hx. rewrite Z2Nat.id in Hx by lia.
      replace (2 ^ D + (j - 2 ^ D)) with j in Hx by lia. now rewrite Hx.
    + apply lookup_ge_None in Hx. rewrite Hnone by lia. reflexivity.
  - cbn [merkleNode].
    assert (Hchild : atHeight k (2 * j) /\ atHeight k (2 * j + 1)).
    { unfold TrieNotions.atHeight in *.
      replace (d - k)%nat with (S (d - S k)) by lia.
      rewrite TrieProps.pow2_succ. lia. }
    destruct Hchild as [Hc1 Hc2].
    rewrite <- (IH (2 * j)), <- (IH (2 * j + 1)) by (lia || assumption).
    pose proof (insertAll_written deposits Hlen (S k) j ltac:(lia) Hj) as Hw.
    assert (Hjrange : 1 <= j < 2 ^ D).
    { unfold TrieNotions.atHeight in Hj.
      assert (0 < 2 ^ Z.of_nat (d - S k)) by (apply Z.pow_pos_nonneg; lia).
      assert (2 * 2 ^ Z.of_nat (d - S k) <= 2 ^ D).
      { unfold D. rewrite <- TrieProps.pow2_succ.
        apply Z.pow_le_mono_r; lia. }
      lia. }
    destruct (j * 2 ^ Z.of_nat (S k) <? _) eqn:Hlt.
    + apply Z.ltb_lt in Hlt. apply Hw in Hlt.
      pose proof (TrieInvariant.insertAll_hashOfChildren Hash d d_range
                    deposits Hlen j) as Hinv.
      fold D in Hinv. specialize (Hinv Hjrange Hlt).
      unfold hashOfChildren in Hinv. fold m in Hinv.
      unfold Trie.at_key at 1. now rewrite Hinv.
    + apply Z.ltb_ge in Hlt. unfold Trie.at_key.
      destruct (m !! j) as [v|] eqn:Hv; [|reflexivity].
      exfalso. assert (Hs : is_Some (m !! j)) by eauto.
      apply Hw in Hs. lia.
Qed.

(** X24.  The root is the Merkle root of the deposits.  After any
    sequence of at most [2 ^ depth] deposits in a trie of depth at most
    63, [Root] returns the value at the top of the binary hash tree over
    the hashed deposits in which a subtree that holds no deposit counts
    as the zero array (not as the hash of an empty subtree); with no
    deposit at all that is the zero array. *)
Theorem Root_is_merkle_root (deposits : list (list byte)) :
  Z.of_nat (length deposits) <= 2 ^ D ->
  Trie.Root (Trie.insertAll Hash D deposits)
  = merkleNode Hash D deposits d 1.
Proof.
  intros Hlen. unfold Trie.Root.
  apply insertAll_merkleNode; [exact Hlen|lia|].
  unfold TrieNotions.atHeight. rewrite Nat.sub_diag. change (2 ^ Z.of_nat 0) with 1. lia.
Qed.

End Root.

(** The hypotheses of X24 hold for three deposits in a trie of depth 3, the
  hash being the function that reverses its input. *)
Lemma Root_is_merkle_root_witness :
(3 <= 63)%nat
/\ Z.of_nat (length [[x01]; [x02]; [x03]]) <= 2 ^ Z.of_nat 3
/\ Trie.Root (Trie.insertAll (@rev byte) (Z.of_nat 3) [[x01]; [x02]; [x03]])
   = merkleNode (@rev byte) (Z.of_nat 3) [[x01]; [x02]; [x03]] 3 1.
Proof.
assert (H63 : (3 <= 63)%nat) by lia.
assert (Hlen : Z.of_nat (length [[x01]; [x02]; [x03]]) <= 2 ^ Z.of_nat 3)
  by (vm_compute; discriminate).
split; [exact H63|]. split; [exact Hlen|].
exact (Root_is_merkle_root (@rev byte) 3 H63 [[x01]; [x02]; [x03]] Hlen).
Defined.

End TrieRoot.
(** ** When the passes of an epoch are due *)

Module ScheduleProps.
Import pb Notions.

Section Schedule.

Variable cfg : params.BeaconChainConfig.
Variable CurrentEpochCommitteeCount : BeaconState.t -> Z.

Local Abbreviation SPE := (params.SlotsPerEpoch cfg).

Lemma CanProcessEpoch_at slot state :
  0 < SPE -> 0 <= slot -> slot + 1 < modulus64 ->
  Epoch.CanProcessEpoch cfg (BeaconState.with_Slot slot state) = true
  <-> (slot + 1) mod SPE = 0.
Proof.
  intros Hspe Hlo Hhi. unfold Epoch.CanProcessEpoch.
  cbn [BeaconState.Slot BeaconState.with_Slot].
  rewrite add64_small by (unfold is_uint64; lia).
  apply Z.eqb_eq.
Qed.

(** X6.  In every run of [SlotsPerEpoch] consecutive slots that stays
    clear of the end of the [uint64] range, [CanProcessEpoch] answers true
    at exactly one slot, the last slot of an epoch. *)
Theorem CanProcessEpoch_once_per_epoch (state : BeaconState.t) (first : Z) :
  0 < SPE -> 0 <= first -> first + SPE < modulus64 ->
  exists slot,
    first <= slot < first + SPE
    /\ Epoch.CanProcessEpoch cfg (BeaconState.with_Slot slot state) = true
    /\ slot mod SPE = SPE - 1
    /\ forall slot',
         first <= slot' < first + SPE ->
         Epoch.CanProcessEpoch cfg (BeaconState.with_Slot slot' state) = true ->
         slot' = slot.
Proof.
  intros Hspe Hlo Hhi.
  pose proof (Z.mod_pos_bound first SPE Hspe) as Hr.
  pose proof (Z.div_mod first SPE ltac:(lia)) as Hdm.
  set (q := first / SPE) in *. set (r := first mod SPE) in *.
  exists (SPE * q + (SPE - 1)).
  assert (Hmod : (SPE * q + (SPE - 1) + 1) mod SPE = 0).
  { replace (SPE * q + (SPE - 1) + 1) with ((q + 1) * SPE) by lia.
    apply Z.mod_mul. lia. }
  split; [lia|]. split; [apply CanProcessEpoch_at; (lia || exact Hmod)|].
  split.
  - rewrite Z.add_comm, Z.mul_comm, Z.mod_add by lia.
    apply Z.mod_small. lia.
  - intros slot' Hrange Hcan.
    apply CanProcessEpoch_at in Hcan; [|lia..].
    apply Z.mod_divide in Hcan; [|lia]. destruct Hcan as [k Hk].
    assert (k = q + 1) by nia. nia.
Qed.

(** X7.  [CanProcessValidatorRegistry] answers true exactly when the
    finalized epoch is past the last registry update and every shard
    number [i] from the start shard up to, and not including, the number
    of shards processed ([committee count * SlotsPerEpoch], on [uint64])
    has at position [i mod ShardCount] a crosslink newer than the last
    registry update; an empty range passes without a look at the
    crosslinks. *)
Theorem CanProcessValidatorRegistry_true_iff (state : BeaconState.t) :
  Epoch.CanProcessValidatorRegistry cfg CurrentEpochCommitteeCount state
  = Some true
  <-> BeaconState.ValidatorRegistryUpdateEpoch state
      < BeaconState.FinalizedEpoch state
      /\ forall i,
           BeaconState.CurrentShufflingStartShard state <= i
           < mul64 (CurrentEpochCommitteeCount state) SPE ->
           exists crosslink,
             BeaconState.LatestCrosslinks state
             !! Z.to_nat (i mod params.ShardCount cfg) = Some crosslink
             /\ BeaconState.ValidatorRegistryUpdateEpoch state
                < Crosslink.Epoch crosslink.
Proof.
  unfold Epoch.CanProcessValidatorRegistry.
  destruct (BeaconState.FinalizedEpoch state <=? _) eqn:Hfin.
  - apply Z.leb_le in Hfin. split; [discriminate|lia].
  - apply Z.leb_gt in Hfin. rewrite RegistryProps.registryLoop_true. split.
    + intros H. split; [exact Hfin|]. intros i Hi.
      destruct (H (i - BeaconState.CurrentShufflingStartShard state)
                  ltac:(lia)) as [c Hc].
      replace (BeaconState.CurrentShufflingStartShard state
               + (i - BeaconState.CurrentShufflingStartShard state))
        with i in Hc by lia.
      eauto.
    + intros [_ H] k Hk. apply H. lia.
Qed.

(** X8.  [ProcessEth1Data] writes to the fields [LatestEth1Data] and
    [Eth1DataVotes] and to no other, and a second run right after the
    first changes nothing: the votes are gone. *)
Theorem ProcessEth1Data_frame_and_idempotent (state : BeaconState.t) :
  Epoch.ProcessEth1Data cfg state
  = BeaconState.with_Eth1DataVotes []
      (BeaconState.with_LatestEth1Data
         (BeaconState.LatestEth1Data (Epoch.ProcessEth1Data cfg state)) state)
  /\ Epoch.ProcessEth1Data cfg (Epoch.ProcessEth1Data cfg state)
     = Epoch.ProcessEth1Data cfg state.
Proof.
  assert (Hfold : forall votes s,
            fold_left
              (fun state eth1DataVote =>
                 if Epoch.eth1VoteWins cfg eth1DataVote
                 then BeaconState.with_LatestEth1Data
                        (Eth1DataVote.Eth1Data eth1DataVote) state
                 else state) votes s
            = BeaconState.with_LatestEth1Data
                (BeaconState.LatestEth1Data
                   (fold_left
                      (fun state eth1DataVote =>
                         if Epoch.eth1VoteWins cfg eth1DataVote
                         then BeaconState.with_LatestEth1Data
                                (Eth1DataVote.Eth1Data eth1DataVote) state
                         else state) votes s)) s).
  { induction votes as [|v votes IH]; intros s.
    - now destruct s.
    - cbn [fold_left]. rewrite IH at 1.
      destruct (Epoch.eth1VoteWins cfg v); reflexivity. }
  split.
  - unfold Epoch.ProcessEth1Data. rewrite Hfold at 1. reflexivity.
  - unfold Epoch.ProcessEth1Data at 1 2. reflexivity.
Qed.

End Schedule.

(** With 64 slots per epoch the hypotheses of X6 hold for the run of slots
  that starts at slot 100. *)
Lemma CanProcessEpoch_once_per_epoch_witness :
0 < params.SlotsPerEpoch mainnet
/\ 0 <= 100
/\ 100 + params.SlotsPerEpoch mainnet < modulus64
/\ exists slot,
     100 <= slot < 100 + params.SlotsPerEpoch mainnet
     /\ Epoch.CanProcessEpoch mainnet (BeaconState.with_Slot slot emptyState)
        = true
     /\ slot mod params.SlotsPerEpoch mainnet
        = params.SlotsPerEpoch mainnet - 1
     /\ forall slot',
          100 <= slot' < 100 + params.SlotsPerEpoch mainnet ->
          Epoch.CanProcessEpoch mainnet
            (BeaconState.with_Slot slot' emptyState) = true ->
          slot' = slot.
Proof.
assert (H1 : 0 < params.SlotsPerEpoch mainnet) by reflexivity.
assert (H2 : 0 <= 100) by lia.
assert (H3 : 100 + params.SlotsPerEpoch mainnet < modulus64) by reflexivity.
split; [exact H1|]. split; [exact H2|]. split; [exact H3|].
exact (CanProcessEpoch_once_per_epoch mainnet emptyState 100 H1 H2 H3).
Defined.

End ScheduleProps.
(** ** Balances and inclusion of attestations *)

Module OperationsProps.
Import pb Notions EpochNotions.

Section Balances.

Variable E : Type.
Variable AttestingValidatorIndices :
  BeaconState.t -> Z -> list byte ->
  list PendingAttestation.t -> list PendingAttestation.t -> result E (list Z).
Variable EffectiveBalance : BeaconState.t -> Z -> Z.
Variable state : BeaconState.t.

(** Adding up on [uint64] is adding up and reducing once. *)
Lemma balance_fold (indices : list Z) : forall acc,
  fold_left
    (fun totalBalance index => add64 totalBalance (EffectiveBalance state index))
    indices (wrap64 acc)
  = wrap64 (acc + fold_right Z.add 0 (map (EffectiveBalance state) indices)).
Proof.
  induction indices as [|i rest IH]; intros acc.
  - cbn. now rewrite Z.add_0_r.
  - cbn [fold_left map fold_right].
    assert (Hadd : add64 (wrap64 acc) (EffectiveBalance state i)
                   = wrap64 (acc + EffectiveBalance state i)).
    { unfold add64, wrap64. now rewrite Zplus_mod_idemp_l. }
    rewrite Hadd, IH. f_equal. lia.
Qed.

Lemma TotalBalance_sum (indices : list Z) :
  Epoch.TotalBalance EffectiveBalance state indices
  = wrap64 (fold_right Z.add 0 (map (EffectiveBalance state) indices)).
Proof.
  unfold Epoch.TotalBalance. change 0 with (wrap64 0) at 1.
  now rewrite balance_fold.
Qed.

Lemma sum_Permutation (l l' : list Z) :
  Permutation l l' -> fold_right Z.add 0 l = fold_right Z.add 0 l'.
Proof.
  induction 1 as [|x l l' _ IH|x y l|l l' l'' _ IH1 _ IH2]; cbn; lia.
Qed.

(** X9.  [TotalBalance] is the sum of the effective balances of the given
    indices reduced modulo [2 ^ 64]: an overflow wraps around silently,
    an index listed twice counts twice, and the order of the indices does
    not matter. *)
Theorem TotalBalance_sum_mod_order_free (indices : list Z) :
  Epoch.TotalBalance EffectiveBalance state indices
  = fold_right Z.add 0 (map (EffectiveBalance state) indices) mod 2 ^ 64
  /\ (forall indices',
        Epoch.TotalBalance EffectiveBalance state (indices ++ indices')
        = add64 (Epoch.TotalBalance EffectiveBalance state indices)
                (Epoch.TotalBalance EffectiveBalance state indices'))
  /\ (forall indices',
        Permutation indices indices' ->
        Epoch.TotalBalance EffectiveBalance state indices'
        = Epoch.TotalBalance EffectiveBalance state indices).
Proof.
  split; [apply TotalBalance_sum|]. split.
  - intros indices'. rewrite !TotalBalance_sum.
    rewrite map_app, fold_right_app.
    assert (Hsplit : forall l acc,
              fold_right Z.add acc l = fold_right Z.add 0 l + acc).
    { induction l as [|x l IH]; intros acc; cbn; [lia|].
      rewrite IH. lia. }
    rewrite Hsplit. unfold add64, wrap64.
    now rewrite <- Zplus_mod.
  - intros indices' Hperm. rewrite !TotalBalance_sum. f_equal.
    apply sum_Permutation. now apply Permutation_map, Permutation_sym.
Qed.

(** X10.  When every candidate root of the shard has an attesting balance
    and one of them a positive one, [TotalAttestingBalance] returns the
    attesting balance of the root [winningRoot] returns, which is the
    highest attesting balance among the candidate roots. *)
Theorem TotalAttestingBalance_is_highest_candidate_balance
  (shard : Z) (B : list byte -> Z)
  (current prev : list PendingAttestation.t) :
  (forall c, In c (Epoch.candidateRootsOf shard (current ++ prev)) ->
     attestingBalance AttestingValidatorIndices EffectiveBalance state shard
       current prev c = Ok (B c)) ->
  (exists c, In c (Epoch.candidateRootsOf shard (current ++ prev))
             /\ 0 < B c) ->
  exists r,
    Epoch.winningRoot AttestingValidatorIndices EffectiveBalance state shard
      current prev = Ok r
    /\ EpochOperations.TotalAttestingBalance AttestingValidatorIndices
         EffectiveBalance state shard current prev = Ok (B r)
    /\ 0 < B r
    /\ forall c, In c (Epoch.candidateRootsOf shard (current ++ prev)) ->
         B c <= B r.
Proof.
  intros Hbal Hpos.
  destruct (WinningProps.winningRoot_isWinner E AttestingValidatorIndices
              EffectiveBalance state shard B current prev Hbal Hpos)
    as [r [Hr [Hin [Hmax _]]]].
  exists r. split; [exact Hr|]. split; [|split; [|exact Hmax]].
  - unfold EpochOperations.TotalAttestingBalance,
      EpochOperations.AttestingValidators.
    rewrite Hr. pose proof (Hbal r Hin) as Hb. unfold attestingBalance in Hb.
    destruct (AttestingValidatorIndices state shard r current prev)
      as [indices|e]; cbn in Hb |- *; [|discriminate].
    injection Hb as Hb. now rewrite Hb.
  - destruct Hpos as [c [Hc Hcpos]]. specialize (Hmax c Hc). lia.
Qed.

End Balances.

Section Inclusion.

Variable E : Type.
Variable AttestationParticipants :
  BeaconState.t -> AttestationData.t -> list byte -> result E (list Z).
Variable state : BeaconState.t.
Variable validatorIndex : Z.

Local Abbreviation participates :=
  (EpochNotions.participates AttestationParticipants state validatorIndex).

Lemma existsb_index (l : list Z) :
  existsb (fun index => index =? validatorIndex) l = true
  <-> In validatorIndex l.
Proof.
  rewrite existsb_exists. split.
  - intros [x [Hx Heq]]. apply Z.eqb_eq in Heq. now subst.
  - intros H. exists validatorIndex. split; [exact H|apply Z.eqb_refl].
Qed.

Lemma lowestAmong_spec attestation (l : list Z) : forall lowest,
  EpochOperations.lowestAmong validatorIndex attestation l lowest
  = if existsb (fun index => index =? validatorIndex) l
    then Z.min (PendingAttestation.InclusionSlot attestation) lowest
    else lowest.
Proof.
  unfold EpochOperations.lowestAmong.
  induction l as [|i l IH]; intros lowest; [reflexivity|].
  cbn [fold_left existsb]. rewrite IH.
  destruct (i =? validatorIndex); cbn [orb].
  - destruct (PendingAttestation.InclusionSlot attestation <? lowest) eqn:Hlt.
    + apply Z.ltb_lt in Hlt.
      destruct (existsb _ l); lia.
    + apply Z.ltb_ge in Hlt.
      destruct (existsb _ l); lia.
  - reflexivity.
Qed.

Lemma inclusionSlotLoop_spec attestations : forall lowest result,
  EpochOperations.inclusionSlotLoop AttestationParticipants state
    validatorIndex attestations lowest = Ok result ->
  result <= lowest
  /\ (result = lowest
      \/ exists attestation,
           In attestation attestations /\ participates attestation
           /\ PendingAttestation.InclusionSlot attestation = result)
  /\ (forall attestation,
        In attestation attestations -> participates attestation ->
        result <= PendingAttestation.InclusionSlot attestation).
Proof.
  induction attestations as [|a rest IH]; intros lowest result Hloop.
  - cbn in Hloop. injection Hloop as <-.
    split; [lia|]. split; [now left|]. intros ? [].
  - cbn [EpochOperations.inclusionSlotLoop] in Hloop.
    destruct (AttestationParticipants state _ _) as [ps|e] eqn:Hps;
      [|discriminate].
    apply IH in Hloop as [Hle [Hfound Hmin]].
    rewrite lowestAmong_spec in Hle, Hfound.
    destruct (existsb _ ps) eqn:Hex.
    + apply existsb_index in Hex.
      assert (Ha : participates a) by (exists ps; auto).
      split; [lia|]. split.
      * destruct Hfound as [->|[b [Hb [Hpb Hslot]]]].
        -- destruct (Z.min_spec (PendingAttestation.InclusionSlot a) lowest)
             as [[_ ->]|[_ ->]]; [|now left].
           right. exists a. split; [now left|]. auto.
        -- right. exists b. split; [now right|]. auto.
      * intros b [<-|Hb] Hpb; [lia|now apply Hmin].
    + split; [exact Hle|]. split.
      * destruct Hfound as [->|[b [Hb [Hpb Hslot]]]]; [now left|].
        right. exists b. split; [now right|]. auto.
      * intros b [<-|Hb] Hpb; [|now apply Hmin].
        destruct Hpb as [ps' [Hps' Hin]]. rewrite Hps in Hps'.
        injection Hps' as <-. apply existsb_index in Hin. congruence.
Qed.

Lemma inclusionDistanceLoop_found attestations : forall lowest result,
  EpochOperations.inclusionSlotLoop AttestationParticipants state
    validatorIndex attestations lowest = Ok result ->
  (exists attestation, In attestation attestations /\ participates attestation) ->
  exists distance,
    EpochOperations.inclusionDistanceLoop AttestationParticipants state
      validatorIndex attestations = Ok distance.
Proof.
  induction attestations as [|a rest IH]; intros lowest result Hloop Hex.
  - destruct Hex as [b [[] _]].
  - cbn [EpochOperations.inclusionSlotLoop
           EpochOperations.inclusionDistanceLoop] in *.
    destruct (AttestationParticipants state _ _) as [ps|e] eqn:Hps;
      [|discriminate].
    destruct (existsb _ ps) eqn:Hin; [eauto|].
    apply (IH _ _ Hloop).
    destruct Hex as [b [[<-|Hb] Hpb]]; [|eauto].
    destruct Hpb as [ps' [Hps' Hin']]. rewrite Hps in Hps'.
    injection Hps' as <-. apply existsb_index in Hin'. congruence.
Qed.

(** X11.  When [InclusionSlot] returns a slot, it is below [MaxUint64], it
    is the inclusion slot of a pending attestation of the state in which
    the validator participates, no such attestation has a lower inclusion
    slot, and [InclusionDistance] finds a distance for the validator as
    well. *)
Theorem InclusionSlot_is_lowest (slot : Z) :
  EpochOperations.InclusionSlot AttestationParticipants state validatorIndex
  = Ok slot ->
  slot < EpochOperations.MaxUint64
  /\ (exists attestation,
        In attestation (BeaconState.LatestAttestations state)
        /\ participates attestation
        /\ PendingAttestation.InclusionSlot attestation = slot)
  /\ (forall attestation,
        In attestation (BeaconState.LatestAttestations state) ->
        participates attestation ->
        slot <= PendingAttestation.InclusionSlot attestation)
  /\ exists distance,
       EpochOperations.InclusionDistance AttestationParticipants state
         validatorIndex = Ok distance.
Proof.
  unfold EpochOperations.InclusionSlot, EpochOperations.InclusionDistance.
  destruct (EpochOperations.inclusionSlotLoop _ _ _ _ _) as [lowest|e]
    eqn:Hloop; cbn; [|discriminate].
  destruct (lowest =? EpochOperations.MaxUint64) eqn:Hmax; [discriminate|].
  intros H. injection H as <-. apply Z.eqb_neq in Hmax.
  pose proof (inclusionSlotLoop_spec _ _ _ Hloop) as [Hle [Hfound Hmin]].
  destruct Hfound as [Heq|Hfound]; [contradiction|].
  split; [lia|]. split; [exact Hfound|]. split; [exact Hmin|].
  apply (inclusionDistanceLoop_found _ _ _ Hloop).
  destruct Hfound as [a [Ha [Hpa _]]]. eauto.
Qed.

(** X12.  When [InclusionDistance] returns a distance, it is the inclusion
    slot minus the slot, on [uint64], of the first pending attestation in
    which the validator participates: the attestations before it were
    read without an error and do not list the validator.  The attestation
    of lowest inclusion slot plays no part. *)
Theorem InclusionDistance_is_first (distance : Z) :
  EpochOperations.InclusionDistance AttestationParticipants state
    validatorIndex = Ok distance ->
  exists before attestation after,
    BeaconState.LatestAttestations state = before ++ attestation :: after
    /\ participates attestation
    /\ distance
       = sub64 (PendingAttestation.InclusionSlot attestation)
               (AttestationData.Slot (PendingAttestation.Data attestation))
    /\ forall earlier, In earlier before ->
         exists participatedValidators,
           AttestationParticipants state (PendingAttestation.Data earlier)
             (PendingAttestation.AggregationBitfield earlier)
           = Ok participatedValidators
           /\ ~ In validatorIndex participatedValidators.
Proof.
  unfold EpochOperations.InclusionDistance.
  induction (BeaconState.LatestAttestations state) as [|a rest IH];
    [discriminate|].
  cbn [EpochOperations.inclusionDistanceLoop].
  destruct (AttestationParticipants state _ _) as [ps|e] eqn:Hps;
    [|discriminate].
  destruct (existsb _ ps) eqn:Hin.
  - intros H. injection H as <-. exists [], a, rest.
    split; [reflexivity|]. split.
    + exists ps. split; [exact Hps|now apply existsb_index].
    + split; [reflexivity|]. intros ? [].
  - intros H. destruct (IH H) as [before [b [after [-> [Hpb [Hd Hbefore]]]]]].
    exists (a :: before), b, after. split; [reflexivity|].
    split; [exact Hpb|]. split; [exact Hd|].
    intros earlier [<-|Hearlier]; [|now apply Hbefore].
    exists ps. split; [exact Hps|]. intros Hin'.
    apply existsb_index in Hin'. congruence.
Qed.

End Inclusion.

(** Two roots attested on shard 3 with a balance of 32 each: the
  hypotheses of X10 hold, and the total attesting balance is 32. *)
Lemma TotalAttestingBalance_is_highest_candidate_balance_witness :
let indices := fun (_ : BeaconState.t) (_ : Z) (_ : list byte)
                   (_ _ : list PendingAttestation.t) =>
                 Ok (E := unit) [0] in
let balance := fun (_ : BeaconState.t) (_ : Z) => 32 in
let B := fun _ : list byte => 32 in
let current := [attestation 70 3 [] [] [x02]; attestation 70 3 [] [] [x01]] in
let prev := [attestation 6 3 [] [] [x02]] in
(forall c, In c (Epoch.candidateRootsOf 3 (current ++ prev)) ->
   attestingBalance indices balance emptyState 3 current prev c = Ok (B c))
/\ (exists c, In c (Epoch.candidateRootsOf 3 (current ++ prev)) /\ 0 < B c)
/\ EpochOperations.TotalAttestingBalance indices balance emptyState 3
     current prev = Ok 32
/\ exists r,
     Epoch.winningRoot indices balance emptyState 3 current prev = Ok r
     /\ EpochOperations.TotalAttestingBalance indices balance emptyState 3
          current prev = Ok (B r)
     /\ 0 < B r
     /\ forall c, In c (Epoch.candidateRootsOf 3 (current ++ prev)) ->
          B c <= B r.
Proof.
intros indices balance B current prev.
assert (H1 : forall c, In c (Epoch.candidateRootsOf 3 (current ++ prev)) ->
               attestingBalance indices balance emptyState 3 current prev c
               = Ok (B c)) by (intros c _; reflexivity).
assert (H2 : exists c, In c (Epoch.candidateRootsOf 3 (current ++ prev))
                       /\ 0 < B c)
  by (exists [x02]; split; [left; reflexivity|reflexivity]).
split; [exact H1|]. split; [exact H2|]. split; [reflexivity|].
exact (TotalAttestingBalance_is_highest_candidate_balance unit indices
         balance emptyState 3 B current prev H1 H2).
Defined.

(** Validator 5 takes part in two pending attestations, of slots 70 and 66,
  included at slots 71 and 67: the hypothesis of X11 holds, the lowest
  inclusion slot being 67. *)
Lemma InclusionSlot_is_lowest_witness :
let participants := fun (_ : BeaconState.t) (_ : AttestationData.t)
                        (_ : list byte) => Ok (E := unit) [4; 5] in
let state :=
  EpochOperations.with_LatestAttestations
    [attestation 70 3 [] [] []; attestation 66 3 [] [] []] emptyState in
EpochOperations.InclusionSlot participants state 5 = Ok 67
/\ 67 < EpochOperations.MaxUint64
/\ exists distance,
     EpochOperations.InclusionDistance participants state 5 = Ok distance.
Proof.
intros participants state.
assert (H : EpochOperations.InclusionSlot participants state 5 = Ok 67)
  by reflexivity.
split; [exact H|].
destruct (InclusionSlot_is_lowest unit participants state 5 67 H)
  as [Hlt [_ [_ Hdist]]].
split; [exact Hlt|exact Hdist].
Defined.

(** For the same state the hypothesis of X12 holds: the distance is that of
  the first attestation, 71 - 70. *)
Lemma InclusionDistance_is_first_witness :
let participants := fun (_ : BeaconState.t) (_ : AttestationData.t)
                        (_ : list byte) => Ok (E := unit) [4; 5] in
let state :=
  EpochOperations.with_LatestAttestations
    [attestation 70 3 [] [] []; attestation 66 3 [] [] []] emptyState in
EpochOperations.InclusionDistance participants state 5 = Ok 1
/\ exists before attestation after,
     BeaconState.LatestAttestations state = before ++ attestation :: after
     /\ EpochNotions.participates participants state 5 attestation
     /\ 1 = sub64 (PendingAttestation.InclusionSlot attestation)
              (AttestationData.Slot (PendingAttestation.Data attestation))
     /\ forall earlier, In earlier before ->
          exists participatedValidators,
            participants state (PendingAttestation.Data earlier)
              (PendingAttestation.AggregationBitfield earlier)
            = Ok participatedValidators
            /\ ~ In 5 participatedValidators.
Proof.
intros participants state.
assert (H : EpochOperations.InclusionDistance participants state 5 = Ok 1)
  by reflexivity.
split; [exact H|].
exact (InclusionDistance_is_first unit participants state 5 1 H).
Defined.

End OperationsProps.
(** ** The pending attestations and the crosslinks *)

Module AttestationProps.
Import pb Notions EpochNotions.

Section Attestations.

Variable E : Type.
Variable CurrentEpoch PrevEpoch : BeaconState.t -> Z.
Variable SlotToEpoch : Z -> Z.
Variable BlockRoot : BeaconState.t -> Z -> result E (list byte).
Variable state : BeaconState.t.




(** X14.  When the previous epoch is the current epoch, as it is at the
    start of the chain, [PrevAttestations] returns the attestations
    [CurrentAttestations] returns, and [PrevJustifiedAttestations], handed
    both lists, returns every attestation that passes its test twice;
    when the two epochs differ no attestation is in both lists. *)
Theorem PrevAttestations_at_chain_start :
  (PrevEpoch state = CurrentEpoch state ->
   EpochOperations.PrevAttestations PrevEpoch SlotToEpoch state
   = Epoch.CurrentAttestations CurrentEpoch SlotToEpoch state
   /\ EpochOperations.PrevJustifiedAttestations state
        (Epoch.CurrentAttestations CurrentEpoch SlotToEpoch state)
        (EpochOperations.PrevAttestations PrevEpoch SlotToEpoch state)
      = EpochOperations.PrevJustifiedAttestations state
          (Epoch.CurrentAttestations CurrentEpoch SlotToEpoch state) []
        ++ EpochOperations.PrevJustifiedAttestations state
             (Epoch.CurrentAttestations CurrentEpoch SlotToEpoch state) [])
  /\ (PrevEpoch state <> CurrentEpoch state ->
      forall attestation,
        In attestation (Epoch.CurrentAttestations CurrentEpoch SlotToEpoch state) ->
        ~ In attestation
            (EpochOperations.PrevAttestations PrevEpoch SlotToEpoch state)).
Proof.
  unfold EpochOperations.PrevAttestations, Epoch.CurrentAttestations,
    EpochOperations.PrevJustifiedAttestations.
  split.
  - intros ->. split; [reflexivity|].
    now rewrite app_nil_r, List.filter_app.
  - intros Hne a Hcur Hprev.
    apply List.filter_In in Hcur as [_ Hcur].
    apply List.filter_In in Hprev as [_ Hprev].
    apply Z.eqb_eq in Hcur, Hprev. congruence.
Qed.

Lemma headLoop_found (roots : Z -> list byte) attestations : forall acc,
  (forall attestation, In attestation attestations ->
     BlockRoot state
       (AttestationData.Slot (PendingAttestation.Data attestation))
     = Ok (roots (AttestationData.Slot (PendingAttestation.Data attestation)))) ->
  EpochOperations.headLoop BlockRoot state attestations acc
  = Ok (acc
        ++ List.filter
             (fun attestation =>
                bool_decide
                  (AttestationData.BeaconBlockRootHash32
                     (PendingAttestation.Data attestation)
                   = roots (AttestationData.Slot
                              (PendingAttestation.Data attestation))))
             attestations).
Proof.
  induction attestations as [|a rest IH]; intros acc Hroots.
  - cbn. now rewrite app_nil_r.
  - cbn [EpochOperations.headLoop List.filter].
    rewrite (Hroots a) by now left. cbn.
    rewrite IH by (intros b Hb; apply Hroots; now right).
    destruct (bool_decide _); [|reflexivity].
    now rewrite <- app_assoc.
Qed.

Lemma headLoop_fails before attestation after err : forall acc,
  (forall earlier, In earlier before ->
     exists root,
       BlockRoot state
         (AttestationData.Slot (PendingAttestation.Data earlier)) = Ok root) ->
  BlockRoot state
    (AttestationData.Slot (PendingAttestation.Data attestation)) = Err err ->
  EpochOperations.headLoop BlockRoot state
    (before ++ attestation :: after) acc = Err err.
Proof.
  induction before as [|b before IH]; intros acc Hbefore Herr.
  - cbn. now rewrite Herr.
  - cbn [app EpochOperations.headLoop].
    destruct (Hbefore b ltac:(now left)) as [root ->]. cbn.
    apply IH; [|exact Herr]. intros c Hc. apply Hbefore. now right.
Qed.

(** X15.  [PrevHeadAttestations] is all or nothing.  When the block root
    of the slot of every attestation handed in can be looked up, it
    returns, in their order, the attestations whose beacon block root is
    the root of their slot; when the lookup fails for one of them, the
    call fails with the error of the first such lookup and returns no
    attestation, whatever matched before. *)
Theorem PrevHeadAttestations_all_or_nothing
  (attestations : list PendingAttestation.t) :
  (forall roots : Z -> list byte,
     (forall attestation, In attestation attestations ->
        BlockRoot state
          (AttestationData.Slot (PendingAttestation.Data attestation))
        = Ok (roots (AttestationData.Slot
                       (PendingAttestation.Data attestation)))) ->
     EpochOperations.PrevHeadAttestations BlockRoot state attestations
     = Ok (List.filter
             (fun attestation =>
                bool_decide
                  (AttestationData.BeaconBlockRootHash32
                     (PendingAttestation.Data attestation)
                   = roots (AttestationData.Slot
                              (PendingAttestation.Data attestation))))
             attestations))
  /\ (forall before attestation after err,
        attestations = before ++ attestation :: after ->
        (forall earlier, In earlier before ->
           exists root,
             BlockRoot state
               (AttestationData.Slot (PendingAttestation.Data earlier))
             = Ok root) ->
        BlockRoot state
          (AttestationData.Slot (PendingAttestation.Data attestation))
        = Err err ->
        EpochOperations.PrevHeadAttestations BlockRoot state attestations
        = Err err).
Proof.
  unfold EpochOperations.PrevHeadAttestations. split.
  - intros roots Hroots. now rewrite (headLoop_found roots).
  - intros before a after err -> Hbefore Herr. now apply headLoop_fails.
Qed.

Variable StartSlot : Z -> Z.

(** X23.  When the two boundary filters look up a block root.
    [PrevBoundaryAttestations] looks up the root of the start slot of the
    previous epoch once, before its loop: without that root it fails even
    on an empty list, and with it it returns the attestations whose epoch
    boundary root is that root.  [CurrentBoundaryAttestations] looks up
    inside its loop: on an empty list it returns the empty list whether
    or not a root can be found, and on a list that is not empty it fails
    when the root of slot 0 cannot be found. *)
Theorem boundary_attestations_root_lookup :
  (forall attestations err,
     BlockRoot state (StartSlot (PrevEpoch state)) = Err err ->
     EpochOperations.PrevBoundaryAttestations PrevEpoch StartSlot BlockRoot
       state attestations = Err err)
  /\ (forall attestations root,
        BlockRoot state (StartSlot (PrevEpoch state)) = Ok root ->
        exists found,
          EpochOperations.PrevBoundaryAttestations PrevEpoch StartSlot
            BlockRoot state attestations = Ok found
          /\ forall attestation,
               In attestation found
               <-> In attestation attestations
                   /\ AttestationData.EpochBoundaryRootHash32
                        (PendingAttestation.Data attestation) = root)
  /\ Epoch.CurrentBoundaryAttestations BlockRoot state [] = Ok []
  /\ (forall attestation rest err,
        BlockRoot state 0 = Err err ->
        Epoch.CurrentBoundaryAttestations BlockRoot state (attestation :: rest)
        = Err err).
Proof.
  unfold EpochOperations.PrevBoundaryAttestations,
    Epoch.CurrentBoundaryAttestations.
  split; [|split; [|split]].
  - intros attestations err ->. reflexivity.
  - intros attestations root ->. eexists. split; [reflexivity|].
    intros a. rewrite List.filter_In. split.
    + intros [Hin Heq]. split; [exact Hin|].
      now apply bool_decide_eq_true_1 in Heq.
    + intros [Hin Heq]. split; [exact Hin|].
      now apply bool_decide_eq_true_2.
  - reflexivity.
  - intros a rest err Herr. cbn [Epoch.boundaryLoop]. now rewrite Herr.
Qed.

End Attestations.

Section Crosslinks.

Variable E : Type.
Variable CurrentEpoch PrevEpoch NextEpoch : BeaconState.t -> Z.
Variable StartSlot : Z -> Z.
Variable CrosslinkCommitteesAtSlot :
  BeaconState.t -> Z -> bool ->
  result E (list EpochOperations.CrosslinkCommittee.t).
Variable AttestingValidatorIndices :
  BeaconState.t -> Z -> list byte ->
  list PendingAttestation.t -> list PendingAttestation.t -> result E (list Z).
Variable EffectiveBalance : BeaconState.t -> Z -> Z.
Variable currentEpoch : Z.
Variables thisEpochAttestations prevEpochAttestations
  : list PendingAttestation.t.

Lemma crosslinksOnly_refl state : crosslinksOnly currentEpoch state state.
Proof.
  unfold crosslinksOnly. split; [now destruct state|]. split; [reflexivity|].
  intros shard c Hc. now left.
Qed.

Lemma crosslinksOnly_trans s1 s2 s3 :
  crosslinksOnly currentEpoch s1 s2 -> crosslinksOnly currentEpoch s2 s3 ->
  crosslinksOnly currentEpoch s1 s3.
Proof.
  intros [Hf1 [Hl1 Hc1]] [Hf2 [Hl2 Hc2]]. split; [|split].
  - rewrite Hf2, Hf1. reflexivity.
  - congruence.
  - intros shard c Hc. destruct (Hc2 shard c Hc) as [H|H]; [|now right].
    now apply Hc1.
Qed.

Lemma crosslinksOnly_write state (shard : nat) root :
  crosslinksOnly currentEpoch state
    (EpochOperations.with_LatestCrosslinks
       (<[shard := {| Crosslink.Epoch := currentEpoch;
                      Crosslink.CrosslinkDataRootHash32 := root |}]>
          (BeaconState.LatestCrosslinks state))
       state).
Proof.
  split; [reflexivity|]. split.
  - cbn. apply length_insert.
  - cbn. intros i c Hc. destruct (decide (i = shard)) as [->|Hne].
    + right. apply list_lookup_insert_Some in Hc as [[_ [<- _]]|[Hne _]];
        [reflexivity|congruence].
    + left. now rewrite list_lookup_insert_ne in Hc by congruence.
Qed.

Lemma committeesLoop_crosslinksOnly crosslinkCommittees :
  forall state after err,
    EpochOperations.committeesLoop AttestingValidatorIndices
      EffectiveBalance currentEpoch thisEpochAttestations
      prevEpochAttestations crosslinkCommittees state = Some (after, err) ->
    crosslinksOnly currentEpoch state after.
Proof.
  induction crosslinkCommittees as [|cc rest IH]; intros state after err Hloop.
  - cbn in Hloop. injection Hloop as <- _. apply crosslinksOnly_refl.
  - cbn [EpochOperations.committeesLoop] in Hloop.
    destruct (EpochOperations.TotalAttestingBalance _ _ _ _ _ _)
      as [attestingBalance|e].
    + destruct (mul64 attestingBalance 3 >=? _).
      * destruct (Epoch.winningRoot _ _ _ _ _ _) as [root|e].
        -- destruct (BeaconState.LatestCrosslinks state !! _);
             [|discriminate].
           apply IH in Hloop.
           eapply crosslinksOnly_trans; [|exact Hloop].
           apply crosslinksOnly_write.
        -- injection Hloop as <- _. apply crosslinksOnly_refl.
      * now apply IH in Hloop.
    + injection Hloop as <- _. apply crosslinksOnly_refl.
Qed.

Lemma slotsLoop_crosslinksOnly (n : nat) : forall i state after err,
  EpochOperations.slotsLoop CrosslinkCommitteesAtSlot
    AttestingValidatorIndices EffectiveBalance n i currentEpoch
    thisEpochAttestations prevEpochAttestations state = Some (after, err) ->
  crosslinksOnly currentEpoch state after.
Proof.
  induction n as [|n IH]; intros i state after err Hloop.
  - cbn in Hloop. injection Hloop as <- _. apply crosslinksOnly_refl.
  - cbn [EpochOperations.slotsLoop] in Hloop.
    destruct (CrosslinkCommitteesAtSlot state i false) as [ccs|e].
    + destruct (EpochOperations.committeesLoop _ _ _ _ _ ccs state)
        as [[mid [e|]]|] eqn:Hinner; [| |discriminate].
      * injection Hloop as <- _.
        now apply committeesLoop_crosslinksOnly in Hinner.
      * apply committeesLoop_crosslinksOnly in Hinner.
        apply IH in Hloop. eapply crosslinksOnly_trans; eauto.
    + injection Hloop as <- _. apply crosslinksOnly_refl.
Qed.

End Crosslinks.

Section ProcessCrosslinks.

Variable E : Type.
Variable CurrentEpoch PrevEpoch NextEpoch : BeaconState.t -> Z.
Variable StartSlot : Z -> Z.
Variable CrosslinkCommitteesAtSlot :
  BeaconState.t -> Z -> bool ->
  result E (list EpochOperations.CrosslinkCommittee.t).
Variable AttestingValidatorIndices :
  BeaconState.t -> Z -> list byte ->
  list PendingAttestation.t -> list PendingAttestation.t -> result E (list Z).
Variable EffectiveBalance : BeaconState.t -> Z -> Z.

(** X16.  Whenever [ProcessCrosslinks] comes back, with or without an
    error, the state object differs from the one handed in at most in the
    field [LatestCrosslinks]; that list has kept its length, and each of
    its entries is the entry that was there before or carries the epoch
    that was current when the pass began, also for the committees of the
    slots of the previous epoch. *)
Theorem ProcessCrosslinks_writes_current_epoch_crosslinks_only
  (state after : BeaconState.t) (err : option (EpochOperations.Error E))
  (thisEpochAttestations prevEpochAttestations : list PendingAttestation.t) :
  EpochOperations.ProcessCrosslinks CurrentEpoch PrevEpoch NextEpoch
    StartSlot CrosslinkCommitteesAtSlot AttestingValidatorIndices
    EffectiveBalance state thisEpochAttestations prevEpochAttestations
  = Some (after, err) ->
  after
  = EpochOperations.with_LatestCrosslinks
      (BeaconState.LatestCrosslinks after) state
  /\ length (BeaconState.LatestCrosslinks after)
     = length (BeaconState.LatestCrosslinks state)
  /\ forall (shard : nat) crosslink,
       BeaconState.LatestCrosslinks after !! shard = Some crosslink ->
       BeaconState.LatestCrosslinks state !! shard = Some crosslink
       \/ Crosslink.Epoch crosslink = CurrentEpoch state.
Proof.
  unfold EpochOperations.ProcessCrosslinks. intros Hloop.
  apply slotsLoop_crosslinksOnly in Hloop. exact Hloop.
Qed.

End ProcessCrosslinks.


(** One committee, of validator 0 on shard 1, at every slot; the validator
  attests with its whole balance to the root 01.  In a state of epoch 1
  with two crosslinks of epoch 0 the pass comes back without an error, so
  the hypothesis of X16 holds; the crosslink of shard 1 has been written
  with epoch 1, the other one is as it was. *)
Lemma ProcessCrosslinks_writes_current_epoch_crosslinks_only_witness :
let committees := fun (_ : BeaconState.t) (_ : Z) (_ : bool) =>
                    Ok (E := unit)
                      [{| EpochOperations.CrosslinkCommittee.Committee := [0];
                          EpochOperations.CrosslinkCommittee.Shard := 1 |}] in
let indices := fun (_ : BeaconState.t) (_ : Z) (_ : list byte)
                   (_ _ : list PendingAttestation.t) =>
                 Ok (E := unit) [0] in
let balance := fun (_ : BeaconState.t) (_ : Z) => 32 in
let old := {| Crosslink.Epoch := 0; Crosslink.CrosslinkDataRootHash32 := [] |} in
let state :=
  BeaconState.with_Slot 64
    (EpochOperations.with_LatestCrosslinks [old; old] emptyState) in
let after :=
  EpochOperations.with_LatestCrosslinks
    [old; {| Crosslink.Epoch := 1;
             Crosslink.CrosslinkDataRootHash32 := [x01] |}] state in
EpochOperations.ProcessCrosslinks (helpers.CurrentEpoch 64)
  (helpers.PrevEpoch 64) (helpers.NextEpoch 64) (helpers.StartSlot 64)
  committees indices balance state [attestation 70 1 [] [] [x01]] []
= Some (after, None)
/\ after
   = EpochOperations.with_LatestCrosslinks
       (BeaconState.LatestCrosslinks after) state
/\ length (BeaconState.LatestCrosslinks after)
   = length (BeaconState.LatestCrosslinks state)
/\ forall (shard : nat) crosslink,
     BeaconState.LatestCrosslinks after !! shard = Some crosslink ->
     BeaconState.LatestCrosslinks state !! shard = Some crosslink
     \/ Crosslink.Epoch crosslink = helpers.CurrentEpoch 64 state.
Proof.
intros committees indices balance old state after.
assert (H : EpochOperations.ProcessCrosslinks (helpers.CurrentEpoch 64)
              (helpers.PrevEpoch 64) (helpers.NextEpoch 64)
              (helpers.StartSlot 64) committees indices balance state
              [attestation 70 1 [] [] [x01]] []
            = Some (after, None)) by (vm_compute; reflexivity).
split; [exact H|].
exact (ProcessCrosslinks_writes_current_epoch_crosslinks_only unit
         (helpers.CurrentEpoch 64) (helpers.PrevEpoch 64)
         (helpers.NextEpoch 64) (helpers.StartSlot 64) committees indices
         balance state after None [attestation 70 1 [] [] [x01]] [] H).
Defined.

End AttestationProps.
(** ** Checkpoints and the schedule of the transition *)

Module CheckpointProps.
Import pb Notions EpochNotions StateNotions.

Section Justification.

Variable CurrentEpoch PrevEpoch : BeaconState.t -> Z.
Variable state : BeaconState.t.
Variables thisEpochBoundaryAttestingBalance prevEpochBoundaryAttestingBalance
  prevTotalBalance totalBalance : Z.

Local Abbreviation after :=
  (Epoch.ProcessJustification CurrentEpoch PrevEpoch state
     thisEpochBoundaryAttestingBalance prevEpochBoundaryAttestingBalance
     prevTotalBalance totalBalance).

(** X17.  [ProcessJustification] keeps the checkpoints in order.  If the
    finalized epoch is at most the previous justified epoch, that at most
    the justified epoch and that at most the previous epoch, then the
    same holds after the pass with the current epoch in place of the
    previous one, and neither the previous justified epoch nor the
    justified epoch has moved backwards. *)
Theorem ProcessJustification_keeps_checkpoints_in_order :
  PrevEpoch state <= CurrentEpoch state ->
  BeaconState.FinalizedEpoch state <= BeaconState.PreviousJustifiedEpoch state ->
  BeaconState.PreviousJustifiedEpoch state <= BeaconState.JustifiedEpoch state ->
  BeaconState.JustifiedEpoch state <= PrevEpoch state ->
  BeaconState.FinalizedEpoch after <= BeaconState.PreviousJustifiedEpoch after
  /\ BeaconState.PreviousJustifiedEpoch after <= BeaconState.JustifiedEpoch after
  /\ BeaconState.JustifiedEpoch after <= CurrentEpoch state
  /\ BeaconState.PreviousJustifiedEpoch state
     <= BeaconState.PreviousJustifiedEpoch after
  /\ BeaconState.JustifiedEpoch state <= BeaconState.JustifiedEpoch after.
Proof.
  intros Hpc Hfp Hpj Hjp.
  rewrite JustificationProps.ProcessJustification_previous_justified,
    JustificationProps.ProcessJustification_justified.
  destruct (JustificationProps.ProcessJustification_finalized CurrentEpoch
              PrevEpoch state thisEpochBoundaryAttestingBalance
              prevEpochBoundaryAttestingBalance prevTotalBalance totalBalance)
    as [H|[H|H]]; rewrite H;
    destruct (mul64 3 thisEpochBoundaryAttestingBalance
              >=? mul64 2 totalBalance),
             (mul64 3 prevEpochBoundaryAttestingBalance
              >=? mul64 2 prevTotalBalance); lia.
Qed.

(** X18.  [ProcessJustification] writes to the bitfield, the two
    justified epochs and the finalized epoch, and to no other field of
    the state; the previous justified epoch becomes the justified epoch
    the state had before the pass, whatever the balances. *)
Theorem ProcessJustification_writes_finality_fields_only :
  after
  = BeaconState.with_JustifiedEpoch (BeaconState.JustifiedEpoch after)
      (BeaconState.with_PreviousJustifiedEpoch
         (BeaconState.JustifiedEpoch state)
         (BeaconState.with_FinalizedEpoch (BeaconState.FinalizedEpoch after)
            (BeaconState.with_JustificationBitfield
               (BeaconState.JustificationBitfield after) state))).
Proof.
  unfold Epoch.ProcessJustification.
  repeat match goal with
         | |- context [if ?c then _ else _] => destruct c
         end; reflexivity.
Qed.

End Justification.

Section Early.

Variable CurrentEpoch : BeaconState.t -> Z.
Variable state : BeaconState.t.

(** X19.  The two passes of the earlier revision.  Its
    [ProcessJustification] never writes the finalized epoch and records
    the justified epoch it found as the previous justified epoch;
    its [ProcessFinalization] writes the finalized epoch only, either
    leaves it or sets it to the justified epoch (not to the previous
    justified epoch its tests read), and so does not lower it when it is
    at most the justified epoch. *)
Theorem early_justification_then_finalization
  (thisEpochBoundaryAttestingBalance prevEpochBoundaryAttestingBalance
     totalBalance : Z) :
  let justified :=
    EpochEarly.ProcessJustification CurrentEpoch state
      thisEpochBoundaryAttestingBalance prevEpochBoundaryAttestingBalance
      totalBalance in
  let finalized := EpochEarly.ProcessFinalization CurrentEpoch state in
  BeaconState.FinalizedEpoch justified = BeaconState.FinalizedEpoch state
  /\ BeaconState.PreviousJustifiedEpoch justified
     = BeaconState.JustifiedEpoch state
  /\ finalized
     = BeaconState.with_FinalizedEpoch (BeaconState.FinalizedEpoch finalized)
         state
  /\ (BeaconState.FinalizedEpoch finalized = BeaconState.FinalizedEpoch state
      \/ BeaconState.FinalizedEpoch finalized
         = BeaconState.JustifiedEpoch state)
  /\ (BeaconState.FinalizedEpoch state <= BeaconState.JustifiedEpoch state ->
      BeaconState.FinalizedEpoch state
      <= BeaconState.FinalizedEpoch finalized).
Proof.
  intros justified finalized.
  assert (Hfin : BeaconState.FinalizedEpoch finalized
                 = BeaconState.FinalizedEpoch state
                 \/ BeaconState.FinalizedEpoch finalized
                    = BeaconState.JustifiedEpoch state)
    by apply EarlyProps.early_ProcessFinalization_finalized.
  split; [apply EarlyProps.early_ProcessJustification_finalized|].
  split.
  - subst justified. unfold EpochEarly.ProcessJustification.
    repeat match goal with
           | |- context [if ?c then _ else _] => destruct c
           end; reflexivity.
  - split.
    + subst finalized. unfold EpochEarly.ProcessFinalization.
      repeat match goal with
             | |- context [if ?c then _ else _] => destruct c
             end; now destruct state.
    + split; [exact Hfin|]. intros Hle. destruct Hfin as [-> | ->]; lia.
Qed.

End Early.

Section Transition.

Variable cfg : params.BeaconChainConfig.
Variable E : Type.
Variable ops : State.BlockOperations E.
Variable ProcessEpoch : BeaconState.t -> BeaconState.t * option E.
Hypothesis ops_keepSlot : keepsSlot ops.

Lemma step_slot (wrap : E -> State.BlockError E) r k slot :
  BeaconState.Slot (fst r) = slot ->
  (forall s, BeaconState.Slot s = slot ->
             BeaconState.Slot (State.object (k s)) = slot) ->
  BeaconState.Slot (State.object (State.step wrap r k)) = slot.
Proof.
  intros Hr Hk. destruct r as [s [e|]]; cbn in *; [exact Hr|now apply Hk].
Qed.

Lemma ProcessBlock_slot state block verifySignatures :
  BeaconState.Slot
    (State.object (State.ProcessBlock ops state block verifySignatures))
  = BeaconState.Slot state.
Proof.
  destruct ops_keepSlot as [_ [H1 [H2 [H3 [H4 [H5 [H6 H7]]]]]]].
  unfold State.ProcessBlock.
  destruct (negb _); [reflexivity|].
  destruct (if verifySignatures then _ else _); [reflexivity|].
  apply step_slot; [apply H1|]. intros s1 Hs1.
  apply step_slot; [now rewrite H2|]. intros s2 Hs2.
  apply step_slot; [now rewrite H4, H3|]. intros s3 Hs3.
  apply step_slot; [now rewrite H5|]. intros s4 Hs4.
  apply step_slot; [now rewrite H6|]. intros s5 Hs5.
  apply step_slot; [now rewrite H7|]. intros s6 Hs6.
  exact Hs6.
Qed.

Lemma ProcessBlock_accepts_own_slot state block verifySignatures :
  State.failure (State.ProcessBlock ops state block verifySignatures) = None ->
  BeaconBlock.Slot block = BeaconState.Slot state.
Proof.
  unfold State.ProcessBlock.
  destruct (BeaconBlock.Slot block =? BeaconState.Slot state) eqn:Hslot;
    cbn [negb]; [|discriminate].
  intros _. now apply Z.eqb_eq.
Qed.

(** X20.  The schedule of [ExecuteStateTransition] when no pass of the
    block package writes the slot.  A block goes through only if its
    slot is the slot of the state plus one (on [uint64]), and then the
    epoch pass is run exactly when that slot is a multiple of the epoch
    length. *)
Theorem ExecuteStateTransition_epoch_pass_at_epoch_start
  (state : BeaconState.t) (block : BeaconBlock.t) (prevBlockRoot : list byte)
  (verifySignatures : bool) :
  (forall err,
     State.failure
       (State.ExecuteStateTransition cfg ops ProcessEpoch state (Some block)
          prevBlockRoot verifySignatures)
     <> Some (State.UnableToProcessBlock err)) ->
  BeaconBlock.Slot block = add64 (BeaconState.Slot state) 1
  /\ (In State.CallProcessEpoch
        (State.calls
           (State.ExecuteStateTransition cfg ops ProcessEpoch state
              (Some block) prevBlockRoot verifySignatures))
      <-> add64 (BeaconState.Slot state) 1 mod params.EpochLength cfg = 0).
Proof.
  intros Hok.
  destruct ops_keepSlot as [Hroots _].
  set (advanced :=
         State.ProcessBlockRoots ops
           (BeaconState.with_Slot (add64 (BeaconState.Slot state) 1) state)
           prevBlockRoot).
  assert (Hadv : BeaconState.Slot advanced = add64 (BeaconState.Slot state) 1)
    by (subst advanced; now rewrite Hroots).
  assert (Hblock : State.failure
                     (State.ProcessBlock ops advanced block verifySignatures)
                   = None).
  { destruct (State.failure
                (State.ProcessBlock ops advanced block verifySignatures))
      as [err|] eqn:Hf; [|reflexivity].
    exfalso. apply (Hok err). unfold State.ExecuteStateTransition.
    fold advanced. now rewrite Hf. }
  split.
  - rewrite <- Hadv. now apply (ProcessBlock_accepts_own_slot _ _ verifySignatures).
  - rewrite StateProps.ExecuteStateTransition_runs_epoch_iff.
    cbv beta zeta. fold advanced. unfold EpochEarly.CanProcessEpoch. split.
    + intros [b [Hb [_ Hcan]]]. rewrite ProcessBlock_slot, Hadv in Hcan.
      now apply Z.eqb_eq.
    + intros Hmod. exists block. split; [reflexivity|].
      split; [exact Hblock|]. rewrite ProcessBlock_slot, Hadv.
      now apply Z.eqb_eq.
Qed.

End Transition.

(** In the last slot of epoch 11, with epochs 9 and 10 justified and epoch
  9 finalized, the hypotheses of X17 hold. *)
Lemma ProcessJustification_keeps_checkpoints_in_order_witness :
let state := finalityState 767 9 10 3 9 in
let after :=
  Epoch.ProcessJustification (helpers.CurrentEpoch 64)
    (helpers.PrevEpoch 64) state 2 0 3 3 in
helpers.PrevEpoch 64 state <= helpers.CurrentEpoch 64 state
/\ BeaconState.FinalizedEpoch state <= BeaconState.PreviousJustifiedEpoch state
/\ BeaconState.PreviousJustifiedEpoch state <= BeaconState.JustifiedEpoch state
/\ BeaconState.JustifiedEpoch state <= helpers.PrevEpoch 64 state
/\ BeaconState.FinalizedEpoch after <= BeaconState.PreviousJustifiedEpoch after
/\ BeaconState.PreviousJustifiedEpoch after <= BeaconState.JustifiedEpoch after
/\ BeaconState.JustifiedEpoch after <= helpers.CurrentEpoch 64 state
/\ BeaconState.PreviousJustifiedEpoch state
   <= BeaconState.PreviousJustifiedEpoch after
/\ BeaconState.JustifiedEpoch state <= BeaconState.JustifiedEpoch after.
Proof.
intros state after.
assert (H1 : helpers.PrevEpoch 64 state <= helpers.CurrentEpoch 64 state)
  by (vm_compute; discriminate).
assert (H2 : BeaconState.FinalizedEpoch state
             <= BeaconState.PreviousJustifiedEpoch state)
  by (vm_compute; discriminate).
assert (H3 : BeaconState.PreviousJustifiedEpoch state
             <= BeaconState.JustifiedEpoch state)
  by (vm_compute; discriminate).
assert (H4 : BeaconState.JustifiedEpoch state <= helpers.PrevEpoch 64 state)
  by (vm_compute; discriminate).
split; [exact H1|]. split; [exact H2|]. split; [exact H3|].
split; [exact H4|].
exact (ProcessJustification_keeps_checkpoints_in_order
         (helpers.CurrentEpoch 64) (helpers.PrevEpoch 64) state 2 0 3 3
         H1 H2 H3 H4).
Defined.

(** Block operations that leave the state alone keep its slot; without
  signature verification they let the block of slot 64 through on a state
  at slot 63, so the hypotheses of X20 hold, and the epoch pass is run,
  64 being a multiple of the epoch length. *)
Lemma ExecuteStateTransition_epoch_pass_at_epoch_start_witness :
let state := BeaconState.with_Slot 63 emptyState in
keepsSlot rejectingOps
/\ (forall err,
      State.failure
        (State.ExecuteStateTransition mainnet rejectingOps idleEpoch state
           (Some (blockAt 64)) [] false)
      <> Some (State.UnableToProcessBlock err))
/\ BeaconBlock.Slot (blockAt 64) = add64 (BeaconState.Slot state) 1
/\ (In State.CallProcessEpoch
      (State.calls
         (State.ExecuteStateTransition mainnet rejectingOps idleEpoch state
            (Some (blockAt 64)) [] false))
    <-> add64 (BeaconState.Slot state) 1 mod params.EpochLength mainnet = 0).
Proof.
intros state.
assert (H1 : keepsSlot rejectingOps) by (repeat split).
assert (H2 : forall err,
           State.failure
             (State.ExecuteStateTransition mainnet rejectingOps idleEpoch
                state (Some (blockAt 64)) [] false)
           <> Some (State.UnableToProcessBlock err))
  by (intros err H; discriminate H).
split; [exact H1|]. split; [exact H2|].
exact (ExecuteStateTransition_epoch_pass_at_epoch_start mainnet unit
         rejectingOps idleEpoch H1 state (blockAt 64) [] false H2).
Defined.

End CheckpointProps.
(** ** The deposit logs of the proof-of-work chain service *)

Module PowchainProps.
Import Notions.

Section DepositLog.

Variable Hash : list byte -> list byte.
Variable DepositContractTreeDepth : Z.
Variable E : Type.
Variable DepositInput : Type.
Variable UnpackDepositLogData :
  list byte -> result E (list byte * list byte * list byte).
Variable Uint64 : list byte -> option Z.
Variable DecodeDepositInput : list byte -> result E DepositInput.

Local Abbreviation ProcessDepositLog :=
  (Powchain.ProcessDepositLog Hash DepositContractTreeDepth
     UnpackDepositLogData Uint64 DecodeDepositInput).

(** A log whose index is not above the last received one is skipped. *)
Lemma ProcessDepositLog_seen w VRClog merkleRoot depositData idx index :
  UnpackDepositLogData (Powchain.Log.Data VRClog)
  = Ok (merkleRoot, depositData, idx) ->
  Uint64 idx = Some index ->
  Powchain.int64 index <= Powchain.lastReceivedMerkleIndex w ->
  ProcessDepositLog w VRClog = Some w.
Proof.
  intros Hunpack Hindex Hseen. unfold Powchain.ProcessDepositLog.
  rewrite Hunpack, Hindex. apply Z.leb_le in Hseen. now rewrite Hseen.
Qed.

(** X21.  The guard of [ProcessDepositLog] against logs seen before.
    Whenever the function returns, the last received Merkle index has not
    gone down; a deposit is recorded, for the chain start or in the
    database, only in a call that moves the index up; and after such a
    call the same log, delivered again, changes nothing. *)
Theorem ProcessDepositLog_replay_is_ignored
  (w w' : Powchain.Web3Service) (VRClog : Powchain.Log.t) :
  ProcessDepositLog w VRClog = Some w' ->
  Powchain.lastReceivedMerkleIndex w <= Powchain.lastReceivedMerkleIndex w'
  /\ (Powchain.lastReceivedMerkleIndex w' = Powchain.lastReceivedMerkleIndex w ->
      Powchain.chainStartDeposits w' = Powchain.chainStartDeposits w
      /\ Powchain.pendingDeposits w' = Powchain.pendingDeposits w)
  /\ (Powchain.lastReceivedMerkleIndex w < Powchain.lastReceivedMerkleIndex w' ->
      ProcessDepositLog w' VRClog = Some w').
Proof.
  unfold Powchain.ProcessDepositLog at 1.
  destruct (UnpackDepositLogData _) as [[[merkleRoot depositData] idx]|e]
    eqn:Hunpack.
  2: { intros H. injection H as <-. repeat split; lia. }
  destruct (Uint64 idx) as [index|] eqn:Hindex; [|discriminate].
  destruct (Powchain.int64 index <=? _) eqn:Hseen.
  { intros H. injection H as <-. repeat split; lia. }
  apply Z.leb_gt in Hseen. unfold Powchain.saveInTrie.
  destruct (Powchain.depositTrie w) as [trie|]; [|discriminate].
  destruct (bool_decide _).
  { intros H. injection H as <-. cbn. repeat split; lia. }
  cbn [Powchain.with_depositTrie Powchain.with_lastReceivedMerkleIndex
         Powchain.chainStarted].
  assert (Hreplay : forall v : Powchain.Web3Service,
            Powchain.lastReceivedMerkleIndex v = Powchain.int64 index ->
            ProcessDepositLog v VRClog = Some v).
  { intros v Hv. apply (ProcessDepositLog_seen _ _ _ _ _ _ Hunpack Hindex).
    lia. }
  destruct (DecodeDepositInput depositData) as [input|e].
  - destruct (negb (Powchain.chainStarted w)); intros H; injection H as <-;
      cbn; (split; [lia|]); (split; [lia|]); intros _; now apply Hreplay.
  - intros H; injection H as <-; cbn; (split; [lia|]); (split; [lia|]);
      intros _; now apply Hreplay.
Qed.

(** X22.  A deposit log whose root does not match.  [saveInTrie] inserts
    the deposit data before it compares the roots, so when the root of
    the log differs from the root of the trie after the insertion,
    [ProcessDepositLog] returns with the deposit in the trie and the
    counter of the trie raised, but with the last received index and the
    recorded deposits as they were; the log is therefore not taken as
    seen, and delivered again it is inserted a second time. *)
Theorem ProcessDepositLog_root_mismatch_leaves_deposit_in_trie
  (w : Powchain.Web3Service) (VRClog : Powchain.Log.t)
  (merkleRoot depositData idx : list byte) (index : Z)
  (trie : Trie.DepositTrie) :
  UnpackDepositLogData (Powchain.Log.Data VRClog)
  = Ok (merkleRoot, depositData, idx) ->
  Uint64 idx = Some index ->
  Powchain.lastReceivedMerkleIndex w < Powchain.int64 index ->
  Powchain.depositTrie w = Some trie ->
  Trie.Root (Trie.UpdateDepositTrie Hash DepositContractTreeDepth trie
               depositData) <> merkleRoot ->
  let once :=
    Trie.UpdateDepositTrie Hash DepositContractTreeDepth trie depositData in
  let twice :=
    Trie.UpdateDepositTrie Hash DepositContractTreeDepth once depositData in
  ProcessDepositLog w VRClog
  = Some (Powchain.with_depositTrie (Some once) w)
  /\ Trie.depositCount once = add64 (Trie.depositCount trie) 1
  /\ (Trie.Root twice <> merkleRoot ->
      ProcessDepositLog (Powchain.with_depositTrie (Some once) w) VRClog
      = Some (Powchain.with_depositTrie (Some twice) w)).
Proof.
  intros Hunpack Hindex Hnew Htrie Hroot once twice.
  assert (Hstep : forall v t,
            Powchain.lastReceivedMerkleIndex v
            = Powchain.lastReceivedMerkleIndex w ->
            Powchain.depositTrie v = Some t ->
            Trie.Root (Trie.UpdateDepositTrie Hash DepositContractTreeDepth
                         t depositData) <> merkleRoot ->
            ProcessDepositLog v VRClog
            = Some (Powchain.with_depositTrie
                      (Some (Trie.UpdateDepositTrie Hash
                               DepositContractTreeDepth t depositData)) v)).
  { intros v t Hlast Ht Hne. unfold Powchain.ProcessDepositLog.
    rewrite Hunpack, Hindex, Hlast.
    apply Z.leb_gt in Hnew. rewrite Hnew.
    unfold Powchain.saveInTrie. rewrite Ht.
    now rewrite bool_decide_eq_true_2 by exact Hne. }
  split; [now apply Hstep|]. split; [reflexivity|].
  intros Hroot2. now rewrite (Hstep _ once) by (reflexivity || exact Hroot2).
Qed.

End DepositLog.

(** A service with a new trie of depth 3 that has received no log yet, the
  hash mapping everything to the zero array, and a log that unpacks to
  the zero array as root and to index 0: the call returns, so the
  hypothesis of X21 holds; the deposit is recorded for the chain start
  and the last received index is 0. *)
Lemma ProcessDepositLog_replay_is_ignored_witness :
let unpack := fun data : list byte => Ok (E := unit) (zeroHash, data, data) in
let uint64 := fun _ : list byte => Some 0 in
let decode := fun _ : list byte => Ok (E := unit) tt in
let w :=
  {| Powchain.depositTrie := Some Trie.NewDepositTrie;
     Powchain.chainStartDeposits := [];
     Powchain.chainStarted := false;
     Powchain.pendingDeposits := [];
     Powchain.lastReceivedMerkleIndex := -1 |} in
let VRClog := {| Powchain.Log.Data := [x01]; Powchain.Log.BlockNumber := 7 |} in
let w' :=
  Powchain.with_chainStartDeposits [{| Powchain.Deposit.DepositData := [x01] |}]
    (Powchain.with_lastReceivedMerkleIndex 0
       (Powchain.with_depositTrie
          (Some (Trie.UpdateDepositTrie (fun _ => zeroHash) 3
                   Trie.NewDepositTrie [x01])) w)) in
Powchain.ProcessDepositLog (fun _ => zeroHash) 3 unpack uint64 decode w VRClog
= Some w'
/\ Powchain.lastReceivedMerkleIndex w <= Powchain.lastReceivedMerkleIndex w'
/\ (Powchain.lastReceivedMerkleIndex w' = Powchain.lastReceivedMerkleIndex w ->
    Powchain.chainStartDeposits w' = Powchain.chainStartDeposits w
    /\ Powchain.pendingDeposits w' = Powchain.pendingDeposits w)
/\ (Powchain.lastReceivedMerkleIndex w < Powchain.lastReceivedMerkleIndex w' ->
    Powchain.ProcessDepositLog (fun _ => zeroHash) 3 unpack uint64 decode
      w' VRClog = Some w').
Proof.
intros unpack uint64 decode w VRClog w'.
assert (H : Powchain.ProcessDepositLog (fun _ => zeroHash) 3 unpack uint64
              decode w VRClog = Some w') by (vm_compute; reflexivity).
split; [exact H|].
exact (ProcessDepositLog_replay_is_ignored (fun _ => zeroHash) 3 unit unit
         unpack uint64 decode w w' VRClog H).
Defined.

(** The same service and a log that unpacks to the empty string as root,
  which is no root of the trie: the hypotheses of X22 hold. *)
Lemma ProcessDepositLog_root_mismatch_leaves_deposit_in_trie_witness :
let unpack := fun data : list byte => Ok (E := unit) ([], data, data) in
let uint64 := fun _ : list byte => Some 0 in
let decode := fun _ : list byte => Ok (E := unit) tt in
let w :=
  {| Powchain.depositTrie := Some Trie.NewDepositTrie;
     Powchain.chainStartDeposits := [];
     Powchain.chainStarted := false;
     Powchain.pendingDeposits := [];
     Powchain.lastReceivedMerkleIndex := -1 |} in
let VRClog := {| Powchain.Log.Data := [x01]; Powchain.Log.BlockNumber := 7 |} in
let once :=
  Trie.UpdateDepositTrie (fun _ => zeroHash) 3 Trie.NewDepositTrie [x01] in
let twice := Trie.UpdateDepositTrie (fun _ => zeroHash) 3 once [x01] in
unpack (Powchain.Log.Data VRClog) = Ok ([], [x01], [x01])
/\ uint64 [x01] = Some 0
/\ Powchain.lastReceivedMerkleIndex w < Powchain.int64 0
/\ Powchain.depositTrie w = Some Trie.NewDepositTrie
/\ Trie.Root once <> []
/\ Powchain.ProcessDepositLog (fun _ => zeroHash) 3 unpack uint64 decode
     w VRClog
   = Some (Powchain.with_depositTrie (Some once) w)
/\ Trie.depositCount once = add64 (Trie.depositCount Trie.NewDepositTrie) 1
/\ (Trie.Root twice <> [] ->
    Powchain.ProcessDepositLog (fun _ => zeroHash) 3 unpack uint64 decode
      (Powchain.with_depositTrie (Some once) w) VRClog
    = Some (Powchain.with_depositTrie (Some twice) w)).
Proof.
intros unpack uint64 decode w VRClog once twice.
assert (H1 : unpack (Powchain.Log.Data VRClog) = Ok ([], [x01], [x01]))
  by reflexivity.
assert (H2 : uint64 [x01] = Some 0) by reflexivity.
assert (H3 : Powchain.lastReceivedMerkleIndex w < Powchain.int64 0)
  by reflexivity.
assert (H4 : Powchain.depositTrie w = Some Trie.NewDepositTrie)
  by reflexivity.
assert (H5 : Trie.Root once <> []) by (vm_compute; discriminate).
split; [exact H1|]. split; [exact H2|]. split; [exact H3|].
split; [exact H4|]. split; [exact H5|].
exact (ProcessDepositLog_root_mismatch_leaves_deposit_in_trie
         (fun _ => zeroHash) 3 unit unit unpack uint64 decode w VRClog
         [] [x01] [x01] 0 Trie.NewDepositTrie H1 H2 H3 H4 H5).
Defined.

End PowchainProps.
